(** * print3dhood: scene construction, layer synthesis and previews

    A shallow embedding of [app/services/mesher.py] together with the
    parts of [app/config.py], [app/models.py] and
    [app/services/overpass.py] it reads.

    Numbers.  Python [float] values are read as exact rationals ([Q]):
    rounding is not modelled, the comparisons, [min], [max] and the
    guards of the code are.  Python [int] is [Z].

    Collaborators.  The geometry library (shapely), the projection
    (pyproj) and the mesh kernel (trimesh) are not part of the repository;
    their operations are the fields of three interfaces and every law a
    proof needs from them is an explicit hypothesis of that proof. *)

From Stdlib Require Import QArith Qabs Qminmax ZArith List Bool Ascii String.
From Stdlib Require Import DecimalString Lia Lqa.
From Stdlib Require Import Sorted Permutation.
Import ListNotations.
Open Scope Q_scope.

Set Implicit Arguments.
Set Warnings "-register-all".

(* ================================================================== *)
(** ** Python arithmetic on numbers *)

Definition Qltb (a b : Q) : bool := negb (Qle_bool b a).

(** [max(a, b)]: the first argument is kept unless the second is strictly
    larger; [min(a, b)] keeps it unless the second is strictly smaller. *)
Definition py_max (a b : Q) : Q := if Qltb a b then b else a.
Definition py_min (a b : Q) : Q := if Qltb b a then b else a.

(** Truth value of a [float | None]. *)
Definition truthy_float (h : option Q) : bool :=
  match h with
  | None => false
  | Some v => negb (Qeq_bool v 0)
  end.

Definition truthy_list {A} (l : list A) : bool :=
  match l with [] => false | _ :: _ => true end.

(* ================================================================== *)
(** ** Errors *)

Inductive ModelBuildError : Type :=
| BuildError (message : string).

Inductive Result (A : Type) : Type :=
| Ok (a : A)
| Raise (e : ModelBuildError).
Arguments Ok {A} a.
Arguments Raise {A} e.

Definition bind {A B} (m : Result A) (k : A -> Result B) : Result B :=
  match m with
  | Ok a => k a
  | Raise e => Raise e
  end.

Notation "'do' x <- m ; k" := (bind m (fun x => k))
  (at level 10, x name, m at level 100, k at level 200).

Definition is_ok {A} (m : Result A) : bool :=
  match m with Ok _ => true | Raise _ => false end.

(* ================================================================== *)
(** ** Configuration ([app/config.py]) and request ([app/models.py]) *)

Record Settings : Type := {
  base_thickness_m : Q;
  green_layer_thickness_m : Q;
  building_layer_thickness_m : Q;
  road_groove_depth_m : Q;
  building_layer_padding_m : Q;
  base_padding_m : Q;
  target_print_diameter_m : Q;
  road_indent_width_m : Q;
  park_indent_shrink_m : Q;
  highlight_peg_depth_m : Q;
  highlight_enabled : bool
}.

(** The defaults of the [Settings] class. *)
Definition default_settings : Settings := {|
  base_thickness_m := 75 # 10000;
  green_layer_thickness_m := 75 # 10000;
  building_layer_thickness_m := 75 # 10000;
  road_groove_depth_m := 15 # 10000;
  building_layer_padding_m := 25 # 10;
  base_padding_m := 5;
  target_print_diameter_m := 2 # 10;
  road_indent_width_m := 4;
  park_indent_shrink_m := 1;
  highlight_peg_depth_m := 45 # 10000;
  highlight_enabled := true
|}.

(** A print diameter of one millimetre: half of it is below the floor of
    [print_radius]. *)
Definition tiny_print_settings : Settings := {|
  base_thickness_m := base_thickness_m default_settings;
  green_layer_thickness_m := green_layer_thickness_m default_settings;
  building_layer_thickness_m := building_layer_thickness_m default_settings;
  road_groove_depth_m := road_groove_depth_m default_settings;
  building_layer_padding_m := building_layer_padding_m default_settings;
  base_padding_m := base_padding_m default_settings;
  target_print_diameter_m := 1 # 1000;
  road_indent_width_m := road_indent_width_m default_settings;
  park_indent_shrink_m := park_indent_shrink_m default_settings;
  highlight_peg_depth_m := highlight_peg_depth_m default_settings;
  highlight_enabled := highlight_enabled default_settings
|}.

(** A building layer one millimetre thick. *)
Definition thin_layer_settings : Settings := {|
  base_thickness_m := base_thickness_m default_settings;
  green_layer_thickness_m := green_layer_thickness_m default_settings;
  building_layer_thickness_m := 1 # 1000;
  road_groove_depth_m := road_groove_depth_m default_settings;
  building_layer_padding_m := building_layer_padding_m default_settings;
  base_padding_m := base_padding_m default_settings;
  target_print_diameter_m := target_print_diameter_m default_settings;
  road_indent_width_m := road_indent_width_m default_settings;
  park_indent_shrink_m := park_indent_shrink_m default_settings;
  highlight_peg_depth_m := highlight_peg_depth_m default_settings;
  highlight_enabled := highlight_enabled default_settings
|}.

(** The defaults with the highlight switched off. *)
Definition no_highlight_settings : Settings := {|
  base_thickness_m := base_thickness_m default_settings;
  green_layer_thickness_m := green_layer_thickness_m default_settings;
  building_layer_thickness_m := building_layer_thickness_m default_settings;
  road_groove_depth_m := road_groove_depth_m default_settings;
  building_layer_padding_m := building_layer_padding_m default_settings;
  base_padding_m := base_padding_m default_settings;
  target_print_diameter_m := target_print_diameter_m default_settings;
  road_indent_width_m := road_indent_width_m default_settings;
  park_indent_shrink_m := park_indent_shrink_m default_settings;
  highlight_peg_depth_m := highlight_peg_depth_m default_settings;
  highlight_enabled := false
|}.

(** The defaults with a base padding of minus five metres. *)
Definition negative_padding_settings : Settings := {|
  base_thickness_m := base_thickness_m default_settings;
  green_layer_thickness_m := green_layer_thickness_m default_settings;
  building_layer_thickness_m := building_layer_thickness_m default_settings;
  road_groove_depth_m := road_groove_depth_m default_settings;
  building_layer_padding_m := building_layer_padding_m default_settings;
  base_padding_m := -5;
  target_print_diameter_m := target_print_diameter_m default_settings;
  road_indent_width_m := road_indent_width_m default_settings;
  park_indent_shrink_m := park_indent_shrink_m default_settings;
  highlight_peg_depth_m := highlight_peg_depth_m default_settings;
  highlight_enabled := highlight_enabled default_settings
|}.

Record ModelRequest : Type := {
  latitude : Q;
  longitude : Q;
  radius_meters : Z;
  highlight_home : bool;
  formats : list string
}.

(** The [Field] constraints of [ModelRequest]. *)
Definition valid_request (r : ModelRequest) : Prop :=
  -90 <= latitude r /\ latitude r <= 90 /\
  -180 <= longitude r /\ longitude r <= 180 /\
  (10 < radius_meters r < 2000)%Z.

(* ================================================================== *)
(** ** Geometry values (shapely) *)

Definition Coord : Type := (Q * Q)%type.

Record Polygon : Type := {
  exterior : list Coord;
  interiors : list (list Coord)
}.

Inductive Geometry : Type :=
| GPoint (c : Coord)
| GLineString (coords : list Coord)
| GPolygon (p : Polygon)
| GMultiPolygon (geoms : list Polygon)
| GCollection (geoms : list Geometry).

(** [GeometryCollection()] *)
Definition GeometryCollection_empty : Geometry := GCollection [].

Definition polygon_is_empty (p : Polygon) : bool :=
  match exterior p with [] => true | _ :: _ => false end.

Fixpoint is_empty (g : Geometry) : bool :=
  match g with
  | GPoint _ => false
  | GLineString cs => match cs with [] => true | _ :: _ => false end
  | GPolygon p => polygon_is_empty p
  | GMultiPolygon ps => forallb polygon_is_empty ps
  | GCollection gs => forallb is_empty gs
  end.

(** The rings of a polygon: [exterior] first, then the [interiors]. *)
Definition rings (p : Polygon) : list (list Coord) :=
  exterior p :: interiors p.

Definition polygon_map (f : Coord -> Coord) (p : Polygon) : Polygon :=
  {| exterior := map f (exterior p);
     interiors := map (map f) (interiors p) |}.

Fixpoint geometry_map (f : Coord -> Coord) (g : Geometry) : Geometry :=
  match g with
  | GPoint c => GPoint (f c)
  | GLineString cs => GLineString (map f cs)
  | GPolygon p => GPolygon (polygon_map f p)
  | GMultiPolygon ps => GMultiPolygon (map (polygon_map f) ps)
  | GCollection gs => GCollection (map (geometry_map f) gs)
  end.

(** [affinity.translate(geometry, xoff, yoff)] *)
Definition translate (g : Geometry) (xoff yoff : Q) : Geometry :=
  geometry_map (fun c => (fst c + xoff, snd c + yoff)) g.

(** [affinity.scale(geometry, xfact, yfact, origin=(0, 0))] *)
Definition scale (g : Geometry) (xfact yfact : Q) : Geometry :=
  geometry_map (fun c => (xfact * fst c, yfact * snd c)) g.

Definition _to_local_scaled (geometry : Geometry)
    (origin_x origin_y scale_factor : Q) : Geometry :=
  let local := translate geometry (- origin_x) (- origin_y) in
  scale local scale_factor scale_factor.

Definition _iter_polygons (geometry : Geometry) : list Polygon :=
  if is_empty geometry then []
  else
    match geometry with
    | GPolygon p => [p]
    | GMultiPolygon ps => filter (fun p => negb (polygon_is_empty p)) ps
    | GCollection gs =>
        flat_map
          (fun geom =>
             match geom with
             | GPolygon p => if polygon_is_empty p then [] else [p]
             | _ => []
             end)
          gs
    | _ => []
    end.

(** Induction over geometries, collections included. *)

Section GeometryInduction.

Variable P : Geometry -> Prop.
Hypothesis HPoint : forall c, P (GPoint c).
Hypothesis HLine : forall cs, P (GLineString cs).
Hypothesis HPolygon : forall p, P (GPolygon p).
Hypothesis HMulti : forall ps, P (GMultiPolygon ps).
Hypothesis HCollection : forall gs, Forall P gs -> P (GCollection gs).

Fixpoint Geometry_nested_ind (g : Geometry) : P g :=
  match g with
  | GPoint c => HPoint c
  | GLineString cs => HLine cs
  | GPolygon p => HPolygon p
  | GMultiPolygon ps => HMulti ps
  | GCollection gs =>
      HCollection
        ((fix members (l : list Geometry) : Forall P l :=
            match l with
            | [] => Forall_nil P
            | x :: rest =>
                Forall_cons x (Geometry_nested_ind x) (members rest)
            end) gs)
  end.

End GeometryInduction.

(** The one coordinate map of [_to_local_scaled]: translate by the
    origin, then multiply by the factor. *)
Definition local_coord (origin_x origin_y k : Q) (c : Coord) : Coord :=
  (k * (fst c + - origin_x), k * (snd c + - origin_y)).

(* ================================================================== *)
(** ** The collaborators' interfaces *)

(** Geometry Algebra: the shapely operations the mesher calls. *)
Class GeometryAlgebra : Type := {
  (** [a.intersection(b)] *)
  intersection : Geometry -> Geometry -> Geometry;
  (** [a.difference(b)] *)
  difference : Geometry -> Geometry -> Geometry;
  (** [unary_union(polygons)] *)
  unary_union : list Polygon -> Geometry;
  (** [g.buffer(distance)] *)
  buffer : Geometry -> Q -> Geometry;
  (** [g.buffer(distance, cap_style=c, join_style=j)] *)
  buffer_styled : Geometry -> Q -> nat -> nat -> Geometry;
  (** [Point(x, y).buffer(radius, resolution=n)] *)
  point_buffer : Coord -> Q -> nat -> Polygon;
  (** [g.contains(Point(x, y))] *)
  contains : Geometry -> Coord -> bool;
  (** [g.centroid.distance(Point(x, y))] *)
  centroid_distance : Geometry -> Coord -> Q;
  (** [g.area] *)
  area : Geometry -> Q
}.

(** Coordinate Projector: [project_point(lon, lat)] of
    [app/services/overpass.py], a call into pyproj. *)
Class CoordinateProjector : Type := {
  project_point : Q -> Q -> Coord
}.

(* ================================================================== *)
(** ** Features ([app/services/overpass.py]); the [tags] dictionaries are
    not read by the mesher and are left out. *)

Record BuildingFootprint : Type := {
  osm_id : Z;
  polygon_projected : Geometry;
  polygon_wgs84 : Geometry;
  height_m : Q;
  name : option string
}.

Record RoadFeature : Type := {
  road_osm_id : Z;
  line_projected : Geometry
}.

Record ParkFeature : Type := {
  park_osm_id : Z;
  park_polygon_projected : Geometry
}.

Record WaterFeature : Type := {
  water_osm_id : Z;
  water_polygon_projected : Geometry
}.

(** [BuildingSummary] of [app/models.py]. *)
Record BuildingSummary : Type := {
  summary_osm_id : Z;
  summary_height_m : Q;
  footprint_area_m2 : Q;
  summary_name : option string
}.

Record PreparedGeometries : Type := {
  base_circle : Polygon;
  water_union : Geometry;
  land_no_water : Geometry;
  park_union : Geometry;
  building_base : Geometry;
  road_union : Geometry;
  building_mesh_data : list (list Polygon * Q);
  building_summaries : list BuildingSummary;
  home_polygons : list Polygon;
  home_height : option Q
}.

Record SceneContext : Type := {
  settings : Settings;
  origin_x : Q;
  origin_y : Q;
  scale_factor : Q;
  print_radius : Q;
  prepared : PreparedGeometries
}.

(** [min(items, key=key)]: the first item whose key is minimal; [None]
    stands for the [ValueError] of an empty sequence. *)
Fixpoint min_by_from {A} (key : A -> Q) (best : A) (rest : list A) : A :=
  match rest with
  | [] => best
  | x :: rest' =>
      min_by_from key (if Qltb (key x) (key best) then x else best) rest'
  end.

Definition min_by {A} (key : A -> Q) (items : list A) : option A :=
  match items with
  | [] => None
  | x :: rest => Some (min_by_from key x rest)
  end.

Section Scene.

Context {GA : GeometryAlgebra} {CP : CoordinateProjector}.

Definition _union_geometries (geometries : list Polygon) : Geometry :=
  let valid := filter (fun geom => negb (polygon_is_empty geom)) geometries in
  match valid with
  | [] => GeometryCollection_empty
  | _ :: _ => unary_union valid
  end.

Definition _clip_to_circle (geometry circle : Geometry) : Geometry :=
  if is_empty geometry then GeometryCollection_empty
  else intersection geometry circle.

Definition _identify_home_building (buildings : list BuildingFootprint)
    (point : Coord) : option BuildingFootprint :=
  let containing :=
    filter (fun footprint => contains (polygon_wgs84 footprint) point)
           buildings in
  match containing with
  | first :: _ => Some first
  | [] =>
      let _distance footprint :=
        centroid_distance (polygon_wgs84 footprint) point in
      min_by _distance buildings
  end.

(** The local variables of the building loop of [_prepare_geometries]. *)
Record BuildingLoop : Type := {
  loop_mesh_data : list (list Polygon * Q);
  loop_polygons_all : list Polygon;
  loop_summaries : list BuildingSummary;
  loop_home_polygons : list Polygon;
  loop_home_height : option Q
}.

Definition building_loop_init : BuildingLoop := {|
  loop_mesh_data := [];
  loop_polygons_all := [];
  loop_summaries := [];
  loop_home_polygons := [];
  loop_home_height := None
|}.

(** The polygons one footprint contributes: clipped to the world circle,
    moved to local scaled space, empty parts dropped.  An empty clip gives
    no polygon. *)
Definition footprint_polygons (circle_world : Polygon)
    (origin_x origin_y scale_factor : Q) (footprint : BuildingFootprint)
    : list Polygon :=
  let clipped :=
    intersection (polygon_projected footprint) (GPolygon circle_world) in
  if is_empty clipped then []
  else
    let local := _to_local_scaled clipped origin_x origin_y scale_factor in
    filter (fun poly => negb (polygon_is_empty poly)) (_iter_polygons local).

Definition is_home (home_building : option BuildingFootprint)
    (footprint : BuildingFootprint) : bool :=
  match home_building with
  | None => false
  | Some home => Z.eqb (osm_id footprint) (osm_id home)
  end.

(** One iteration of [for footprint in buildings]. *)
Definition building_loop_body (circle_world : Polygon)
    (origin_x origin_y scale_factor : Q)
    (home_building : option BuildingFootprint)
    (st : BuildingLoop) (footprint : BuildingFootprint) : BuildingLoop :=
  let polygons :=
    footprint_polygons circle_world origin_x origin_y scale_factor footprint in
  match polygons with
  | [] => st
  | _ :: _ =>
      let scaled_height :=
        py_max (height_m footprint * scale_factor) (5 # 10000) in
      let summaries :=
        loop_summaries st ++
        [ {| summary_osm_id := osm_id footprint;
             summary_height_m := height_m footprint;
             footprint_area_m2 := area (polygon_projected footprint);
             summary_name := name footprint |} ] in
      if is_home home_building footprint then
        {| loop_mesh_data := loop_mesh_data st;
           loop_polygons_all := loop_polygons_all st ++ polygons;
           loop_summaries := summaries;
           loop_home_polygons := polygons;
           loop_home_height := Some scaled_height |}
      else
        {| loop_mesh_data := loop_mesh_data st ++ [(polygons, scaled_height)];
           loop_polygons_all := loop_polygons_all st ++ polygons;
           loop_summaries := summaries;
           loop_home_polygons := loop_home_polygons st;
           loop_home_height := loop_home_height st |}
  end.

Definition building_loop (circle_world : Polygon)
    (origin_x origin_y scale_factor : Q)
    (home_building : option BuildingFootprint)
    (buildings : list BuildingFootprint) : BuildingLoop :=
  fold_left
    (building_loop_body circle_world origin_x origin_y scale_factor
       home_building)
    buildings building_loop_init.

(** The park polygons: moved to local scaled space, then shrunk by
    [park_shrink] when that margin is positive. *)
Definition park_polygons_of (s : Settings) (origin_x origin_y scale_factor : Q)
    (parks : list ParkFeature) : list Polygon :=
  let park_shrink := py_max (park_indent_shrink_m s * scale_factor) 0 in
  flat_map
    (fun feature =>
       let local :=
         _to_local_scaled (park_polygon_projected feature)
           origin_x origin_y scale_factor in
       flat_map
         (fun polygon =>
            if Qltb 0 park_shrink then
              let shrunken := buffer (GPolygon polygon) (- park_shrink) in
              _iter_polygons shrunken
            else [polygon])
         (_iter_polygons local))
    parks.

Definition water_polygons_of (origin_x origin_y scale_factor : Q)
    (waters : list WaterFeature) : list Polygon :=
  flat_map
    (fun feature =>
       _iter_polygons
         (_to_local_scaled (water_polygon_projected feature)
            origin_x origin_y scale_factor))
    waters.

Definition road_buffers_of (s : Settings) (origin_x origin_y scale_factor : Q)
    (roads : list RoadFeature) : list Polygon :=
  let road_width := py_max (road_indent_width_m s * scale_factor) (1 # 1000) in
  flat_map
    (fun road =>
       let local_line :=
         _to_local_scaled (line_projected road)
           origin_x origin_y scale_factor in
       let buffered := buffer_styled local_line road_width 2 2 in
       if negb (is_empty buffered) then _iter_polygons buffered else [])
    roads.

Definition _prepare_geometries
    (buildings : list BuildingFootprint) (roads : list RoadFeature)
    (parks : list ParkFeature) (waters : list WaterFeature)
    (circle_world base_circle : Polygon)
    (origin_x origin_y scale_factor : Q)
    (home_building : option BuildingFootprint)
    (s : Settings) : Result PreparedGeometries :=
  let st :=
    building_loop circle_world origin_x origin_y scale_factor
      home_building buildings in
  let building_polygons_all := loop_polygons_all st in
  let home_polygons := loop_home_polygons st in
  if negb (truthy_list building_polygons_all)
     && negb (truthy_list home_polygons) then
    Raise (BuildError "Unable to construct scaled footprints for this area.")
  else
    let park_polygons :=
      park_polygons_of s origin_x origin_y scale_factor parks in
    let water_polygons :=
      water_polygons_of origin_x origin_y scale_factor waters in
    let road_buffers :=
      road_buffers_of s origin_x origin_y scale_factor roads in
    let building_union :=
      _clip_to_circle
        (_union_geometries (building_polygons_all ++ home_polygons))
        (GPolygon base_circle) in
    let water_union :=
      _clip_to_circle (_union_geometries water_polygons)
        (GPolygon base_circle) in
    let land_no_water := GPolygon base_circle in
    let land_no_water :=
      if negb (is_empty water_union)
      then difference (GPolygon base_circle) water_union
      else land_no_water in
    let land_no_water :=
      if is_empty land_no_water then GPolygon base_circle
      else land_no_water in
    let parks_union :=
      _clip_to_circle (_union_geometries park_polygons) land_no_water in
    let road_union :=
      _clip_to_circle (_union_geometries road_buffers)
        (GPolygon base_circle) in
    let building_base := land_no_water in
    let building_base :=
      if negb (is_empty parks_union)
      then difference building_base parks_union
      else building_base in
    let building_base :=
      if is_empty building_base then land_no_water else building_base in
    Ok {| base_circle := base_circle;
          water_union := water_union;
          land_no_water := land_no_water;
          park_union := parks_union;
          building_base := building_base;
          road_union := road_union;
          building_mesh_data := loop_mesh_data st;
          building_summaries := loop_summaries st;
          home_polygons := home_polygons;
          home_height := loop_home_height st |}.

(** The two fallback steps of [_prepare_geometries], by name. *)
Definition land_of (base_circle : Polygon) (water_union : Geometry)
    : Geometry :=
  let land :=
    if negb (is_empty water_union)
    then difference (GPolygon base_circle) water_union
    else GPolygon base_circle in
  if is_empty land then GPolygon base_circle else land.

Definition building_base_of (land parks_union : Geometry) : Geometry :=
  let base :=
    if negb (is_empty parks_union) then difference land parks_union
    else land in
  if is_empty base then land else base.

(** [print_radius] and [scale_factor] as [_build_scene_context] computes
    them. *)
Definition print_radius_of (s : Settings) : Q :=
  py_max (target_print_diameter_m s / 2) (1 # 1000).

Definition base_radius_world_of (s : Settings) (request : ModelRequest) : Q :=
  inject_Z (radius_meters request) + base_padding_m s.

Definition scale_factor_of (s : Settings) (request : ModelRequest) : Q :=
  let base_radius_world := base_radius_world_of s request in
  let print_radius := print_radius_of s in
  if Qltb 0 base_radius_world then print_radius / base_radius_world else 1.

Definition _build_scene_context (s : Settings) (request : ModelRequest)
    (buildings : list BuildingFootprint) (roads : list RoadFeature)
    (parks : list ParkFeature) (waters : list WaterFeature)
    : Result SceneContext :=
  let '(origin_x, origin_y) :=
    project_point (longitude request) (latitude request) in
  let print_radius := print_radius_of s in
  let scale_factor := scale_factor_of s request in
  let circle_world :=
    point_buffer (origin_x, origin_y) (inject_Z (radius_meters request)) 96 in
  let base_circle := point_buffer (0, 0) print_radius 128 in
  let home_point := (longitude request, latitude request) in
  let home_building := _identify_home_building buildings home_point in
  do prepared <-
    _prepare_geometries buildings roads parks waters circle_world base_circle
      origin_x origin_y scale_factor home_building s;
  Ok {| settings := s;
        origin_x := origin_x;
        origin_y := origin_y;
        scale_factor := scale_factor;
        print_radius := print_radius;
        prepared := prepared |}.

End Scene.

(* ================================================================== *)
(** ** Meshes (trimesh)

    A mesh is kept as the list of extrusions it was put together from:
    the footprint, the extrusion height and the vertical translation
    applied so far. *)

Record Solid : Type := {
  footprint : Polygon;
  solid_height : Q;
  z_offset : Q
}.

Definition Trimesh : Type := list Solid.

(** Mesh Kernel: what the mesher asks of an extruded solid. *)
Class MeshKernel : Type := {
  (** the number of vertices of
      [trimesh.creation.extrude_polygon(polygon, height)] *)
  extruded_vertices : Polygon -> Q -> nat
}.

(** [trimesh.creation.extrude_polygon(polygon, height, ...)] *)
Definition _extrude_polygon (polygon : Polygon) (height : Q) : Trimesh :=
  [ {| footprint := polygon; solid_height := height; z_offset := 0 |} ].

(** [mesh.apply_translation((0, 0, dz))] *)
Definition apply_translation_z (mesh : Trimesh) (dz : Q) : Trimesh :=
  map (fun sd => {| footprint := footprint sd;
                    solid_height := solid_height sd;
                    z_offset := z_offset sd + dz |}) mesh.

(** [trimesh.util.concatenate(meshes)] *)
Definition concatenate (meshes : list Trimesh) : Trimesh := List.concat meshes.

Record LayerInfo : Type := {
  info_name : string;
  info_thickness_m : Q;
  info_description : string
}.

Record PolygonPath : Type := {
  outer : list Coord;
  holes : list (list Coord)
}.

Record LayerPreview : Type := {
  preview_name : string;
  preview_thickness_m : Q;
  base_color : string;
  feature_color : string;
  overlay_color : option string;
  preview_description : string;
  base_paths : list PolygonPath;
  feature_paths : list PolygonPath;
  overlay_paths : list PolygonPath
}.

Record ModelMetadata : Type := {
  building_count : nat;
  meta_radius_meters : Z;
  highlighted : bool;
  meta_formats : list string;
  origin : Coord;
  scale_ratio : Q;
  layers : list LayerInfo;
  buildings_meta : list BuildingSummary
}.

(** What [archive.writestr] stores: an exported mesh, named by the mesh
    and the file type handed to [_export_mesh], or the metadata document. *)
Inductive Payload : Type :=
| MeshPayload (mesh : Trimesh) (filetype : string)
| MetadataPayload (metadata : ModelMetadata).

Definition Archive : Type := list (string * Payload).

(** Decimal rendering of [int(...)] inside an f-string. *)
Definition str_of_int (z : Z) : string :=
  DecimalString.NilZero.string_of_int (Z.to_int z).

Definition water_description : string :=
  "Water/base disk (thickness x) with water bodies extruded 2x to reach street level.".
Definition green_description : string :=
  "Land disk (thickness x) with holes for water extrusions plus parks raised another x.".
Definition building_description : string :=
  "Street disk (thickness x) with cavities for water/green extrusions and buildings rising above.".
Definition highlight_description : string :=
  "Removable home building with a base that keys into the cavity on the buildings layer.".

Definition _normalize_point (x y radius : Q) : Coord :=
  if Qeq_bool radius 0 then (0, 0)
  else
    let nx := (x + radius) / (2 * radius) in
    let ny := 1 - ((y + radius) / (2 * radius)) in
    (nx, ny).

Definition _geometry_to_paths (geometry : Geometry) (radius : Q)
    : list PolygonPath :=
  if is_empty geometry then []
  else
    map
      (fun polygon =>
         {| outer :=
              map (fun c => _normalize_point (fst c) (snd c) radius)
                  (exterior polygon);
            holes :=
              map (fun interior =>
                     map (fun c => _normalize_point (fst c) (snd c) radius)
                         interior)
                  (interiors polygon) |})
      (_iter_polygons geometry).

Definition _build_layer_info (s : Settings) (include_highlight : bool)
    : list LayerInfo :=
  let infos :=
    [ {| info_name := "water_layer";
         info_thickness_m := base_thickness_m s;
         info_description := water_description |};
      {| info_name := "green_layer";
         info_thickness_m := green_layer_thickness_m s;
         info_description := green_description |};
      {| info_name := "building_layer";
         info_thickness_m := building_layer_thickness_m s;
         info_description := building_description |} ] in
  if include_highlight then
    infos ++
    [ {| info_name := "highlight_layer";
         info_thickness_m := building_layer_thickness_m s;
         info_description := highlight_description |} ]
  else infos.

(** The entry [build_model_archive] adds for the highlight layer. *)
Definition highlight_entry (highlight_mesh : option Trimesh)
    : list (string * Trimesh) :=
  match highlight_mesh with
  | Some m => [("highlight_layer"%string, m)]
  | None => []
  end.

(** *** Where preview coordinates lie *)

(** [v] lies in the square of half-side [r] around [c]. *)
Definition coord_within (c : Coord) (r : Q) (v : Coord) : Prop :=
  fst c - r <= fst v /\ fst v <= fst c + r
  /\ snd c - r <= snd v /\ snd v <= snd c + r.

Definition polygon_within (c : Coord) (r : Q) (p : Polygon) : Prop :=
  forall ring, In ring (rings p) -> forall v, In v ring -> coord_within c r v.

(** Every polygon a geometry is made of, at any depth. *)
Fixpoint all_polygons (g : Geometry) : list Polygon :=
  match g with
  | GPolygon p => [p]
  | GMultiPolygon ps => ps
  | GCollection gs => flat_map all_polygons gs
  | _ => []
  end.

Definition geometry_within (c : Coord) (r : Q) (g : Geometry) : Prop :=
  forall p, In p (all_polygons g) -> polygon_within c r p.

Definition in_unit_square (v : Coord) : Prop :=
  0 <= fst v /\ fst v <= 1 /\ 0 <= snd v /\ snd v <= 1.

Definition path_in_unit_square (path : PolygonPath) : Prop :=
  (forall v, In v (outer path) -> in_unit_square v)
  /\ (forall hole, In hole (holes path) ->
        forall v, In v hole -> in_unit_square v).

Definition preview_in_unit_square (preview : LayerPreview) : Prop :=
  forall path,
    In path (base_paths preview ++ feature_paths preview
             ++ overlay_paths preview) ->
    path_in_unit_square path.

Section Layers.

Context {GA : GeometryAlgebra} {CP : CoordinateProjector} {MK : MeshKernel}.

(** [len(mesh.vertices)] *)
Definition len_vertices (mesh : Trimesh) : nat :=
  list_sum (map (fun sd => extruded_vertices (footprint sd) (solid_height sd))
                mesh).

Definition _combine_meshes (meshes : list Trimesh) : Result Trimesh :=
  let filtered := filter (fun mesh => negb (Nat.eqb (len_vertices mesh) 0))
                         meshes in
  match filtered with
  | [] => Raise (BuildError "Layer mesh could not be constructed.")
  | [mesh] => Ok mesh
  | _ => Ok (concatenate filtered)
  end.

Definition _build_water_layer (base_circle : Polygon) (water_union : Geometry)
    (s : Settings) : Result Trimesh :=
  let base_height := base_thickness_m s in
  let meshes := [ _extrude_polygon base_circle base_height ] in
  let meshes :=
    if negb (is_empty water_union) then
      let water_height := base_thickness_m s * 2 in
      meshes ++
      map (fun polygon =>
             apply_translation_z (_extrude_polygon polygon water_height)
               base_height)
          (_iter_polygons water_union)
    else meshes in
  _combine_meshes meshes.

Definition _build_green_layer (land_geom park_union : Geometry)
    (s : Settings) : Result Trimesh :=
  let base_height := green_layer_thickness_m s in
  if is_empty land_geom then
    Raise (BuildError "No geometry available for the green layer.")
  else
    let meshes :=
      map (fun polygon => _extrude_polygon polygon base_height)
          (_iter_polygons land_geom) in
    let meshes :=
      if negb (is_empty park_union) then
        meshes ++
        map (fun polygon =>
               apply_translation_z
                 (_extrude_polygon polygon (green_layer_thickness_m s))
                 base_height)
            (_iter_polygons park_union)
      else meshes in
    _combine_meshes meshes.

(** The locals [road_indent], [base_height] and [slab_height] of
    [_build_building_layer]. *)
Definition road_indent_of (s : Settings) : Q :=
  py_min (road_groove_depth_m s) (building_layer_thickness_m s * (8 # 10)).

Definition base_height_of (s : Settings) : Q := building_layer_thickness_m s.

Definition slab_height_of (s : Settings) : Q :=
  py_max (base_height_of s - road_indent_of s) (5 # 10000).

(** The base region the slab is cut from: the home polygons are taken out
    when the list handed in is not empty. *)
Definition building_base_geom (building_base : Geometry)
    (home_polygons : list Polygon) : Geometry :=
  if truthy_list home_polygons
  then difference building_base (_union_geometries home_polygons)
  else building_base.

(** First loop: the slab. *)
Definition slab_meshes (base_geom : Geometry) (s : Settings) : list Trimesh :=
  map (fun polygon => _extrude_polygon polygon (slab_height_of s))
      (_iter_polygons base_geom).

(** Second loop: the top of the slab with the roads left out. *)
Definition groove_meshes (base_geom road_union : Geometry) (s : Settings)
    : list Trimesh :=
  let road_indent := road_indent_of s in
  if Qltb 0 road_indent then
    let top_geom := base_geom in
    let top_geom :=
      if negb (is_empty road_union) then difference top_geom road_union
      else top_geom in
    map (fun polygon =>
           apply_translation_z (_extrude_polygon polygon road_indent)
             (slab_height_of s))
        (_iter_polygons top_geom)
  else [].

(** Third loop: the buildings. *)
Definition building_meshes (building_mesh_data : list (list Polygon * Q))
    (s : Settings) : list Trimesh :=
  flat_map
    (fun entry =>
       let '(polygons, height) := entry in
       flat_map
         (fun polygon =>
            if polygon_is_empty polygon
               || Qeq_bool (area (GPolygon polygon)) 0
            then []
            else [ apply_translation_z (_extrude_polygon polygon height)
                     (base_height_of s) ])
         polygons)
    building_mesh_data.

Definition _build_building_layer (building_base road_union : Geometry)
    (building_mesh_data : list (list Polygon * Q))
    (home_polygons : list Polygon) (s : Settings) : Result Trimesh :=
  if is_empty building_base then
    Raise (BuildError "No geometry available for the building layer.")
  else
    let base_geom := building_base_geom building_base home_polygons in
    _combine_meshes
      (slab_meshes base_geom s ++
       groove_meshes base_geom road_union s ++
       building_meshes building_mesh_data s).

Definition _build_highlight_layer (polygons : list Polygon)
    (building_height : Q) (s : Settings) : Result Trimesh :=
  if negb (truthy_list polygons) then
    Raise (BuildError "Highlight geometry is missing.")
  else
    let peg_depth :=
      py_min (highlight_peg_depth_m s) (building_layer_thickness_m s) in
    _combine_meshes
      (flat_map
         (fun polygon =>
            if polygon_is_empty polygon then []
            else
              (if Qltb 0 peg_depth
               then [ _extrude_polygon polygon peg_depth ] else []) ++
              [ apply_translation_z
                  (_extrude_polygon polygon building_height) peg_depth ])
         polygons).

(** The home polygons [build_model_archive] hands to
    [_build_building_layer]. *)
Definition home_polygons_for_building_layer (request : ModelRequest)
    (prep : PreparedGeometries) : list Polygon :=
  if highlight_home request && truthy_list (home_polygons prep)
  then home_polygons prep else [].

(** The guard of the highlight layer in [build_model_archive]. *)
Definition highlight_wanted (s : Settings) (request : ModelRequest)
    (prep : PreparedGeometries) : bool :=
  highlight_home request && highlight_enabled s
  && truthy_list (home_polygons prep) && truthy_float (home_height prep).

Definition archive_entries (request_formats : list string)
    (layer_meshes : list (string * Trimesh)) : Archive :=
  flat_map
    (fun fmt =>
       map (fun entry =>
              let '(layer_name, mesh) := entry in
              (("layers/" ++ layer_name ++ "." ++ fmt)%string,
               MeshPayload mesh fmt))
           layer_meshes)
    request_formats.

Record ArchiveResult : Type := {
  filename : string;
  layer_meshes_of : list (string * Trimesh);
  archive : Archive;
  metadata : ModelMetadata
}.

Definition build_model_archive (s : Settings) (request : ModelRequest)
    (buildings : list BuildingFootprint) (roads : list RoadFeature)
    (parks : list ParkFeature) (waters : list WaterFeature)
    : Result ArchiveResult :=
  if negb (truthy_list buildings) then
    Raise (BuildError "No buildings were found for the requested area.")
  else
    do context <- _build_scene_context s request buildings roads parks waters;
    let s := settings context in
    let prep := prepared context in
    do water_mesh <-
      _build_water_layer (base_circle prep) (water_union prep) s;
    let layer_meshes := [("water_layer"%string, water_mesh)] in
    do green_mesh <-
      _build_green_layer (land_no_water prep) (park_union prep) s;
    let layer_meshes := layer_meshes ++ [("green_layer"%string, green_mesh)] in
    do building_mesh <-
      _build_building_layer (building_base prep) (road_union prep)
        (building_mesh_data prep)
        (home_polygons_for_building_layer request prep) s;
    let layer_meshes :=
      layer_meshes ++ [("building_layer"%string, building_mesh)] in
    do highlight_mesh <-
      (if highlight_wanted s request prep then
         match home_height prep with
         | Some building_height =>
             do m <- _build_highlight_layer (home_polygons prep)
                       building_height s;
             Ok (Some m)
         | None => Ok None
         end
       else Ok None);
    let layer_meshes :=
      match highlight_mesh with
      | Some m => layer_meshes ++ [("highlight_layer"%string, m)]
      | None => layer_meshes
      end in
    let has_highlight :=
      match highlight_mesh with Some _ => true | None => false end in
    let layer_infos := _build_layer_info s has_highlight in
    let metadata :=
      {| building_count := List.length (building_summaries prep);
         meta_radius_meters := radius_meters request;
         highlighted := has_highlight;
         meta_formats := formats request;
         origin := (origin_x context, origin_y context);
         scale_ratio := scale_factor context;
         layers := layer_infos;
         buildings_meta := building_summaries prep |} in
    Ok {| filename :=
            ("print3dhood_" ++ str_of_int (radius_meters request)
               ++ "m_layers.zip")%string;
          layer_meshes_of := layer_meshes;
          archive :=
            archive_entries (formats request) layer_meshes ++
            [("metadata.json"%string, MetadataPayload metadata)];
          metadata := metadata |}.

Definition _create_layer_previews (prep : PreparedGeometries)
    (print_radius : Q) (s : Settings) : list LayerPreview :=
  let previews :=
    [ {| preview_name := "water_layer";
         preview_thickness_m := base_thickness_m s;
         base_color := "#bfdbfe";
         feature_color := "#1d4ed8";
         overlay_color := None;
         preview_description := water_description;
         base_paths :=
           _geometry_to_paths (GPolygon (base_circle prep)) print_radius;
         feature_paths := _geometry_to_paths (water_union prep) print_radius;
         overlay_paths := [] |};
      {| preview_name := "green_layer";
         preview_thickness_m := green_layer_thickness_m s;
         base_color := "#dcfce7";
         feature_color := "#16a34a";
         overlay_color := None;
         preview_description := green_description;
         base_paths := _geometry_to_paths (land_no_water prep) print_radius;
         feature_paths := _geometry_to_paths (park_union prep) print_radius;
         overlay_paths := [] |} ] in
  let building_polys :=
    flat_map (fun entry => fst entry) (building_mesh_data prep) in
  let previews :=
    previews ++
    [ {| preview_name := "building_layer";
         preview_thickness_m := building_layer_thickness_m s;
         base_color := "#e5e7eb";
         feature_color := "#111827";
         overlay_color := Some "#d1d5db"%string;
         preview_description := building_description;
         base_paths := _geometry_to_paths (building_base prep) print_radius;
         feature_paths :=
           _geometry_to_paths (_union_geometries building_polys) print_radius;
         overlay_paths := _geometry_to_paths (road_union prep) print_radius |} ]
  in
  if truthy_list (home_polygons prep) then
    previews ++
    [ {| preview_name := "highlight_layer";
         preview_thickness_m := building_layer_thickness_m s;
         base_color := "#fed7aa";
         feature_color := "#f97316";
         overlay_color := None;
         preview_description := highlight_description;
         base_paths :=
           _geometry_to_paths (_union_geometries (home_polygons prep))
             print_radius;
         feature_paths := [];
         overlay_paths := [] |} ]
  else previews.

Definition generate_preview_data (s : Settings) (request : ModelRequest)
    (buildings : list BuildingFootprint) (roads : list RoadFeature)
    (parks : list ParkFeature) (waters : list WaterFeature)
    : Result (ModelMetadata * list LayerPreview) :=
  if negb (truthy_list buildings) then
    Raise (BuildError "No buildings were found for the requested area.")
  else
    do context <- _build_scene_context s request buildings roads parks waters;
    let prep := prepared context in
    let s := settings context in
    let has_home := truthy_list (home_polygons prep) in
    let layer_infos := _build_layer_info s has_home in
    let metadata :=
      {| building_count := List.length (building_summaries prep);
         meta_radius_meters := radius_meters request;
         highlighted := has_home;
         meta_formats := ["stl"%string];
         origin := (origin_x context, origin_y context);
         scale_ratio := scale_factor context;
         layers := layer_infos;
         buildings_meta := building_summaries prep |} in
    let previews := _create_layer_previews prep (print_radius context) s in
    Ok (metadata, previews).

End Layers.

(* ================================================================== *)
(** ** A reference reading of the interfaces

    A small executable instance of the three interfaces, used to run the
    pipeline on concrete scenes and to show that the laws assumed of the
    collaborators can be met together.  It reads every polygon through
    its bounding box: an intersection keeps the parts of its first
    operand whose box lies within the box of a part of the second, a
    difference removes those parts and leaves the others whole, a union
    puts the parts side by side, a buffer grows or shrinks the box.  It
    is coarse, not a geometry engine: it agrees with one on a shape that
    lies wholly inside the shape it is clipped to, and on the union of a
    single polygon, which is all the scenes below ask of it where a
    coordinate is read off. *)

Module Reference.

Definition polygon_coords (p : Polygon) : list Coord := List.concat (rings p).

(** [v] lies between two coordinates of [cs] on each axis. *)
Definition spans (cs : list Coord) (v : Coord) : bool :=
  existsb (fun a => Qle_bool (fst a) (fst v)) cs
  && existsb (fun a => Qle_bool (fst v) (fst a)) cs
  && existsb (fun a => Qle_bool (snd a) (snd v)) cs
  && existsb (fun a => Qle_bool (snd v) (snd a)) cs.

Definition strictly_spans (cs : list Coord) (v : Coord) : bool :=
  existsb (fun a => Qltb (fst a) (fst v)) cs
  && existsb (fun a => Qltb (fst v) (fst a)) cs
  && existsb (fun a => Qltb (snd a) (snd v)) cs
  && existsb (fun a => Qltb (snd v) (snd a)) cs.

Definition inside (p q : Polygon) : bool :=
  forallb (spans (polygon_coords q)) (polygon_coords p).

Definition shape (ps : list Polygon) : Geometry :=
  match filter (fun p => negb (polygon_is_empty p)) ps with
  | [] => GCollection []
  | [p] => GPolygon p
  | ps' => GMultiPolygon ps'
  end.

Definition box_intersection (a b : Geometry) : Geometry :=
  shape (filter (fun p => existsb (inside p) (_iter_polygons b))
                (_iter_polygons a)).

Definition box_difference (a b : Geometry) : Geometry :=
  if is_empty b then a
  else shape (filter (fun p => negb (existsb (inside p) (_iter_polygons b)))
                     (_iter_polygons a)).

Definition box_unary_union (ps : list Polygon) : Geometry := shape ps.

(** [(xmin, ymin, xmax, ymax)] of a coordinate list. *)
Definition extent (cs : list Coord) : option (Q * Q * Q * Q) :=
  match cs with
  | [] => None
  | c :: rest =>
      Some
        (fold_left
           (fun e v =>
              let '(x0, y0, x1, y1) := e in
              (py_min x0 (fst v), py_min y0 (snd v),
               py_max x1 (fst v), py_max y1 (snd v)))
           rest (fst c, snd c, fst c, snd c))
  end.

Definition rectangle (x0 y0 x1 y1 : Q) : Polygon :=
  {| exterior := [(x0, y0); (x1, y0); (x1, y1); (x0, y1); (x0, y0)];
     interiors := [] |}.

Definition grow (d : Q) (cs : list Coord) : list Polygon :=
  match extent cs with
  | None => []
  | Some (x0, y0, x1, y1) =>
      if Qltb (x0 - d) (x1 + d) && Qltb (y0 - d) (y1 + d)
      then [rectangle (x0 - d) (y0 - d) (x1 + d) (y1 + d)]
      else []
  end.

Definition parts (g : Geometry) : list (list Coord) :=
  match g with
  | GPoint c => [[c]]
  | GLineString cs => [cs]
  | _ => map polygon_coords (_iter_polygons g)
  end.

Definition box_buffer (g : Geometry) (d : Q) : Geometry :=
  shape (flat_map (grow d) (parts g)).

Definition box_point_buffer (c : Coord) (r : Q) (resolution : nat) : Polygon :=
  if Qltb 0 r then
    {| exterior := [(fst c + r, snd c); (fst c, snd c - r);
                    (fst c - r, snd c); (fst c, snd c + r);
                    (fst c + r, snd c)];
       interiors := [] |}
  else {| exterior := []; interiors := [] |}.

Definition box_contains (g : Geometry) (pt : Coord) : bool :=
  existsb (fun p => strictly_spans (polygon_coords p) pt) (_iter_polygons g).

Definition box_centroid_distance (g : Geometry) (pt : Coord) : Q :=
  match extent (flat_map polygon_coords (_iter_polygons g)) with
  | None => 0
  | Some (x0, y0, x1, y1) =>
      Qabs ((x0 + x1) / 2 - fst pt) + Qabs ((y0 + y1) / 2 - snd pt)
  end.

Definition box_area (g : Geometry) : Q :=
  fold_right Qplus 0
    (map (fun p =>
            match extent (polygon_coords p) with
            | None => 0
            | Some (x0, y0, x1, y1) => (x1 - x0) * (y1 - y0)
            end)
         (_iter_polygons g)).

Definition geometry : GeometryAlgebra := {|
  intersection := box_intersection;
  difference := box_difference;
  unary_union := box_unary_union;
  buffer := box_buffer;
  buffer_styled := fun g d _ _ => box_buffer g d;
  point_buffer := box_point_buffer;
  contains := box_contains;
  centroid_distance := box_centroid_distance;
  area := box_area
|}.

(** Longitude and latitude in degrees to metres, both axes linear. *)
Definition projector : CoordinateProjector := {|
  project_point := fun lon lat => (111320 * lon, 111320 * lat)
|}.

(** Two vertices per ring coordinate; a flat extrusion has none. *)
Definition kernel : MeshKernel := {|
  extruded_vertices := fun p h =>
    if Qeq_bool h 0 then 0%nat
    else (2 * List.length (polygon_coords p))%nat
|}.

(** The point set of a geometry: the boxes of its polygons. *)
Definition box_covers (g : Geometry) (v : Coord) : Prop :=
  exists p, In p (_iter_polygons g) /\ spans (polygon_coords p) v = true.

(** *** Scenes *)

Definition square (x0 y0 x1 y1 : Q) : Geometry :=
  GPolygon (rectangle x0 y0 x1 y1).

Definition request_100 : ModelRequest := {|
  latitude := 0;
  longitude := 0;
  radius_meters := 100;
  highlight_home := true;
  formats := ["stl"%string]
|}.

(** A house at the query point and a neighbour to the east. *)
Definition house : BuildingFootprint := {|
  osm_id := 1;
  polygon_projected := square (-5) (-5) 5 5;
  polygon_wgs84 :=
    square (-5 # 100000) (-5 # 100000) (5 # 100000) (5 # 100000);
  height_m := 9;
  name := Some "house"%string
|}.

Definition neighbour : BuildingFootprint := {|
  osm_id := 2;
  polygon_projected := square 20 (-4) 30 4;
  polygon_wgs84 :=
    square (20 # 100000) (-4 # 100000) (30 # 100000) (4 # 100000);
  height_m := 6;
  name := None
|}.

(** A building far outside any 100 m circle. *)
Definition far_away : BuildingFootprint := {|
  osm_id := 3;
  polygon_projected := square 500 500 510 510;
  polygon_wgs84 :=
    square (500 # 100000) (500 # 100000) (510 # 100000) (510 # 100000);
  height_m := 6;
  name := None
|}.

(** A building inside the 100 m circle and close to its rim. *)
Definition rim_building : BuildingFootprint := {|
  osm_id := 4;
  polygon_projected := square 98 (-1 # 2) 99 (1 # 2);
  polygon_wgs84 :=
    square (98 # 100000) (-1 # 200000) (99 # 100000) (1 # 200000);
  height_m := 6;
  name := None
|}.

Definition pond : WaterFeature := {|
  water_osm_id := 10;
  water_polygon_projected := square (-40) 20 (-20) 40
|}.

Definition lawn : ParkFeature := {|
  park_osm_id := 20;
  park_polygon_projected := square 10 20 40 50
|}.

(** A strip of grass one metre wide: narrower than twice the shrink
    margin of the default settings. *)
Definition verge : ParkFeature := {|
  park_osm_id := 21;
  park_polygon_projected := square (-30) (-30) (-29) (-10)
|}.

Definition street : RoadFeature := {|
  road_osm_id := 30;
  line_projected := GLineString [(-50, -15); (50, -15)]
|}.

(** A wide hall whose box reaches over the query point while its centroid
    lies far to the east; the house next to it has the nearer centroid
    and does not contain the point. *)
Definition wide_hall : BuildingFootprint := {|
  osm_id := 5;
  polygon_projected := square (-1) (-1) 99 1;
  polygon_wgs84 :=
    square (-1 # 100000) (-1 # 100000) (99 # 100000) (1 # 100000);
  height_m := 12;
  name := None
|}.

Definition side_house : BuildingFootprint := {|
  osm_id := 6;
  polygon_projected := square 2 2 4 4;
  polygon_wgs84 :=
    square (2 # 100000) (2 # 100000) (4 # 100000) (4 # 100000);
  height_m := 6;
  name := None
|}.

End Reference.

(* ================================================================== *)
(** ** Request validation ([app/models.py]) *)

(** What [validate_formats] can end in besides a list: the two
    [ValueError]s it raises, and the [IndexError] of
    [settings.allowed_formats[0]] on an empty tuple. *)
Inductive FormatError : Type :=
| UnsupportedFormat (fmt : string)
| TooManyFormats
| NoAllowedFormat.

Inductive Validated (A : Type) : Type :=
| Valid (a : A)
| Invalid (e : FormatError).
Arguments Valid {A} a.
Arguments Invalid {A} e.

(** [x in l] on strings. *)
Definition str_in (x : string) (l : list string) : bool :=
  existsb (String.eqb x) l.

Section ValidateFormats.

(** [str.lower] *)
Variable lower : string -> string.
(** [settings.allowed_formats] and [settings.max_formats] *)
Variable allowed_formats : list string.
Variable max_formats : Z.

(** The loop [for fmt in value], [normalized] being its accumulator. *)
Fixpoint normalize_formats (value normalized : list string)
    : Validated (list string) :=
  match value with
  | [] => Valid normalized
  | fmt :: rest =>
      let fmt_lower := lower fmt in
      if negb (str_in fmt_lower allowed_formats) then
        Invalid (UnsupportedFormat fmt)
      else
        normalize_formats rest
          (if negb (str_in fmt_lower normalized)
           then normalized ++ [fmt_lower] else normalized)
  end.

Definition validate_formats (value : list string) : Validated (list string) :=
  match normalize_formats value [] with
  | Invalid e => Invalid e
  | Valid normalized =>
      let defaulted :=
        if negb (truthy_list normalized) then
          match allowed_formats with
          | [] => Invalid NoAllowedFormat
          | first :: _ => Valid (normalized ++ [first])
          end
        else Valid normalized in
      match defaulted with
      | Invalid e => Invalid e
      | Valid normalized =>
          if (Z.of_nat (List.length normalized) >? max_formats)%Z
          then Invalid TooManyFormats
          else Valid normalized
      end
  end.

End ValidateFormats.

(* ================================================================== *)
(** ** Tag parsing and building heights ([app/services/overpass.py]) *)

(** A tag value as JSON gives it. *)
Inductive TagValue : Type :=
| TagBool (b : bool)
| TagInt (z : Z)
| TagFloat (q : Q)
| TagStr (s : string).

(** [tags.get(key)] on a dictionary kept as its list of items. *)
Fixpoint dict_get (tags : list (string * TagValue)) (key : string)
    : option TagValue :=
  match tags with
  | [] => None
  | (k, v) :: rest => if String.eqb k key then Some v else dict_get rest key
  end.

(** [[0-9]] *)
Definition is_digit (c : ascii) : bool :=
  (48 <=? nat_of_ascii c)%nat && (nat_of_ascii c <=? 57)%nat.

Definition digit_value (c : ascii) : N := N.of_nat (nat_of_ascii c - 48).

(** The longest run of digits a string starts with, and what follows. *)
Fixpoint take_digits (s : string) : string * string :=
  match s with
  | EmptyString => (EmptyString, EmptyString)
  | String c rest =>
      if is_digit c then
        let '(ds, tail) := take_digits rest in (String c ds, tail)
      else (EmptyString, s)
  end.

(** The value of a string of digits, as [float] reads it. *)
Fixpoint decimal_value_from (acc : N) (ds : string) : N :=
  match ds with
  | EmptyString => acc
  | String c rest => decimal_value_from (acc * 10 + digit_value c) rest
  end.

Definition decimal_value (ds : string) : N := decimal_value_from 0 ds.

(** [re.search] for [[0-9]+]: the first run of digits and what follows. *)
Fixpoint first_digit_run (s : string) : option (string * string) :=
  match s with
  | EmptyString => None
  | String c rest =>
      if is_digit c then Some (take_digits s) else first_digit_run rest
  end.

(** Whether the optional group of the pattern matches what follows the
    digits.  The pattern is written [r"([0-9]+(?:\\.[0-9]+)?)"]: in a raw
    string the two backslashes stay two characters, so the group asks for
    a backslash, then any character but a newline, then a digit. *)
Definition escaped_group_matches (tail : string) : bool :=
  match tail with
  | String b (String c (String d _)) =>
      Ascii.eqb b "\"%char && negb (Ascii.eqb c "010"%char) && is_digit d
  | _ => false
  end.

Definition _parse_float (value : option TagValue) : option Q :=
  match value with
  | None => None
  | Some (TagBool b) => Some (if b then 1 else 0)
  | Some (TagInt z) => Some (inject_Z z)
  | Some (TagFloat q) => Some q
  | Some (TagStr s) =>
      match first_digit_run s with
      | None => None
      | Some (ds, tail) =>
          (* a match that takes the group holds a backslash, which
             [float] refuses with a [ValueError] *)
          if escaped_group_matches tail then None
          else Some (inject_Z (Z.of_N (decimal_value ds)))
      end
  end.

(** The height fields of [Settings]. *)
Record HeightSettings : Type := {
  default_height_m : Q;
  level_height_m : Q;
  min_height_m : Q
}.

Definition default_height_settings : HeightSettings := {|
  default_height_m := 10;
  level_height_m := 3;
  min_height_m := 3
|}.

(** [float(x)] for a parsed value that passed the truth test. *)
Definition float_of (value : option Q) : Q :=
  match value with Some v => v | None => 0 end.

Definition _resolve_height (hs : HeightSettings)
    (tags : list (string * TagValue)) : Q :=
  let height := _parse_float (dict_get tags "height") in
  if truthy_float height then py_max (min_height_m hs) (float_of height)
  else
    let levels := _parse_float (dict_get tags "building:levels") in
    if truthy_float levels
    then py_max (min_height_m hs) (float_of levels * level_height_m hs)
    else default_height_m hs.

(* ================================================================== *)
(** ** Feature retrieval ([app/services/overpass.py])

    The network is outside the embedding: what the Overpass server
    answers is an argument of the functions below. *)

Record OverpassError : Type := {
  overpass_message : string;
  overpass_status_code : Z
}.

(** [OverpassError(message)]: the status code defaults to 503. *)
Definition overpass_error (message : string) : OverpassError :=
  {| overpass_message := message; overpass_status_code := 503 |}.

(** What one [client.post] followed by [raise_for_status] and [json]
    comes to: the decoded payload, an [HTTPStatusError] with its status,
    or a [RequestError]. *)
Inductive PostOutcome (Payload : Type) : Type :=
| PostJson (payload : Payload)
| PostStatusError (status : Z)
| PostRequestError.
Arguments PostJson {Payload} payload.
Arguments PostStatusError {Payload} status.
Arguments PostRequestError {Payload}.

(** What a run of [_execute_overpass] leaves behind: its result, the
    seconds handed to [asyncio.sleep] in order, and the number of posts. *)
Record OverpassRun (Payload : Type) : Type := {
  run_result : OverpassError + Payload;
  run_sleeps : list Z;
  run_posts : nat
}.

Section ExecuteOverpass.

Variable Payload : Type.
(** The answer to the post of each attempt. *)
Variable post : Z -> PostOutcome Payload.
(** [settings.overpass_retries] *)
Variable overpass_retries : Z.

Definition retried_status (status : Z) : bool :=
  (Z.eqb status 429 || Z.eqb status 504)%bool.

Definition status_error (status : Z) : OverpassError :=
  if Z.eqb status 429 then
    {| overpass_message :=
         "Overpass rate limit hit (HTTP 429). Please wait a few seconds or reduce the radius before retrying.";
       overpass_status_code := 503 |}
  else if Z.eqb status 504 then
    {| overpass_message :=
         "Overpass timed out while retrieving buildings (HTTP 504). Try a smaller radius or retry shortly.";
       overpass_status_code := 503 |}
  else
    {| overpass_message :=
         ("Overpass request failed with status " ++ str_of_int status ++ ".")
         %string;
       overpass_status_code := 503 |}.

(** [for attempt in range(settings.overpass_retries)], with [remaining]
    iterations still to run from [attempt] on. *)
Fixpoint execute_attempts (remaining : nat) (attempt : Z)
    (sleeps : list Z) (posts : nat) : OverpassRun Payload :=
  match remaining with
  | O =>
      {| run_result :=
           inl (overpass_error "Overpass query failed after multiple retries.");
         run_sleeps := sleeps;
         run_posts := posts |}
  | S remaining' =>
      match post attempt with
      | PostJson payload =>
          {| run_result := inr payload;
             run_sleeps := sleeps;
             run_posts := S posts |}
      | PostStatusError status =>
          if retried_status status && (attempt <? overpass_retries - 1)%Z
          then
            execute_attempts remaining' (attempt + 1)
              (sleeps ++ [(1 + attempt)%Z]) (S posts)
          else
            {| run_result := inl (status_error status);
               run_sleeps := sleeps;
               run_posts := S posts |}
      | PostRequestError =>
          {| run_result := inl (overpass_error "Unable to reach the Overpass API.");
             run_sleeps := sleeps;
             run_posts := S posts |}
      end
  end.

Definition _execute_overpass : OverpassRun Payload :=
  execute_attempts (Z.to_nat overpass_retries) 0 [] 0.

End ExecuteOverpass.

(** *** Tiles *)

(** [_inverse_project(x, y)], a call into pyproj: [(lon, lat)]. *)
Class InverseProjector : Type := {
  inverse_project : Q -> Q -> Coord
}.

(** [(south, west, north, east)] *)
Definition Tile : Type := (Q * Q * Q * Q)%type.

Section Tiles.

Context {CP : CoordinateProjector} {IP : InverseProjector}.

Definition make_tile (x y next_x next_y : Q) : Tile :=
  let '(west, south) := inverse_project x y in
  let '(east, north) := inverse_project next_x next_y in
  (py_min south north, py_min west east,
   py_max south north, py_max west east).

(** The inner loop [while x < max_x]; [None] when the fuel runs out
    before the loop ends. *)
Fixpoint tile_row (fuel : nat) (x max_x y next_y tile_size : Q)
    : option (list Tile) :=
  if Qltb x max_x then
    match fuel with
    | O => None
    | S fuel' =>
        let next_x := py_min (x + tile_size) max_x in
        match tile_row fuel' next_x max_x y next_y tile_size with
        | None => None
        | Some tiles => Some (make_tile x y next_x next_y :: tiles)
        end
    end
  else Some [].

(** The outer loop [while y < max_y]; every row starts again at
    [min_x]. *)
Fixpoint tile_rows (fuel row_fuel : nat) (min_x max_x y max_y tile_size : Q)
    : option (list Tile) :=
  if Qltb y max_y then
    match fuel with
    | O => None
    | S fuel' =>
        let next_y := py_min (y + tile_size) max_y in
        match tile_row row_fuel min_x max_x y next_y tile_size with
        | None => None
        | Some row =>
            match tile_rows fuel' row_fuel min_x max_x next_y max_y
                    tile_size with
            | None => None
            | Some tiles => Some (row ++ tiles)
            end
        end
    end
  else Some [].

Definition _build_tiles (fuel : nat) (longitude latitude : Q)
    (radius_m tile_size_m : Z) : option (list Tile) :=
  let '(center_x, center_y) := project_point longitude latitude in
  let min_x := center_x - inject_Z radius_m in
  let max_x := center_x + inject_Z radius_m in
  let min_y := center_y - inject_Z radius_m in
  let max_y := center_y + inject_Z radius_m in
  tile_rows fuel fuel min_x max_x min_y max_y (inject_Z tile_size_m).

End Tiles.

(** The steps of one axis: the pairs [(x, next_x)] the loop
    [while x < max_x: next_x = min(x + step, max_x); ...; x = next_x]
    goes through. *)
Fixpoint axis_steps (fuel : nat) (x max_x step : Q) : option (list (Q * Q)) :=
  if Qltb x max_x then
    match fuel with
    | O => None
    | S fuel' =>
        let next_x := py_min (x + step) max_x in
        match axis_steps fuel' next_x max_x step with
        | None => None
        | Some steps => Some ((x, next_x) :: steps)
        end
    end
  else Some [].

(** Steps that follow one another from [x] on, and where they end. *)
Fixpoint chains_from (x : Q) (steps : list (Q * Q)) : Prop :=
  match steps with
  | [] => True
  | (a, b) :: rest => a = x /\ chains_from b rest
  end.

Fixpoint chain_end (x : Q) (steps : list (Q * Q)) : Q :=
  match steps with
  | [] => x
  | (_, b) :: rest => chain_end b rest
  end.

(** The tiles of a grid of steps, row after row. *)
Definition grid_tiles `{InverseProjector} (xs ys : list (Q * Q)) : list Tile :=
  flat_map
    (fun ystep =>
       map (fun xstep =>
              make_tile (fst xstep) (fst ystep) (snd xstep) (snd ystep))
           xs)
    ys.

(** *** Collecting the features of all tiles *)

(** [x] is the first item of [items] with its key. *)
Definition first_with {A} (key : A -> Z) (x : A) (items : list A) : Prop :=
  exists before after,
    items = before ++ x :: after
    /\ forall y, In y before -> key y <> key x.

(** The seconds slept before the posts [1 .. n]: [1; 2; ...; n]. *)
Definition sleeps_upto (n : nat) : list Z :=
  map (fun k => (1 + Z.of_nat k)%Z) (seq 0 n).

(** [a.intersects(b)] *)
Class GeometryPredicates : Type := {
  intersects : Geometry -> Geometry -> bool
}.

(** [d.setdefault(key(x), x)] on a dictionary kept as the list of its
    values in insertion order. *)
Definition setdefault {A} (key : A -> Z) (d : list A) (x : A) : list A :=
  if existsb (fun y => Z.eqb (key y) (key x)) d then d else d ++ [x].

(** [items.sort(key=key, reverse=True)]: a stable sort, largest key
    first; an item goes in after the items whose key is not smaller. *)
Fixpoint insert_descending {A} (key : A -> Q) (x : A) (sorted : list A)
    : list A :=
  match sorted with
  | [] => [x]
  | y :: rest =>
      if Qltb (key y) (key x) then x :: sorted
      else y :: insert_descending key x rest
  end.

Definition sort_descending {A} (key : A -> Q) (items : list A) : list A :=
  fold_left (fun sorted x => insert_descending key x sorted) items [].

(** The order [sort(key=key, reverse=True)] leaves a list in. *)
Definition descending {A} (key : A -> Q) (a b : A) : Prop := key b <= key a.

(** [items[:n]] *)
Definition slice_to {A} (n : Z) (items : list A) : list A :=
  if (0 <=? n)%Z then firstn (Z.to_nat n) items
  else firstn (List.length items - Z.to_nat (- n)) items.

Definition ParsedTile : Type :=
  (list BuildingFootprint * list RoadFeature
   * list ParkFeature * list WaterFeature)%type.

Definition Environment : Type :=
  (list BuildingFootprint * list RoadFeature
   * list ParkFeature * list WaterFeature)%type.

Section FetchEnvironment.

Context {GA : GeometryAlgebra} {CP : CoordinateProjector}
        {GP : GeometryPredicates}.

(** [footprint.area_m2] *)
Definition area_m2 (footprint : BuildingFootprint) : Q :=
  area (polygon_projected footprint).

(** [fetch_environment] from the parsed answer of every tile on: the
    four dictionaries, the circle filter, the sort and the cut. *)
Definition fetch_environment_collect (longitude latitude : Q) (radius_m : Z)
    (max_buildings : Z) (parsed : list ParsedTile) : Environment :=
  let '(center_x, center_y) := project_point longitude latitude in
  let footprints :=
    fold_left
      (fun d tile =>
         let '(bs, _, _, _) := tile in fold_left (setdefault osm_id) bs d)
      parsed [] in
  let roads :=
    fold_left
      (fun d tile =>
         let '(_, rs, _, _) := tile in
         fold_left (setdefault road_osm_id) rs d)
      parsed [] in
  let parks :=
    fold_left
      (fun d tile =>
         let '(_, _, ps, _) := tile in
         fold_left (setdefault park_osm_id) ps d)
      parsed [] in
  let waters :=
    fold_left
      (fun d tile =>
         let '(_, _, _, ws) := tile in
         fold_left (setdefault water_osm_id) ws d)
      parsed [] in
  if negb (truthy_list footprints) then ([], [], [], [])
  else
    let circle :=
      GPolygon (point_buffer (center_x, center_y) (inject_Z radius_m) 16) in
    let filtered_buildings :=
      filter (fun footprint => intersects (polygon_projected footprint) circle)
             footprints in
    let filtered_buildings := sort_descending area_m2 filtered_buildings in
    let filtered_roads :=
      filter (fun road => intersects (line_projected road) circle) roads in
    let filtered_parks :=
      filter (fun park => intersects (park_polygon_projected park) circle)
             parks in
    let filtered_waters :=
      filter (fun water => intersects (water_polygon_projected water) circle)
             waters in
    (slice_to max_buildings filtered_buildings,
     filtered_roads, filtered_parks, filtered_waters).

End FetchEnvironment.

(* ================================================================== *)
(** ** The two model endpoints ([app/main.py])

    [fetch] stands for [fetch_environment]: what it returns or raises
    for a latitude, a longitude and a radius. *)

(** A response: the body of a success, or a status with the [detail] of
    the JSON body, be it from an [HTTPException] or from the handler
    registered for [ModelBuildError]. *)
Inductive HttpResponse (A : Type) : Type :=
| HttpOk (body : A)
| HttpError (status_code : Z) (detail : string).
Arguments HttpOk {A} body.
Arguments HttpError {A} status_code detail.

Record ModelsBody : Type := {
  content : Archive;
  media_type : string;
  content_disposition : string;
  x_building_count : string
}.

(** [request.model_copy(update={"highlight_home": True, "formats":
    ["stl"]})] *)
Definition with_forced_options (request : ModelRequest) : ModelRequest :=
  {| latitude := latitude request;
     longitude := longitude request;
     radius_meters := radius_meters request;
     highlight_home := true;
     formats := ["stl"%string] |}.

(** [request.model_copy(update={"radius_meters": r})] *)
Definition with_radius (request : ModelRequest) (r : Z) : ModelRequest :=
  {| latitude := latitude request;
     longitude := longitude request;
     radius_meters := r;
     highlight_home := highlight_home request;
     formats := formats request |}.

Definition no_buildings_detail : string :=
  "No buildings found for that location. Try increasing the radius.".

Section Endpoints.

Context {GA : GeometryAlgebra} {CP : CoordinateProjector} {MK : MeshKernel}.

Variable fetch : Q -> Q -> Z -> OverpassError + Environment.
(** [settings.max_radius_m] *)
Variable max_radius_m : Z.

Definition create_models (s : Settings) (request : ModelRequest)
    : HttpResponse ModelsBody :=
  let request := with_forced_options request in
  let request :=
    if (radius_meters request >? max_radius_m)%Z
    then with_radius request max_radius_m else request in
  match fetch (latitude request) (longitude request)
              (radius_meters request) with
  | inl exc => HttpError (overpass_status_code exc) (overpass_message exc)
  | inr (buildings, roads, parks, waters) =>
      if negb (truthy_list buildings) then HttpError 404 no_buildings_detail
      else
        match build_model_archive s request buildings roads parks waters with
        | Raise (BuildError message) => HttpError 500 message
        | Ok out =>
            HttpOk
              {| content := archive out;
                 media_type := "application/zip";
                 content_disposition :=
                   ("attachment; filename=" ++ String "034"%char
                      (filename out ++ String "034"%char EmptyString))%string;
                 x_building_count :=
                   str_of_int (Z.of_nat (building_count (metadata out))) |}
        end
  end.

Definition preview_models (s : Settings) (request : ModelRequest)
    : HttpResponse (ModelMetadata * list LayerPreview) :=
  let request := with_forced_options request in
  match fetch (latitude request) (longitude request)
              (radius_meters request) with
  | inl exc => HttpError (overpass_status_code exc) (overpass_message exc)
  | inr (buildings, roads, parks, waters) =>
      if negb (truthy_list buildings) then HttpError 404 no_buildings_detail
      else
        match generate_preview_data s request buildings roads parks waters
        with
        | Raise (BuildError message) => HttpError 400 message
        | Ok (meta, previews) => HttpOk (meta, previews)
        end
  end.

End Endpoints.

(* ================================================================== *)
(** ** A reference reading for the services

    Executable stand-ins for what the services take from their
    libraries and from the network, used to run them on concrete
    inputs. *)

Module ReferenceServices.

(** [str.lower] on ASCII letters. *)
Definition ascii_lower (c : ascii) : ascii :=
  let n := nat_of_ascii c in
  if ((65 <=? n) && (n <=? 90))%nat then ascii_of_nat (n + 32) else c.

Fixpoint lower (s : string) : string :=
  match s with
  | EmptyString => EmptyString
  | String c rest => String (ascii_lower c) (lower rest)
  end.

(** The inverse of [Reference.projector]. *)
Definition inverse_projector : InverseProjector := {|
  inverse_project := fun x y => (x / 111320, y / 111320)
|}.

(** Two geometries intersect when their bounding boxes meet. *)
Definition box_intersects (a b : Geometry) : bool :=
  match Reference.extent (List.concat (Reference.parts a)),
        Reference.extent (List.concat (Reference.parts b)) with
  | Some (ax0, ay0, ax1, ay1), Some (bx0, by0, bx1, by1) =>
      Qle_bool ax0 bx1 && Qle_bool bx0 ax1
      && Qle_bool ay0 by1 && Qle_bool by0 ay1
  | _, _ => false
  end.

Definition predicates : GeometryPredicates := {|
  intersects := box_intersects
|}.

(** A server that answers 429 twice and then with a payload. *)
Definition busy_twice (attempt : Z) : PostOutcome string :=
  if (attempt <? 2)%Z then PostStatusError 429 else PostJson "{}"%string.

(** [fetch_environment] finding the house, its neighbour and a street
    whatever the place. *)
Definition fetch_street : Q -> Q -> Z -> OverpassError + Environment :=
  fun _ _ _ =>
    inr ([Reference.house; Reference.neighbour], [Reference.street], [], []).

(** [fetch_environment] finding a single building far from the place. *)
Definition fetch_far_away : Q -> Q -> Z -> OverpassError + Environment :=
  fun _ _ _ =>
    inr ([Reference.far_away], [Reference.street], [Reference.lawn],
         [Reference.pond]).

End ReferenceServices.

(* ================================================================== *)
(** * Properties *)

(** ** Comparisons, [max] and [min] *)

Lemma Qltb_true (a b : Q) : Qltb a b = true <-> a < b.
Proof.
  unfold Qltb. rewrite negb_true_iff.
  destruct (Qle_bool b a) eqn:E.
  - apply Qle_bool_iff in E. split; [discriminate | intro H; exfalso; lra].
  - split; [intros _ | reflexivity].
    destruct (Qlt_le_dec a b) as [H | H]; [exact H |].
    apply Qle_bool_iff in H. congruence.
Qed.

Lemma Qltb_false (a b : Q) : Qltb a b = false <-> b <= a.
Proof.
  destruct (Qltb a b) eqn:E.
  - apply Qltb_true in E. split; [discriminate | intro H; exfalso; lra].
  - split; [intros _ | reflexivity].
    destruct (Qlt_le_dec a b) as [H | H]; [| exact H].
    apply Qltb_true in H. congruence.
Qed.

Lemma py_max_ge_l (a b : Q) : a <= py_max a b.
Proof.
  unfold py_max. destruct (Qltb a b) eqn:E; [| lra].
  apply Qltb_true in E. lra.
Qed.

Lemma py_max_ge_r (a b : Q) : b <= py_max a b.
Proof.
  unfold py_max. destruct (Qltb a b) eqn:E; [lra |].
  apply Qltb_false in E. exact E.
Qed.

Lemma py_max_left (a b : Q) : b <= a -> py_max a b = a.
Proof.
  intro H. unfold py_max. apply Qltb_false in H. now rewrite H.
Qed.

Lemma py_min_le_r (a b : Q) : py_min a b <= b.
Proof.
  unfold py_min. destruct (Qltb b a) eqn:E; [lra |].
  apply Qltb_false in E. exact E.
Qed.

Lemma print_radius_floor (s : Settings) : 1 # 1000 <= print_radius_of s.
Proof. apply py_max_ge_r. Qed.

Lemma print_radius_pos (s : Settings) : 0 < print_radius_of s.
Proof. pose proof (print_radius_floor s). lra. Qed.

(** ** Preview normalisation *)

(** C8: for a positive print radius the normalised point is
    [((x+r)/(2r), 1 - (y+r)/(2r))], the vertical axis flipped; for a zero
    print radius every point goes to [(0, 0)] and nothing is divided. *)
Theorem normalize_point_spec (x y r : Q) :
  (0 < r ->
   _normalize_point x y r = ((x + r) / (2 * r), 1 - (y + r) / (2 * r)))
  /\ (r == 0 -> _normalize_point x y r = (0, 0)).
Proof.
  unfold _normalize_point. split; intro H.
  - destruct (Qeq_bool r 0) eqn:E; [| reflexivity].
    apply Qeq_bool_iff in E. exfalso. lra.
  - apply Qeq_bool_iff in H. now rewrite H.
Qed.

Lemma normalize_point_spec_witness :
  0 < 1 # 10 /\
  _normalize_point (1 # 20) (-1 # 40) (1 # 10)
  = (((1 # 20) + (1 # 10)) / (2 * (1 # 10)),
     1 - ((-1 # 40) + (1 # 10)) / (2 * (1 # 10))).
Proof.
  split; [reflexivity |].
  apply (proj1 (normalize_point_spec (1 # 20) (-1 # 40) (1 # 10))).
  reflexivity.
Defined.

(** ** Geometry values and the local frame *)

Lemma polygon_map_compose (f g : Coord -> Coord) (p : Polygon) :
  polygon_map f (polygon_map g p) = polygon_map (fun c => f (g c)) p.
Proof.
  unfold polygon_map. simpl. f_equal.
  - apply map_map.
  - rewrite map_map. apply map_ext. intro r. apply map_map.
Qed.

Lemma geometry_map_compose (f g : Coord -> Coord) (x : Geometry) :
  geometry_map f (geometry_map g x) = geometry_map (fun c => f (g c)) x.
Proof.
  induction x using Geometry_nested_ind; simpl.
  - reflexivity.
  - now rewrite map_map.
  - now rewrite polygon_map_compose.
  - f_equal. rewrite map_map. apply map_ext. intro q.
    apply polygon_map_compose.
  - f_equal. rewrite map_map. induction H as [| y ys Hy _ IH]; simpl.
    + reflexivity.
    + now rewrite Hy, IH.
Qed.

Lemma to_local_scaled_coords (g : Geometry) (origin_x origin_y k : Q) :
  _to_local_scaled g origin_x origin_y k
  = geometry_map (local_coord origin_x origin_y k) g.
Proof.
  unfold _to_local_scaled, scale, translate.
  now rewrite geometry_map_compose.
Qed.

Lemma polygon_is_empty_map (f : Coord -> Coord) (p : Polygon) :
  polygon_is_empty (polygon_map f p) = polygon_is_empty p.
Proof.
  unfold polygon_is_empty, polygon_map. simpl.
  now destruct (exterior p).
Qed.

Lemma is_empty_map (f : Coord -> Coord) (g : Geometry) :
  is_empty (geometry_map f g) = is_empty g.
Proof.
  induction g using Geometry_nested_ind; simpl.
  - reflexivity.
  - now destruct cs.
  - apply polygon_is_empty_map.
  - induction ps as [| q qs IH]; simpl; [reflexivity |].
    now rewrite polygon_is_empty_map, IH.
  - induction H as [| y ys Hy _ IH]; simpl; [reflexivity |].
    now rewrite Hy, IH.
Qed.

Lemma iter_polygons_map (f : Coord -> Coord) (g : Geometry) :
  _iter_polygons (geometry_map f g) = map (polygon_map f) (_iter_polygons g).
Proof.
  unfold _iter_polygons. rewrite is_empty_map.
  destruct (is_empty g); [reflexivity |].
  destruct g as [c | cs | p | ps | gs]; simpl; try reflexivity.
  - induction ps as [| q qs IH]; simpl; [reflexivity |].
    rewrite polygon_is_empty_map.
    destruct (polygon_is_empty q); simpl; now rewrite IH.
  - induction gs as [| y ys IH]; simpl; [reflexivity |].
    rewrite map_app, IH. f_equal.
    destruct y as [c | cs | p | ps | gs']; simpl; try reflexivity.
    rewrite polygon_is_empty_map.
    now destruct (polygon_is_empty p).
Qed.

Lemma iter_polygons_nonempty (g : Geometry) (p : Polygon) :
  In p (_iter_polygons g) -> polygon_is_empty p = false.
Proof.
  unfold _iter_polygons. destruct (is_empty g) eqn:E; [intros [] |].
  destruct g as [c | cs | q | ps | gs]; simpl in *;
    try (intros []; fail).
  - intros [<- | []]. exact E.
  - intro H. apply filter_In in H. destruct H as [_ H].
    now apply negb_true_iff in H.
  - intro H. apply in_flat_map in H. destruct H as [y [_ Hy]].
    destruct y as [c | cs | q | ps | gs']; simpl in Hy; try contradiction.
    destruct (polygon_is_empty q) eqn:Eq; simpl in Hy; [contradiction |].
    destruct Hy as [<- | []]. exact Eq.
Qed.

Lemma iter_polygons_empty (g : Geometry) :
  is_empty g = true -> _iter_polygons g = [].
Proof. intro H. unfold _iter_polygons. now rewrite H. Qed.


(** ** Scene construction *)

Section SceneFacts.

Context {GA : GeometryAlgebra} {CP : CoordinateProjector}.

Lemma scale_factor_of_formula (s : Settings) (request : ModelRequest) :
  1 # 1000 <= target_print_diameter_m s / 2 ->
  0 < inject_Z (radius_meters request) + base_padding_m s ->
  scale_factor_of s request
  = (target_print_diameter_m s / 2)
    / (inject_Z (radius_meters request) + base_padding_m s).
Proof.
  intros Hfloor Hpos. unfold scale_factor_of, base_radius_world_of.
  apply Qltb_true in Hpos. rewrite Hpos.
  unfold print_radius_of. now rewrite py_max_left.
Qed.

(** *** The building loop *)

Section Loop.

Variables (circle_world : Polygon) (origin_x origin_y k : Q).
Variable home_building : option BuildingFootprint.

Local Abbreviation body :=
  (building_loop_body circle_world origin_x origin_y k home_building).
Local Abbreviation polygons_of :=
  (footprint_polygons circle_world origin_x origin_y k).

Lemma building_loop_invariant (Inv : BuildingLoop -> Prop)
    (buildings : list BuildingFootprint) :
  Inv building_loop_init ->
  (forall st fp, In fp buildings -> Inv st -> Inv (body st fp)) ->
  Inv (building_loop circle_world origin_x origin_y k home_building buildings).
Proof.
  unfold building_loop.
  generalize building_loop_init.
  induction buildings as [| fp rest IH]; simpl; intros st H0 Hstep.
  - exact H0.
  - apply IH.
    + apply Hstep; [now left | exact H0].
    + intros st' fp' Hin. apply Hstep. now right.
Qed.

Lemma body_polygons_all (st : BuildingLoop) (fp : BuildingFootprint) :
  loop_polygons_all (body st fp) = loop_polygons_all st ++ polygons_of fp.
Proof.
  unfold building_loop_body.
  destruct (polygons_of fp) as [| q qs]; simpl.
  - now rewrite app_nil_r.
  - now destruct (is_home home_building fp).
Qed.

Lemma building_loop_polygons_all (buildings : list BuildingFootprint) :
  loop_polygons_all
    (building_loop circle_world origin_x origin_y k home_building buildings)
  = flat_map polygons_of buildings.
Proof.
  unfold building_loop.
  change (flat_map polygons_of buildings)
    with (loop_polygons_all building_loop_init
          ++ flat_map polygons_of buildings).
  generalize building_loop_init.
  induction buildings as [| fp rest IH]; simpl; intro st.
  - now rewrite app_nil_r.
  - rewrite IH, body_polygons_all. now rewrite app_assoc.
Qed.

(** Every entry of the mesh data, and the home polygons once set, are the
    polygons of one footprint of the list, with its clamped height. *)
Lemma building_loop_sources (buildings : list BuildingFootprint) :
  let st :=
    building_loop circle_world origin_x origin_y k home_building buildings in
  (forall polys h, In (polys, h) (loop_mesh_data st) ->
     exists fp, In fp buildings /\ polys = polygons_of fp /\ polys <> []
                /\ h = py_max (height_m fp * k) (5 # 10000))
  /\ (loop_home_polygons st <> [] ->
      exists fp, In fp buildings
                 /\ loop_home_polygons st = polygons_of fp
                 /\ is_home home_building fp = true
                 /\ loop_home_height st
                    = Some (py_max (height_m fp * k) (5 # 10000))).
Proof.
  apply building_loop_invariant
    with (Inv := fun st =>
      (forall polys h, In (polys, h) (loop_mesh_data st) ->
         exists fp, In fp buildings /\ polys = polygons_of fp /\ polys <> []
                    /\ h = py_max (height_m fp * k) (5 # 10000))
      /\ (loop_home_polygons st <> [] ->
          exists fp, In fp buildings
                     /\ loop_home_polygons st = polygons_of fp
                     /\ is_home home_building fp = true
                     /\ loop_home_height st
                        = Some (py_max (height_m fp * k) (5 # 10000)))).
  - simpl. split; [intros ? ? [] | congruence].
  - intros st fp Hin [Hdata Hhome].
    unfold building_loop_body.
    destruct (polygons_of fp) as [| q qs] eqn:E; [now split |].
    destruct (is_home home_building fp) eqn:Eh; simpl; split.
    + exact Hdata.
    + intros _. exists fp. now rewrite E.
    + intros polys h Hm. apply in_app_or in Hm.
      destruct Hm as [Hm | [Hm | []]]; [now apply Hdata |].
      inversion Hm; subst. exists fp. rewrite E.
      repeat split; congruence.
    + exact Hhome.
Qed.

(** The home polygons are always among all building polygons. *)
Lemma building_loop_home_in_all (buildings : list BuildingFootprint) :
  let st :=
    building_loop circle_world origin_x origin_y k home_building buildings in
  loop_home_polygons st <> [] -> loop_polygons_all st <> [].
Proof.
  apply building_loop_invariant
    with (Inv := fun st =>
                   loop_home_polygons st <> [] -> loop_polygons_all st <> []).
  - simpl. congruence.
  - intros st fp _ IH. rewrite body_polygons_all.
    unfold building_loop_body.
    destruct (polygons_of fp) as [| q qs] eqn:E.
    + rewrite app_nil_r. exact IH.
    + intros _ Habs. now apply app_eq_nil in Habs.
Qed.

End Loop.

(** Without a home building nothing is set aside for the highlight. *)
Lemma building_loop_no_home (circle_world : Polygon) (origin_x origin_y k : Q)
    (buildings : list BuildingFootprint) :
  let st := building_loop circle_world origin_x origin_y k None buildings in
  loop_home_polygons st = [] /\ loop_home_height st = None.
Proof.
  apply building_loop_invariant
    with (Inv := fun st =>
                   loop_home_polygons st = [] /\ loop_home_height st = None).
  - now split.
  - intros st fp _ IH. unfold building_loop_body.
    now destruct (footprint_polygons circle_world origin_x origin_y k fp).
Qed.

(** *** What [_prepare_geometries] returns *)

Lemma prepare_geometries_ok
    (buildings : list BuildingFootprint) (roads : list RoadFeature)
    (parks : list ParkFeature) (waters : list WaterFeature)
    (circle_world bc : Polygon) (ox oy k : Q)
    (home : option BuildingFootprint) (s : Settings)
    (prep : PreparedGeometries) :
  _prepare_geometries buildings roads parks waters circle_world bc
    ox oy k home s = Ok prep ->
  let st := building_loop circle_world ox oy k home buildings in
  loop_polygons_all st <> []
  /\ base_circle prep = bc
  /\ water_union prep
     = _clip_to_circle (_union_geometries (water_polygons_of ox oy k waters))
         (GPolygon bc)
  /\ land_no_water prep = land_of bc (water_union prep)
  /\ park_union prep
     = _clip_to_circle (_union_geometries (park_polygons_of s ox oy k parks))
         (land_no_water prep)
  /\ road_union prep
     = _clip_to_circle (_union_geometries (road_buffers_of s ox oy k roads))
         (GPolygon bc)
  /\ building_base prep
     = building_base_of (land_no_water prep) (park_union prep)
  /\ building_mesh_data prep = loop_mesh_data st
  /\ building_summaries prep = loop_summaries st
  /\ home_polygons prep = loop_home_polygons st
  /\ home_height prep = loop_home_height st.
Proof.
  unfold _prepare_geometries. intro H. cbv zeta.
  destruct (loop_polygons_all
              (building_loop circle_world ox oy k home buildings)) eqn:Eall.
  - simpl in H.
    destruct (loop_home_polygons
                (building_loop circle_world ox oy k home buildings)) eqn:Eh;
      simpl in H; [discriminate |].
    exfalso.
    apply (@building_loop_home_in_all circle_world ox oy k home buildings);
      [rewrite Eh; discriminate | exact Eall].
  - simpl in H. inversion H; subst; clear H. simpl.
    repeat split; try reflexivity. discriminate.
Qed.

Lemma prepare_geometries_raises
    (buildings : list BuildingFootprint) (roads : list RoadFeature)
    (parks : list ParkFeature) (waters : list WaterFeature)
    (circle_world bc : Polygon) (ox oy k : Q)
    (home : option BuildingFootprint) (s : Settings) :
  is_ok (_prepare_geometries buildings roads parks waters circle_world bc
           ox oy k home s)
  = truthy_list (flat_map (footprint_polygons circle_world ox oy k) buildings).
Proof.
  unfold _prepare_geometries.
  rewrite <- building_loop_polygons_all with (home_building := home).
  destruct (loop_polygons_all
              (building_loop circle_world ox oy k home buildings)) eqn:Eall;
    simpl; [| reflexivity].
  destruct (loop_home_polygons
              (building_loop circle_world ox oy k home buildings)) eqn:Eh;
    simpl; [reflexivity |].
  exfalso.
  apply (@building_loop_home_in_all circle_world ox oy k home buildings);
    [rewrite Eh; discriminate | exact Eall].
Qed.

(** *** What [_build_scene_context] returns *)

Lemma build_scene_context_ok (s : Settings) (request : ModelRequest)
    (buildings : list BuildingFootprint) (roads : list RoadFeature)
    (parks : list ParkFeature) (waters : list WaterFeature)
    (ctx : SceneContext) :
  _build_scene_context s request buildings roads parks waters = Ok ctx ->
  settings ctx = s
  /\ (origin_x ctx, origin_y ctx)
     = project_point (longitude request) (latitude request)
  /\ scale_factor ctx = scale_factor_of s request
  /\ print_radius ctx = print_radius_of s
  /\ _prepare_geometries buildings roads parks waters
       (point_buffer (origin_x ctx, origin_y ctx)
          (inject_Z (radius_meters request)) 96)
       (point_buffer (0, 0) (print_radius_of s) 128)
       (origin_x ctx) (origin_y ctx) (scale_factor ctx)
       (_identify_home_building buildings
          (longitude request, latitude request))
       s
     = Ok (prepared ctx).
Proof.
  unfold _build_scene_context.
  destruct (project_point (longitude request) (latitude request))
    as [ox oy] eqn:Eo.
  match goal with
  | |- bind ?m _ = _ -> _ => destruct m as [prep | e] eqn:Ep
  end; simpl; intro H; [| discriminate].
  inversion H; subst; clear H. simpl. now repeat split.
Qed.

End SceneFacts.

(** ** The scale factor *)

Section ScaleFactor.

Context {GA : GeometryAlgebra} {CP : CoordinateProjector}.

Lemma filter_all {A} (f : A -> bool) (l : list A) :
  (forall x, In x l -> f x = true) -> filter f l = l.
Proof.
  induction l as [| a l IH]; simpl; intro H; [reflexivity |].
  rewrite (H a) by now left. f_equal. apply IH. intros x Hx. apply H.
  now right.
Qed.

(** The polygons of a footprint, with the guards of the loop left out. *)
Lemma footprint_polygons_iter (circle_world : Polygon) (ox oy k : Q)
    (fp : BuildingFootprint) :
  footprint_polygons circle_world ox oy k fp
  = _iter_polygons
      (_to_local_scaled
         (intersection (polygon_projected fp) (GPolygon circle_world))
         ox oy k).
Proof.
  unfold footprint_polygons.
  destruct (is_empty (intersection (polygon_projected fp)
                        (GPolygon circle_world))) eqn:E.
  - symmetry. apply iter_polygons_empty.
    now rewrite to_local_scaled_coords, is_empty_map.
  - apply filter_all. intros p Hp. apply negb_true_iff.
    now apply (iter_polygons_nonempty _ _ Hp).
Qed.

(** C1, amended: the scale factor of the scene context is
    [(target_print_diameter/2) / (radius_meters + base_padding_m)] when
    half the target print diameter is at least the 1 mm floor and the
    padded radius is positive.  Whatever its value [k], the move to local
    space sends every coordinate [(x, y)] of a geometry to
    [(k * (x - origin_x), k * (y - origin_y))], and this move with this
    [k] is the one behind every prepared geometry: each entry of the
    building mesh data and the home polygons are the polygons of a
    footprint clipped to the world circle and moved, with the height
    multiplied by [k]; the water union is the clipped union of the moved
    water polygons; the park union is the clipped union of the moved
    park polygons, shrunk by the margin times [k]; the road union is the
    clipped union of the moved road lines, buffered by the road width
    times [k]. *)
Theorem scale_factor_spec (s : Settings) (request : ModelRequest)
    (buildings : list BuildingFootprint) (roads : list RoadFeature)
    (parks : list ParkFeature) (waters : list WaterFeature)
    (ctx : SceneContext) :
  _build_scene_context s request buildings roads parks waters = Ok ctx ->
  let k := scale_factor ctx in
  let ox := origin_x ctx in
  let oy := origin_y ctx in
  let prep := prepared ctx in
  let circle_world :=
    point_buffer (ox, oy) (inject_Z (radius_meters request)) 96 in
  let move := fun c : Coord => (k * (fst c + - ox), k * (snd c + - oy)) in
  let park_shrink := py_max (park_indent_shrink_m s * k) 0 in
  let road_width := py_max (road_indent_width_m s * k) (1 # 1000) in
  (1 # 1000 <= target_print_diameter_m s / 2 ->
   0 < inject_Z (radius_meters request) + base_padding_m s ->
   k = (target_print_diameter_m s / 2)
       / (inject_Z (radius_meters request) + base_padding_m s))
  /\ (forall c, _to_local_scaled (GPoint c) ox oy k = GPoint (move c))
  /\ (forall cs,
        _to_local_scaled (GLineString cs) ox oy k
        = GLineString (map move cs))
  /\ (forall p,
        _to_local_scaled (GPolygon p) ox oy k
        = GPolygon {| exterior := map move (exterior p);
                      interiors := map (map move) (interiors p) |})
  /\ (forall ps,
        _to_local_scaled (GMultiPolygon ps) ox oy k
        = GMultiPolygon
            (map (fun p => {| exterior := map move (exterior p);
                              interiors := map (map move) (interiors p) |})
                 ps))
  /\ (forall gs,
        _to_local_scaled (GCollection gs) ox oy k
        = GCollection (map (fun g => _to_local_scaled g ox oy k) gs))
  /\ (forall polys h, In (polys, h) (building_mesh_data prep) ->
        exists fp,
          In fp buildings
          /\ polys
             = _iter_polygons
                 (_to_local_scaled
                    (intersection (polygon_projected fp)
                                  (GPolygon circle_world))
                    ox oy k)
          /\ h = py_max (height_m fp * k) (5 # 10000))
  /\ (home_polygons prep <> [] ->
        exists fp,
          In fp buildings
          /\ home_polygons prep
             = _iter_polygons
                 (_to_local_scaled
                    (intersection (polygon_projected fp)
                                  (GPolygon circle_world))
                    ox oy k)
          /\ home_height prep = Some (py_max (height_m fp * k) (5 # 10000)))
  /\ water_union prep
     = _clip_to_circle
         (_union_geometries
            (flat_map
               (fun water =>
                  _iter_polygons
                    (_to_local_scaled (water_polygon_projected water)
                                      ox oy k))
               waters))
         (GPolygon (base_circle prep))
  /\ park_union prep
     = _clip_to_circle
         (_union_geometries
            (flat_map
               (fun park =>
                  flat_map
                    (fun polygon =>
                       if Qltb 0 park_shrink
                       then _iter_polygons
                              (buffer (GPolygon polygon) (- park_shrink))
                       else [polygon])
                    (_iter_polygons
                       (_to_local_scaled (park_polygon_projected park)
                                         ox oy k)))
               parks))
         (land_no_water prep)
  /\ road_union prep
     = _clip_to_circle
         (_union_geometries
            (flat_map
               (fun road =>
                  if negb (is_empty
                             (buffer_styled
                                (_to_local_scaled (line_projected road)
                                                  ox oy k)
                                road_width 2 2))
                  then _iter_polygons
                         (buffer_styled
                            (_to_local_scaled (line_projected road) ox oy k)
                            road_width 2 2)
                  else [])
               roads))
         (GPolygon (base_circle prep)).
Proof.
  intros Hctx. cbv zeta.
  apply build_scene_context_ok in Hctx.
  destruct Hctx as (_ & _ & Hk & _ & Hprep).
  apply prepare_geometries_ok in Hprep. cbv zeta in Hprep.
  destruct Hprep
    as (_ & Hbc & Hwu & _ & Hpu & Hru & _ & Hdata & _ & Hhome & Hrest).
  pose proof (building_loop_sources
                (point_buffer (origin_x ctx, origin_y ctx)
                   (inject_Z (radius_meters request)) 96)
                (origin_x ctx) (origin_y ctx) (scale_factor ctx)
                (_identify_home_building buildings
                   (longitude request, latitude request))
                buildings) as [Hsrc Hsrc_home].
  assert (Hmove : forall g,
            _to_local_scaled g (origin_x ctx) (origin_y ctx) (scale_factor ctx)
            = geometry_map
                (fun c : Coord =>
                   (scale_factor ctx * (fst c + - origin_x ctx),
                    scale_factor ctx * (snd c + - origin_y ctx))) g)
    by (intro g; apply to_local_scaled_coords).
  split; [| split; [| split; [| split; [| split; [| split;
    [| split; [| split; [| split; [| split]]]]]]]]].
  - intros Hfloor Hpos. rewrite Hk. now apply scale_factor_of_formula.
  - intro c. now rewrite Hmove.
  - intro cs. now rewrite Hmove.
  - intro p. now rewrite Hmove.
  - intro ps. now rewrite Hmove.
  - intro gs. rewrite Hmove. simpl. f_equal. apply map_ext.
    intro g. now rewrite Hmove.
  - intros polys h Hin. rewrite Hdata in Hin.
    destruct (Hsrc polys h Hin) as (fp & Hfp & Hp & _ & Hh).
    exists fp. split; [exact Hfp |]. split; [| exact Hh].
    rewrite Hp. apply footprint_polygons_iter.
  - intro Hne. rewrite Hhome in *.
    destruct (Hsrc_home Hne) as (fp & Hfp & Hp & _ & Hh).
    exists fp. split; [exact Hfp |]. split.
    + rewrite Hp. apply footprint_polygons_iter.
    + rewrite Hrest. exact Hh.
  - rewrite Hwu, Hbc. reflexivity.
  - exact Hpu.
  - rewrite Hru, Hbc. reflexivity.
Qed.

End ScaleFactor.

(** C1 as stated fails: with a target print diameter of 1 mm and a radius
    of 100 m the scene context carries the factor [0.001 / 105], not
    [0.0005 / 105]. *)
Lemma scale_factor_counterexample :
  exists ctx,
    @_build_scene_context Reference.geometry Reference.projector
      tiny_print_settings Reference.request_100
      [Reference.house; Reference.neighbour] [] [] [] = Ok ctx
    /\ scale_factor ctx == (1 # 1000) / 105
    /\ ~ scale_factor ctx
         == (target_print_diameter_m tiny_print_settings / 2)
            / (inject_Z (radius_meters Reference.request_100)
               + base_padding_m tiny_print_settings).
Proof.
  eexists. split; [vm_compute; reflexivity |].
  split; [reflexivity | intro H; discriminate H].
Qed.

Lemma scale_factor_spec_witness :
  exists ctx,
    @_build_scene_context Reference.geometry Reference.projector
      default_settings Reference.request_100
      [Reference.house; Reference.neighbour] [Reference.street]
      [Reference.lawn] [Reference.pond] = Ok ctx
    /\ scale_factor ctx
       = (target_print_diameter_m default_settings / 2)
         / (inject_Z (radius_meters Reference.request_100)
            + base_padding_m default_settings).
Proof.
  eexists. split; [vm_compute; reflexivity |].
  refine (proj1 (@scale_factor_spec Reference.geometry Reference.projector
                   default_settings Reference.request_100
                   [Reference.house; Reference.neighbour] [Reference.street]
                   [Reference.lawn] [Reference.pond] _ _) _ _).
  - vm_compute. reflexivity.
  - vm_compute. discriminate.
  - vm_compute. reflexivity.
Defined.

(** ** The building layer *)

Lemma py_min_Qmin (a b : Q) : py_min a b == Qmin a b.
Proof.
  unfold py_min. destruct (Qltb b a) eqn:E.
  - apply Qltb_true in E. symmetry. apply Q.min_r. lra.
  - apply Qltb_false in E. symmetry. now apply Q.min_l.
Qed.

Lemma apply_translation_z_offset (mesh : Trimesh) (dz : Q) (sd : Solid) :
  In sd (apply_translation_z mesh dz) ->
  exists sd0, In sd0 mesh /\ footprint sd = footprint sd0
              /\ solid_height sd = solid_height sd0
              /\ z_offset sd = z_offset sd0 + dz.
Proof.
  unfold apply_translation_z. intro H. apply in_map_iff in H.
  destruct H as [sd0 [<- Hin]]. exists sd0. now repeat split.
Qed.

Section BuildingLayer.

Context {GA : GeometryAlgebra} {MK : MeshKernel}.

(** Whatever [_combine_meshes] returns is made of the solids it was
    given. *)
Lemma combine_meshes_solids (meshes : list Trimesh) (result : Trimesh)
    (sd : Solid) :
  _combine_meshes meshes = Ok result -> In sd result ->
  exists mesh, In mesh meshes /\ In sd mesh.
Proof.
  unfold _combine_meshes.
  set (keep := fun mesh : Trimesh => negb (Nat.eqb (len_vertices mesh) 0)).
  intros H Hsd.
  assert (Hsub : forall m, In m (filter keep meshes) -> In m meshes)
    by (intros m Hm; now apply filter_In in Hm).
  destruct (filter keep meshes) as [| m1 [| m2 rest]] eqn:E;
    [discriminate | |]; inversion H; subst; clear H.
  - exists result. split; [apply Hsub; now left | exact Hsd].
  - change (In sd (List.concat (m1 :: m2 :: rest))) in Hsd.
    apply in_concat in Hsd.
    destruct Hsd as [m [Hm Hin]]. exists m. split; [now apply Hsub | exact Hin].
Qed.

(** What [_combine_meshes] returns holds exactly the solids of the meshes
    that have a vertex. *)
Lemma combine_meshes_members (meshes : list Trimesh) (result : Trimesh) :
  _combine_meshes meshes = Ok result ->
  forall sd,
    In sd result
    <-> exists mesh,
          In mesh meshes /\ len_vertices mesh <> 0%nat /\ In sd mesh.
Proof.
  unfold _combine_meshes.
  set (keep := fun mesh : Trimesh => negb (Nat.eqb (len_vertices mesh) 0)).
  intros H sd.
  assert (Hkeep : forall m, In m (filter keep meshes)
                            <-> In m meshes /\ len_vertices m <> 0%nat).
  { intro m. rewrite filter_In. unfold keep.
    rewrite negb_true_iff, Nat.eqb_neq. reflexivity. }
  assert (Hres : In sd result
                 <-> exists m, In m (filter keep meshes) /\ In sd m).
  { destruct (filter keep meshes) as [| m1 [| m2 rest]] eqn:E;
      [discriminate | |]; inversion H; subst; clear H.
    - split.
      + intro Hsd. exists result. split; [now left | exact Hsd].
      + intros (m & [<- | []] & Hsd). exact Hsd.
    - exact (in_concat (m1 :: m2 :: rest) sd). }
  rewrite Hres. split.
  - intros (m & Hm & Hsd). apply Hkeep in Hm. exists m. tauto.
  - intros (m & Hm & Hv & Hsd). exists m. split; [| exact Hsd].
    apply Hkeep. now split.
Qed.

(** The three loops of [_build_building_layer], mesh by mesh. *)
Lemma slab_meshes_members (base_geom : Geometry) (s : Settings)
    (mesh : Trimesh) :
  In mesh (slab_meshes base_geom s)
  <-> exists polygon,
        In polygon (_iter_polygons base_geom)
        /\ mesh = [ {| footprint := polygon;
                       solid_height := slab_height_of s;
                       z_offset := 0 |} ].
Proof.
  unfold slab_meshes. rewrite in_map_iff. split.
  - intros (polygon & <- & Hp). now exists polygon.
  - intros (polygon & Hp & ->). now exists polygon.
Qed.

Lemma groove_meshes_members (base_geom road_union : Geometry) (s : Settings)
    (mesh : Trimesh) :
  In mesh (groove_meshes base_geom road_union s)
  <-> 0 < road_indent_of s
      /\ exists polygon,
           In polygon
              (_iter_polygons
                 (if negb (is_empty road_union)
                  then difference base_geom road_union else base_geom))
           /\ mesh = [ {| footprint := polygon;
                          solid_height := road_indent_of s;
                          z_offset := 0 + slab_height_of s |} ].
Proof.
  unfold groove_meshes. cbv zeta.
  destruct (Qltb 0 (road_indent_of s)) eqn:E.
  - apply Qltb_true in E. rewrite in_map_iff. split.
    + intros (polygon & <- & Hp). split; [exact E |]. now exists polygon.
    + intros (_ & polygon & Hp & ->). now exists polygon.
  - apply Qltb_false in E. split; [intros [] |].
    intros (Hpos & _). lra.
Qed.

Lemma building_meshes_members (building_mesh_data : list (list Polygon * Q))
    (s : Settings) (mesh : Trimesh) :
  In mesh (building_meshes building_mesh_data s)
  <-> exists polys h polygon,
        In (polys, h) building_mesh_data /\ In polygon polys
        /\ polygon_is_empty polygon = false
        /\ ~ area (GPolygon polygon) == 0
        /\ mesh = [ {| footprint := polygon;
                       solid_height := h;
                       z_offset := 0 + building_layer_thickness_m s |} ].
Proof.
  unfold building_meshes. rewrite in_flat_map. split.
  - intros ([polys h] & Hentry & Hmesh). apply in_flat_map in Hmesh.
    destruct Hmesh as (polygon & Hp & Hmesh).
    destruct (polygon_is_empty polygon) eqn:Ee; [contradiction |].
    destruct (Qeq_bool (area (GPolygon polygon)) 0) eqn:Ea; [contradiction |].
    destruct Hmesh as [<- | []].
    exists polys, h, polygon. repeat split; try assumption.
    intro Hz. apply Qeq_bool_iff in Hz. congruence.
  - intros (polys & h & polygon & Hentry & Hp & He & Ha & ->).
    exists (polys, h). split; [exact Hentry |].
    apply in_flat_map. exists polygon. split; [exact Hp |].
    rewrite He. simpl.
    destruct (Qeq_bool (area (GPolygon polygon)) 0) eqn:Ea.
    + apply Qeq_bool_iff in Ea. contradiction.
    + now left.
Qed.

Lemma building_layer_solids (s : Settings)
    (building_base road_union : Geometry)
    (building_mesh_data : list (list Polygon * Q))
    (home_polygons : list Polygon) (mesh : Trimesh) :
  _build_building_layer building_base road_union building_mesh_data
    home_polygons s = Ok mesh ->
  forall sd,
    In sd mesh
    <-> extruded_vertices (footprint sd) (solid_height sd) <> 0%nat
        /\ ((In (footprint sd)
                (_iter_polygons
                   (building_base_geom building_base home_polygons))
             /\ solid_height sd = slab_height_of s
             /\ z_offset sd = 0)
            \/ (0 < road_indent_of s
                /\ In (footprint sd)
                      (_iter_polygons
                         (if negb (is_empty road_union)
                          then difference
                                 (building_base_geom building_base
                                    home_polygons)
                                 road_union
                          else building_base_geom building_base
                                 home_polygons))
                /\ solid_height sd = road_indent_of s
                /\ z_offset sd = 0 + slab_height_of s)
            \/ (exists polys,
                  In (polys, solid_height sd) building_mesh_data
                  /\ In (footprint sd) polys
                  /\ polygon_is_empty (footprint sd) = false
                  /\ ~ area (GPolygon (footprint sd)) == 0
                  /\ z_offset sd = 0 + building_layer_thickness_m s)).
Proof.
  unfold _build_building_layer.
  destruct (is_empty building_base); [discriminate |].
  intros H sd. rewrite (combine_meshes_members _ H).
  assert (Hone : forall sd0 : Solid,
            len_vertices [sd0]
            = extruded_vertices (footprint sd0) (solid_height sd0)).
  { intro sd0. unfold len_vertices. simpl. apply Nat.add_0_r. }
  split.
  - intros (m & Hm & Hv & Hsd).
    apply in_app_or in Hm. destruct Hm as [Hm | Hm];
      [| apply in_app_or in Hm; destruct Hm as [Hm | Hm]].
    + apply slab_meshes_members in Hm. destruct Hm as (polygon & Hp & ->).
      destruct Hsd as [<- | []]. rewrite Hone in Hv.
      split; [exact Hv |]. left. now repeat split.
    + apply groove_meshes_members in Hm.
      destruct Hm as (Hpos & polygon & Hp & ->).
      destruct Hsd as [<- | []]. rewrite Hone in Hv.
      split; [exact Hv |]. right. left. now repeat split.
    + apply building_meshes_members in Hm.
      destruct Hm as (polys & h & polygon & Hentry & Hp & He & Ha & ->).
      destruct Hsd as [<- | []]. rewrite Hone in Hv.
      split; [exact Hv |]. right. right. exists polys. now repeat split.
  - destruct sd as [f h z]. simpl.
    intros (Hv & [(Hp & -> & ->) | [(Hpos & Hp & -> & ->)
                                   | (polys & Hentry & Hp & He & Ha & ->)]]).
    + eexists. split; [apply in_or_app; left; apply slab_meshes_members;
                       exists f; split; [exact Hp | reflexivity] |].
      split; [now rewrite Hone | now left].
    + eexists. split; [apply in_or_app; right; apply in_or_app; left;
                       apply groove_meshes_members; split; [exact Hpos |];
                       exists f; split; [exact Hp | reflexivity] |].
      split; [now rewrite Hone | now left].
    + eexists. split; [apply in_or_app; right; apply in_or_app; right;
                       apply building_meshes_members;
                       exists polys, h, f; repeat split; eassumption |].
      split; [now rewrite Hone | now left].
Qed.

(** C3, amended: the groove depth is the smaller of the configured depth
    and 0.8 of the layer thickness, the slab height the larger of the
    thickness less the groove and the 0.5 mm floor; when the thickness
    less the groove is at least that floor, slab height plus groove depth
    is the configured thickness, and otherwise it exceeds it.  A building
    layer that is built is made of exactly these solids, each with a
    vertex: the parts of the base region extruded to the slab height and
    standing at 0; when the groove depth is positive, the parts of the
    base region without the roads extruded to the groove depth and
    standing at the slab height; and the non-empty building polygons of
    non-zero area extruded to their height and standing at the full layer
    thickness.  The building solids are the same in any two layers built
    from the same building data with the same thickness, whatever the
    groove depths, base regions and roads. *)
Theorem building_layer_stacking (s : Settings) :
  let thickness := building_layer_thickness_m s in
  let groove := py_min (road_groove_depth_m s) (thickness * (8 # 10)) in
  let slab := py_max (thickness - groove) (5 # 10000) in
  groove == Qmin (road_groove_depth_m s) (thickness * (8 # 10))
  /\ slab == Qmax (thickness - groove) (5 # 10000)
  /\ (5 # 10000 <= thickness - groove -> slab + groove == thickness)
  /\ (thickness - groove < 5 # 10000 -> thickness < slab + groove)
  /\ (forall building_base road_union building_mesh_data home_polygons mesh,
        _build_building_layer building_base road_union building_mesh_data
          home_polygons s = Ok mesh ->
        let base_geom :=
          if truthy_list home_polygons
          then difference building_base (_union_geometries home_polygons)
          else building_base in
        let top_geom :=
          if negb (is_empty road_union)
          then difference base_geom road_union else base_geom in
        forall sd,
          In sd mesh
          <-> extruded_vertices (footprint sd) (solid_height sd) <> 0%nat
              /\ ((In (footprint sd) (_iter_polygons base_geom)
                   /\ solid_height sd = slab
                   /\ z_offset sd = 0)
                  \/ (0 < groove
                      /\ In (footprint sd) (_iter_polygons top_geom)
                      /\ solid_height sd = groove
                      /\ z_offset sd = 0 + slab)
                  \/ (exists polys,
                        In (polys, solid_height sd) building_mesh_data
                        /\ In (footprint sd) polys
                        /\ polygon_is_empty (footprint sd) = false
                        /\ ~ area (GPolygon (footprint sd)) == 0
                        /\ z_offset sd = 0 + thickness)))
  /\ (forall s' building_base road_union home_polygons
             building_base' road_union' home_polygons'
             building_mesh_data mesh mesh',
        building_layer_thickness_m s' = thickness ->
        _build_building_layer building_base road_union building_mesh_data
          home_polygons s = Ok mesh ->
        _build_building_layer building_base' road_union' building_mesh_data
          home_polygons' s' = Ok mesh' ->
        forall sd polys,
          In (polys, solid_height sd) building_mesh_data ->
          In (footprint sd) polys ->
          polygon_is_empty (footprint sd) = false ->
          ~ area (GPolygon (footprint sd)) == 0 ->
          z_offset sd = 0 + thickness ->
          (In sd mesh <-> In sd mesh')).
Proof.
  cbv zeta.
  split; [apply py_min_Qmin |]. split.
  { unfold py_max.
    destruct (Qltb (building_layer_thickness_m s
                    - py_min (road_groove_depth_m s)
                        (building_layer_thickness_m s * (8 # 10)))
                   (5 # 10000)) eqn:E.
    - apply Qltb_true in E. symmetry. apply Q.max_r. lra.
    - apply Qltb_false in E. symmetry. now apply Q.max_l. }
  split.
  { intro Hfloor. rewrite py_max_left by exact Hfloor. ring. }
  split.
  { intro Hlow. unfold py_max at 1.
    assert (E : Qltb (building_layer_thickness_m s
                      - py_min (road_groove_depth_m s)
                          (building_layer_thickness_m s * (8 # 10)))
                     (5 # 10000) = true) by now apply Qltb_true.
    rewrite E. lra. }
  split.
  { intros bb ru bmd hp mesh H sd.
    exact (building_layer_solids _ _ _ _ _ H sd). }
  intros s' bb ru hp bb' ru' hp' bmd mesh mesh' Ht H H' sd polys
         Hentry Hp He Ha Hz.
  rewrite (building_layer_solids _ _ _ _ _ H sd).
  rewrite (building_layer_solids _ _ _ _ _ H' sd).
  split; intros [Hv _]; (split; [exact Hv |]); right; right;
    exists polys; repeat split; try assumption.
  now rewrite Ht.
Qed.

(** A layer of at least 2.5 mm leaves the slab above its floor, whatever
    the groove depth. *)
Lemma slab_floor_of_thickness (s : Settings) :
  25 # 10000 <= building_layer_thickness_m s ->
  5 # 10000 <= building_layer_thickness_m s - road_indent_of s.
Proof.
  intro H.
  pose proof (py_min_le_r (road_groove_depth_m s)
                (building_layer_thickness_m s * (8 # 10))) as Hle.
  fold (road_indent_of s) in Hle. lra.
Qed.

End BuildingLayer.

(** C3 as stated fails: for a layer thickness of 1 mm the groove is
    0.8 mm, the slab is held at its 0.5 mm floor, and the two add up to
    1.3 mm. *)
Lemma building_layer_stacking_counterexample :
  road_indent_of thin_layer_settings == 8 # 10000
  /\ slab_height_of thin_layer_settings == 5 # 10000
  /\ ~ slab_height_of thin_layer_settings + road_indent_of thin_layer_settings
       == building_layer_thickness_m thin_layer_settings.
Proof.
  split; [reflexivity |]. split; [reflexivity |].
  intro H. discriminate H.
Qed.

Lemma building_layer_stacking_witness :
  (5 # 10000
     <= building_layer_thickness_m default_settings
        - road_indent_of default_settings
   /\ slab_height_of default_settings + road_indent_of default_settings
      == building_layer_thickness_m default_settings)
  /\ exists mesh,
       @_build_building_layer Reference.geometry Reference.kernel
         (Reference.square (-1) (-1) 1 1) (GCollection [])
         [([Reference.rectangle 0 0 (1 # 10) (1 # 10)], 1 # 100)] []
         default_settings = Ok mesh
       /\ In {| footprint := Reference.rectangle 0 0 (1 # 10) (1 # 10);
                solid_height := 1 # 100;
                z_offset := 0 + building_layer_thickness_m default_settings |}
             mesh.
Proof.
  destruct (@building_layer_stacking Reference.geometry Reference.kernel
              default_settings) as (_ & _ & Hsum & _ & Hsolids & _).
  assert (H : 5 # 10000
              <= building_layer_thickness_m default_settings
                 - road_indent_of default_settings)
    by (vm_compute; discriminate).
  split; [split; [exact H | exact (Hsum H)] |].
  destruct (@_build_building_layer Reference.geometry Reference.kernel
              (Reference.square (-1) (-1) 1 1) (GCollection [])
              [([Reference.rectangle 0 0 (1 # 10) (1 # 10)], 1 # 100)] []
              default_settings) as [mesh | e] eqn:E;
    [| vm_compute in E; discriminate E].
  exists mesh. split; [reflexivity |].
  apply (Hsolids _ _ _ _ _ E). split; [vm_compute; discriminate |].
  right. right.
  exists [Reference.rectangle 0 0 (1 # 10) (1 # 10)].
  split; [now left |]. split; [now left |]. split; [reflexivity |].
  split; [| reflexivity].
  intro Hz. vm_compute in Hz. discriminate Hz.
Defined.

(** ** The home building *)

Lemma min_by_from_spec {A} (key : A -> Q) (rest : list A) (best : A) :
  let r := min_by_from key best rest in
  (r = best \/ In r rest)
  /\ key r <= key best
  /\ (forall x, In x rest -> key r <= key x).
Proof.
  revert best. induction rest as [| x rest IH]; intro best; simpl.
  - split; [now left |]. split; [lra | intros ? []].
  - destruct (IH (if Qltb (key x) (key best) then x else best))
      as (Hmem & Hbest & Hrest).
    destruct (Qltb (key x) (key best)) eqn:E.
    + apply Qltb_true in E. split; [| split].
      * destruct Hmem as [-> | Hin]; [right; now left | right; now right].
      * lra.
      * intros y [<- | Hy]; [exact Hbest | now apply Hrest].
    + apply Qltb_false in E. split; [| split].
      * destruct Hmem as [-> | Hin]; [now left | right; now right].
      * exact Hbest.
      * intros y [<- | Hy]; [lra | now apply Hrest].
Qed.

Lemma min_by_spec {A} (key : A -> Q) (items : list A) :
  items <> [] ->
  exists r, min_by key items = Some r /\ In r items
            /\ forall x, In x items -> key r <= key x.
Proof.
  destruct items as [| x rest]; [congruence | intros _]. simpl.
  destruct (min_by_from_spec key rest x) as (Hmem & Hbest & Hrest).
  eexists. split; [reflexivity |]. split.
  - destruct Hmem as [-> | Hin]; [now left | now right].
  - intros y [<- | Hy]; [exact Hbest | now apply Hrest].
Qed.

Section HomeBuilding.

Context {GA : GeometryAlgebra}.

(** C2: on a non-empty list a building whose geographic polygon contains
    the query point is chosen whenever there is one, whatever the centroid
    distances; when none contains the point the chosen building has the
    least centroid distance of the list; on the empty list the result is
    [None], no error, and with no home building the building loop sets
    no home polygons and no home height aside, so that the prepared
    geometries carry none and the guard of the highlight layer is false. *)
Theorem identify_home_building_spec
    (buildings : list BuildingFootprint) (point : Coord) :
  (buildings <> [] ->
   (exists b, In b buildings /\ contains (polygon_wgs84 b) point = true) ->
   exists h, _identify_home_building buildings point = Some h
             /\ In h buildings
             /\ contains (polygon_wgs84 h) point = true)
  /\ (buildings <> [] ->
      (forall b, In b buildings -> contains (polygon_wgs84 b) point = false) ->
      exists h, _identify_home_building buildings point = Some h
                /\ In h buildings
                /\ forall b, In b buildings ->
                     centroid_distance (polygon_wgs84 h) point
                     <= centroid_distance (polygon_wgs84 b) point)
  /\ _identify_home_building [] point = None
  /\ (forall circle_world ox oy k bs,
        let st := building_loop circle_world ox oy k None bs in
        loop_home_polygons st = [] /\ loop_home_height st = None)
  /\ (forall roads parks waters circle_world base_circle ox oy k s prep
             request,
        _prepare_geometries buildings roads parks waters circle_world
          base_circle ox oy k None s = Ok prep ->
        home_polygons prep = [] /\ home_height prep = None
        /\ highlight_wanted s request prep = false).
Proof.
  unfold _identify_home_building.
  split; [| split; [| split; [| split]]].
  - intros _ [b [Hb Hc]].
    destruct (filter (fun fp => contains (polygon_wgs84 fp) point) buildings)
      as [| first rest] eqn:E.
    + assert (Hin : In b (filter (fun fp => contains (polygon_wgs84 fp) point)
                                 buildings))
        by (apply filter_In; now split).
      rewrite E in Hin. contradiction.
    + assert (Hin : In first
                      (filter (fun fp => contains (polygon_wgs84 fp) point)
                              buildings))
        by (rewrite E; now left).
      apply filter_In in Hin. exists first. now split.
  - intros Hne Hnone.
    destruct (filter (fun fp => contains (polygon_wgs84 fp) point) buildings)
      as [| first rest] eqn:E.
    + apply (min_by_spec
               (fun fp => centroid_distance (polygon_wgs84 fp) point)) in Hne.
      exact Hne.
    + assert (Hin : In first
                      (filter (fun fp => contains (polygon_wgs84 fp) point)
                              buildings))
        by (rewrite E; now left).
      apply filter_In in Hin. destruct Hin as [Hin Hc].
      rewrite (Hnone first Hin) in Hc. discriminate.
  - reflexivity.
  - intros cw ox oy k bs. apply building_loop_no_home.
  - intros roads parks waters cw bc ox oy k s prep request Hprep.
    apply prepare_geometries_ok in Hprep. cbv zeta in Hprep.
    destruct Hprep as (_ & _ & _ & _ & _ & _ & _ & _ & _ & Hhome & Hheight).
    destruct (building_loop_no_home cw ox oy k buildings) as [Hp Hh].
    rewrite Hp in Hhome. rewrite Hh in Hheight.
    repeat split; [exact Hhome | exact Hheight |].
    unfold highlight_wanted. rewrite Hhome. simpl.
    now rewrite andb_false_r.
Qed.

End HomeBuilding.

Lemma identify_home_building_spec_witness :
  (exists h,
     @_identify_home_building Reference.geometry
       [Reference.side_house; Reference.wide_hall] (0, 0) = Some h
     /\ @contains Reference.geometry (polygon_wgs84 h) (0, 0) = true)
  /\ @centroid_distance Reference.geometry
       (polygon_wgs84 Reference.side_house) (0, 0)
     < @centroid_distance Reference.geometry
         (polygon_wgs84 Reference.wide_hall) (0, 0)
  /\ (exists h,
        @_identify_home_building Reference.geometry
          [Reference.neighbour; Reference.side_house] (0, 0) = Some h
        /\ forall b, In b [Reference.neighbour; Reference.side_house] ->
             @centroid_distance Reference.geometry (polygon_wgs84 h) (0, 0)
             <= @centroid_distance Reference.geometry (polygon_wgs84 b) (0, 0)).
Proof.
  split; [| split].
  - destruct (proj1 (@identify_home_building_spec Reference.geometry
                       [Reference.side_house; Reference.wide_hall] (0, 0)))
      as (h & Hsel & _ & Hc).
    + discriminate.
    + exists Reference.wide_hall.
      split; [right; now left | vm_compute; reflexivity].
    + exists h. now split.
  - vm_compute. reflexivity.
  - destruct (proj1 (proj2 (@identify_home_building_spec Reference.geometry
                              [Reference.neighbour; Reference.side_house]
                              (0, 0))))
      as (h & Hsel & _ & Hmin).
    + discriminate.
    + intros b [<- | [<- | []]]; vm_compute; reflexivity.
    + exists h. now split.
Defined.

(** ** Failure of scene construction *)

Lemma flat_map_nil {A B} (f : A -> list B) (l : list A) :
  flat_map f l = [] <-> forall x, In x l -> f x = [].
Proof.
  induction l as [| a l IH]; simpl.
  - split; [intros _ ? [] | reflexivity].
  - split.
    + intro H. apply app_eq_nil in H. destruct H as [Ha Hl].
      intros x [<- | Hx]; [exact Ha | now apply IH].
    + intro H. rewrite (H a) by now left. simpl. apply IH.
      intros x Hx. apply H. now right.
Qed.


Lemma is_ok_true {A} (m : Result A) :
  is_ok m = true <-> exists a, m = Ok a.
Proof.
  destruct m as [a | e]; simpl; split; try congruence.
  - intros _. now exists a.
  - intros [a H]. discriminate.
Qed.


Section SceneFailure.

Context {GA : GeometryAlgebra} {CP : CoordinateProjector} {MK : MeshKernel}.

Lemma build_scene_context_is_ok (s : Settings) (request : ModelRequest)
    (buildings : list BuildingFootprint) (roads : list RoadFeature)
    (parks : list ParkFeature) (waters : list WaterFeature) :
  let o := project_point (longitude request) (latitude request) in
  is_ok (_build_scene_context s request buildings roads parks waters)
  = truthy_list
      (flat_map
         (footprint_polygons
            (point_buffer o (inject_Z (radius_meters request)) 96)
            (fst o) (snd o) (scale_factor_of s request))
         buildings).
Proof.
  cbv zeta. unfold _build_scene_context.
  destruct (project_point (longitude request) (latitude request))
    as [ox oy]. simpl fst. simpl snd.
  rewrite <- prepare_geometries_raises
    with (roads := roads) (parks := parks) (waters := waters)
         (bc := point_buffer (0, 0) (print_radius_of s) 128)
         (home := _identify_home_building buildings
                    (longitude request, latitude request))
         (s := s).
  match goal with
  | |- is_ok (bind ?m _) = _ => now destruct m
  end.
Qed.

Lemma generate_preview_data_is_ok (s : Settings) (request : ModelRequest)
    (buildings : list BuildingFootprint) (roads : list RoadFeature)
    (parks : list ParkFeature) (waters : list WaterFeature) :
  is_ok (generate_preview_data s request buildings roads parks waters)
  = is_ok (_build_scene_context s request buildings roads parks waters).
Proof.
  unfold generate_preview_data.
  destruct buildings as [| b rest]; simpl.
  - rewrite build_scene_context_is_ok. reflexivity.
  - now destruct (_build_scene_context s request (b :: rest) roads parks
                    waters).
Qed.


End SceneFailure.


(** ** Laws met by the reference reading *)

Lemma existsb_Qle_trans (f g : Coord -> Q) (cs cs' : list Coord) (v : Coord)
    (dir : bool) :
  (forall a, In a cs ->
     existsb (fun b => if dir then Qle_bool (g b) (f a)
                       else Qle_bool (f a) (g b)) cs' = true) ->
  existsb (fun a => if dir then Qle_bool (f a) (f v)
                    else Qle_bool (f v) (f a)) cs = true ->
  existsb (fun b => if dir then Qle_bool (g b) (f v)
                    else Qle_bool (f v) (g b)) cs' = true.
Proof.
  intros Hall Hex. apply existsb_exists in Hex. destruct Hex as [a [Ha Hle]].
  specialize (Hall a Ha). apply existsb_exists in Hall.
  destruct Hall as [b [Hb Hle']]. apply existsb_exists. exists b.
  split; [exact Hb |].
  destruct dir; apply Qle_bool_iff in Hle; apply Qle_bool_iff in Hle';
    apply Qle_bool_iff; lra.
Qed.

Lemma spans_inside (p q : Polygon) (v : Coord) :
  Reference.inside p q = true ->
  Reference.spans (Reference.polygon_coords p) v = true ->
  Reference.spans (Reference.polygon_coords q) v = true.
Proof.
  unfold Reference.inside, Reference.spans. intros Hin Hsp.
  rewrite forallb_forall in Hin.
  apply andb_true_iff in Hsp. destruct Hsp as [Hsp H4].
  apply andb_true_iff in Hsp. destruct Hsp as [Hsp H3].
  apply andb_true_iff in Hsp. destruct Hsp as [H1 H2].
  assert (Hq : forall a, In a (Reference.polygon_coords p) ->
     existsb (fun b => Qle_bool (fst b) (fst a)) (Reference.polygon_coords q)
       = true
     /\ existsb (fun b => Qle_bool (fst a) (fst b)) (Reference.polygon_coords q)
        = true
     /\ existsb (fun b => Qle_bool (snd b) (snd a)) (Reference.polygon_coords q)
        = true
     /\ existsb (fun b => Qle_bool (snd a) (snd b)) (Reference.polygon_coords q)
        = true).
  { intros a Ha. specialize (Hin a Ha).
    apply andb_true_iff in Hin. destruct Hin as [Hin G4].
    apply andb_true_iff in Hin. destruct Hin as [Hin G3].
    apply andb_true_iff in Hin. destruct Hin as [G1 G2]. now repeat split. }
  repeat (apply andb_true_iff; split).
  - apply (existsb_Qle_trans fst fst (Reference.polygon_coords p) _ v true);
      [intros a Ha; apply (Hq a Ha) | exact H1].
  - apply (existsb_Qle_trans fst fst (Reference.polygon_coords p) _ v false);
      [intros a Ha; apply (Hq a Ha) | exact H2].
  - apply (existsb_Qle_trans snd snd (Reference.polygon_coords p) _ v true);
      [intros a Ha; apply (Hq a Ha) | exact H3].
  - apply (existsb_Qle_trans snd snd (Reference.polygon_coords p) _ v false);
      [intros a Ha; apply (Hq a Ha) | exact H4].
Qed.

Lemma iter_polygons_shape (ps : list Polygon) :
  _iter_polygons (Reference.shape ps)
  = filter (fun p => negb (polygon_is_empty p)) ps.
Proof.
  unfold Reference.shape.
  assert (Hne : forall q,
            In q (filter (fun p => negb (polygon_is_empty p)) ps) ->
            polygon_is_empty q = false).
  { intros q Hq. apply filter_In in Hq. now apply negb_true_iff. }
  destruct (filter (fun p => negb (polygon_is_empty p)) ps)
    as [| p1 [| p2 rest]] eqn:E.
  - reflexivity.
  - unfold _iter_polygons. simpl. now rewrite (Hne p1) by now left.
  - unfold _iter_polygons. simpl.
    rewrite (Hne p1) by now left. simpl.
    rewrite (Hne p2) by (right; now left). simpl.
    f_equal. f_equal.
    assert (Hrest : forall q, In q rest -> polygon_is_empty q = false)
      by (intros q Hq; apply Hne; right; now right).
    clear E Hne. induction rest as [| q rest IH]; simpl; [reflexivity |].
    rewrite (Hrest q) by now left. simpl. f_equal. apply IH.
    intros q' Hq'. apply Hrest. now right.
Qed.

Lemma box_intersection_parts (a b : Geometry) (p : Polygon) :
  In p (_iter_polygons (Reference.box_intersection a b)) ->
  In p (_iter_polygons a)
  /\ exists q, In q (_iter_polygons b) /\ Reference.inside p q = true.
Proof.
  unfold Reference.box_intersection. rewrite iter_polygons_shape.
  intro H. apply filter_In in H. destruct H as [H _].
  apply filter_In in H. destruct H as [Ha Hex].
  apply existsb_exists in Hex. now split.
Qed.

Lemma box_difference_parts (a b : Geometry) (p : Polygon) :
  In p (_iter_polygons (Reference.box_difference a b)) ->
  In p (_iter_polygons a).
Proof.
  unfold Reference.box_difference. destruct (is_empty b); [tauto |].
  rewrite iter_polygons_shape.
  intro H. apply filter_In in H. destruct H as [H _].
  now apply filter_In in H.
Qed.

Lemma box_covers_intersection (a b : Geometry) (v : Coord) :
  Reference.box_covers (Reference.box_intersection a b) v ->
  Reference.box_covers b v.
Proof.
  intros [p [Hp Hsp]]. apply box_intersection_parts in Hp.
  destruct Hp as [_ [q [Hq Hin]]]. exists q. split; [exact Hq |].
  now apply (spans_inside p q).
Qed.

Lemma box_covers_empty (g : Geometry) (v : Coord) :
  is_empty g = true -> ~ Reference.box_covers g v.
Proof.
  intros He [p [Hp _]]. now rewrite iter_polygons_empty in Hp.
Qed.

Lemma box_point_buffer_nonempty (c : Coord) (r : Q) (n : nat) :
  0 < r -> polygon_is_empty (Reference.box_point_buffer c r n) = false.
Proof.
  intro H. unfold Reference.box_point_buffer.
  apply Qltb_true in H. now rewrite H.
Qed.

Lemma box_difference_empty_r (a b : Geometry) :
  is_empty b = true -> Reference.box_difference a b = a.
Proof. intro H. unfold Reference.box_difference. now rewrite H. Qed.

(** ** Land, parks and the building base *)

Section LandAndParks.

Context {GA : GeometryAlgebra} {CP : CoordinateProjector}.

Lemma land_of_nonempty (bc : Polygon) (wu : Geometry) :
  polygon_is_empty bc = false -> is_empty (land_of bc wu) = false.
Proof.
  intro H. unfold land_of.
  destruct (is_empty (if negb (is_empty wu)
                      then difference (GPolygon bc) wu
                      else GPolygon bc)) eqn:E; [exact H | exact E].
Qed.

Lemma building_base_of_nonempty (land pu : Geometry) :
  is_empty land = false -> is_empty (building_base_of land pu) = false.
Proof.
  intro H. unfold building_base_of.
  destruct (is_empty (if negb (is_empty pu) then difference land pu
                      else land)) eqn:E; [exact H | exact E].
Qed.

Lemma scene_base_circle (s : Settings) (request : ModelRequest)
    (buildings : list BuildingFootprint) (roads : list RoadFeature)
    (parks : list ParkFeature) (waters : list WaterFeature)
    (ctx : SceneContext) :
  _build_scene_context s request buildings roads parks waters = Ok ctx ->
  base_circle (prepared ctx) = point_buffer (0, 0) (print_radius_of s) 128
  /\ land_no_water (prepared ctx)
     = land_of (base_circle (prepared ctx)) (water_union (prepared ctx))
  /\ building_base (prepared ctx)
     = building_base_of (land_no_water (prepared ctx))
         (park_union (prepared ctx)).
Proof.
  intro Hctx. apply build_scene_context_ok in Hctx.
  destruct Hctx as (_ & _ & _ & _ & Hprep).
  apply prepare_geometries_ok in Hprep. cbv zeta in Hprep.
  destruct Hprep as (_ & Hbc & _ & Hland & _ & _ & Hbb & _).
  split; [exact Hbc |]. split; [| exact Hbb].
  now rewrite Hland, Hbc.
Qed.

(** C5: with a water union that is not empty the land region is the base
    circle less the water union, and the base circle itself when that
    difference is empty; with no water it is the base circle, which is
    what the difference gives when a difference with an empty geometry
    returns its first operand.  The building base is obtained from the
    land and the park union in the same way.  A point buffer of positive
    radius not being empty, neither region is ever empty. *)
Theorem land_and_building_base_fallback (s : Settings) (request : ModelRequest)
    (buildings : list BuildingFootprint) (roads : list RoadFeature)
    (parks : list ParkFeature) (waters : list WaterFeature)
    (ctx : SceneContext) :
  (forall c r n, 0 < r -> polygon_is_empty (point_buffer c r n) = false) ->
  _build_scene_context s request buildings roads parks waters = Ok ctx ->
  let prep := prepared ctx in
  let base := GPolygon (base_circle prep) in
  let water := water_union prep in
  let land := land_no_water prep in
  let park := park_union prep in
  let or_fallback (d fallback : Geometry) :=
    if is_empty d then fallback else d in
  (is_empty water = false -> land = or_fallback (difference base water) base)
  /\ (is_empty water = true -> land = base)
  /\ (is_empty park = false ->
      building_base prep = or_fallback (difference land park) land)
  /\ (is_empty park = true -> building_base prep = land)
  /\ ((forall a b, is_empty b = true -> difference a b = a) ->
      land = or_fallback (difference base water) base
      /\ building_base prep = or_fallback (difference land park) land)
  /\ is_empty land = false
  /\ is_empty (building_base prep) = false.
Proof.
  intros Hbuf Hctx. cbv zeta.
  destruct (scene_base_circle _ _ _ _ _ _ Hctx) as (Hbc & Hland & Hbb).
  assert (Hbase : polygon_is_empty (base_circle (prepared ctx)) = false).
  { rewrite Hbc. apply Hbuf. apply print_radius_pos. }
  assert (Hl : is_empty (land_no_water (prepared ctx)) = false).
  { rewrite Hland. now apply land_of_nonempty. }
  split; [| split; [| split; [| split; [| split; [| split]]]]].
  - intro Hw. rewrite Hland at 1. unfold land_of. now rewrite Hw.
  - intro Hw. rewrite Hland at 1. unfold land_of. rewrite Hw. simpl.
    now rewrite Hbase.
  - intro Hp. rewrite Hbb. unfold building_base_of. now rewrite Hp.
  - intro Hp. rewrite Hbb. unfold building_base_of. rewrite Hp. simpl.
    now rewrite Hl.
  - intro Hdiff. split.
    + rewrite Hland at 1. unfold land_of.
      destruct (is_empty (water_union (prepared ctx))) eqn:Hw; simpl;
        [| reflexivity].
      rewrite (Hdiff _ _ Hw). simpl. now rewrite Hbase.
    + rewrite Hbb. unfold building_base_of.
      destruct (is_empty (park_union (prepared ctx))) eqn:Hp; simpl;
        [| reflexivity].
      rewrite (Hdiff _ _ Hp). now rewrite Hl.
  - exact Hl.
  - rewrite Hbb. now apply building_base_of_nonempty.
Qed.

(** C6: the park union is the union of the park polygons clipped to the
    land region of the same prepared geometries.  For a reading [covers]
    of geometries as point sets in which an intersection lies within its
    second operand and an empty geometry covers no point, every point of
    the park union is a point of the land region. *)
Theorem park_union_within_land (covers : Geometry -> Coord -> Prop)
    (s : Settings) (request : ModelRequest)
    (buildings : list BuildingFootprint) (roads : list RoadFeature)
    (parks : list ParkFeature) (waters : list WaterFeature)
    (ctx : SceneContext) :
  (forall a b v, covers (intersection a b) v -> covers b v) ->
  (forall g v, is_empty g = true -> ~ covers g v) ->
  _build_scene_context s request buildings roads parks waters = Ok ctx ->
  let prep := prepared ctx in
  park_union prep
  = _clip_to_circle
      (_union_geometries
         (park_polygons_of s (origin_x ctx) (origin_y ctx) (scale_factor ctx)
            parks))
      (land_no_water prep)
  /\ forall v, covers (park_union prep) v -> covers (land_no_water prep) v.
Proof.
  intros Hinter Hempty Hctx. cbv zeta.
  apply build_scene_context_ok in Hctx.
  destruct Hctx as (Hs & _ & _ & _ & Hprep).
  apply prepare_geometries_ok in Hprep. cbv zeta in Hprep.
  destruct Hprep as (_ & _ & _ & _ & Hpu & _).
  split; [exact Hpu |].
  intros v Hv. rewrite Hpu in Hv. unfold _clip_to_circle in Hv.
  destruct (is_empty
              (_union_geometries
                 (park_polygons_of s (origin_x ctx) (origin_y ctx)
                    (scale_factor ctx) parks))).
  - exfalso. now apply (Hempty GeometryCollection_empty v).
  - now apply Hinter in Hv.
Qed.

End LandAndParks.

Lemma land_and_building_base_fallback_witness :
  exists ctx,
    @_build_scene_context Reference.geometry Reference.projector
      default_settings Reference.request_100
      [Reference.house; Reference.neighbour] [Reference.street]
      [Reference.lawn] [Reference.pond] = Ok ctx
    /\ is_empty (land_no_water (prepared ctx)) = false
    /\ is_empty (building_base (prepared ctx)) = false.
Proof.
  eexists. split; [vm_compute; reflexivity |].
  refine (proj2 (proj2 (proj2 (proj2 (proj2
            (@land_and_building_base_fallback Reference.geometry
               Reference.projector default_settings Reference.request_100
               [Reference.house; Reference.neighbour] [Reference.street]
               [Reference.lawn] [Reference.pond] _ _ _)))))).
  - exact box_point_buffer_nonempty.
  - vm_compute. reflexivity.
Defined.

Lemma park_union_within_land_witness :
  exists ctx,
    @_build_scene_context Reference.geometry Reference.projector
      default_settings Reference.request_100
      [Reference.house; Reference.neighbour] [Reference.street]
      [Reference.lawn] [Reference.pond] = Ok ctx
    /\ is_empty (park_union (prepared ctx)) = false
    /\ forall v, Reference.box_covers (park_union (prepared ctx)) v ->
                 Reference.box_covers (land_no_water (prepared ctx)) v.
Proof.
  eexists. split; [vm_compute; reflexivity |].
  split; [vm_compute; reflexivity |].
  refine (proj2 (@park_union_within_land Reference.geometry
                   Reference.projector Reference.box_covers
                   default_settings Reference.request_100
                   [Reference.house; Reference.neighbour] [Reference.street]
                   [Reference.lawn] [Reference.pond] _ _ _ _)).
  - exact box_covers_intersection.
  - exact box_covers_empty.
  - vm_compute. reflexivity.
Defined.

(** ** Previews *)

Section Previews.

Context {GA : GeometryAlgebra} {CP : CoordinateProjector}.

Lemma generate_preview_data_ok (s : Settings) (request : ModelRequest)
    (buildings : list BuildingFootprint) (roads : list RoadFeature)
    (parks : list ParkFeature) (waters : list WaterFeature)
    (meta : ModelMetadata) (previews : list LayerPreview) :
  generate_preview_data s request buildings roads parks waters
  = Ok (meta, previews) ->
  exists ctx,
    _build_scene_context s request buildings roads parks waters = Ok ctx
    /\ previews
       = _create_layer_previews (prepared ctx) (print_radius_of s) s
    /\ scale_ratio meta = scale_factor ctx.
Proof.
  unfold generate_preview_data.
  destruct (truthy_list buildings); simpl; [| discriminate].
  destruct (_build_scene_context s request buildings roads parks waters)
    as [ctx | e] eqn:E; simpl; [| discriminate].
  intro H. inversion H; subst; clear H.
  exists ctx. split; [reflexivity |].
  apply build_scene_context_ok in E.
  destruct E as (Hs & _ & _ & Hr & _). now rewrite Hs, Hr.
Qed.

(** The first two previews are the water layer and the green layer. *)
Lemma create_layer_previews_head (prep : PreparedGeometries) (r : Q)
    (s : Settings) :
  exists water green rest,
    _create_layer_previews prep r s = water :: green :: rest
    /\ preview_name water = "water_layer"%string
    /\ base_paths water = _geometry_to_paths (GPolygon (base_circle prep)) r
    /\ feature_paths water = _geometry_to_paths (water_union prep) r
    /\ preview_name green = "green_layer"%string
    /\ base_paths green = _geometry_to_paths (land_no_water prep) r
    /\ feature_paths green = _geometry_to_paths (park_union prep) r.
Proof.
  unfold _create_layer_previews.
  destruct (truthy_list (home_polygons prep)); simpl;
    do 3 eexists; (split; [reflexivity |]); now repeat split.
Qed.

Lemma geometry_to_paths_nil (g : Geometry) (r : Q) :
  _geometry_to_paths g r = [] <-> _iter_polygons g = [].
Proof.
  unfold _geometry_to_paths. destruct (is_empty g) eqn:E.
  - rewrite (iter_polygons_empty g E). tauto.
  - destruct (_iter_polygons g); simpl; split; congruence.
Qed.

Lemma park_polygons_collapse (s : Settings) (ox oy k : Q)
    (parks : list ParkFeature) :
  0 < py_max (park_indent_shrink_m s * k) 0 ->
  (forall feature polygon,
     In feature parks ->
     In polygon
        (_iter_polygons
           (_to_local_scaled (park_polygon_projected feature) ox oy k)) ->
     is_empty (buffer (GPolygon polygon)
                 (- py_max (park_indent_shrink_m s * k) 0)) = true) ->
  park_polygons_of s ox oy k parks = [].
Proof.
  intros Hpos Hall. unfold park_polygons_of.
  apply flat_map_nil. intros feature Hf.
  apply flat_map_nil. intros polygon Hp.
  apply Qltb_true in Hpos. rewrite Hpos.
  apply iter_polygons_empty. now apply (Hall feature).
Qed.

(** C9: every park polygon is moved to local scaled space and, the
    scaled margin being positive, shrunk by it; a polygon the shrink
    leaves empty adds nothing to the park polygons and raises nothing
    (the preview is returned for the park list exactly when it is for no
    parks at all).  When every park polygon is consumed, the park
    polygons are none, and the green layer preview, second in the list,
    has no feature path and at least one base path. *)
Theorem collapsed_parks_preview (s : Settings) (request : ModelRequest)
    (buildings : list BuildingFootprint) (roads : list RoadFeature)
    (parks : list ParkFeature) (waters : list WaterFeature)
    (meta : ModelMetadata) (previews : list LayerPreview) :
  let o := project_point (longitude request) (latitude request) in
  let k := scale_factor_of s request in
  let park_shrink := py_max (park_indent_shrink_m s * k) 0 in
  (forall c r n, 0 < r -> polygon_is_empty (point_buffer c r n) = false) ->
  (forall p b, is_empty (difference (GPolygon p) b) = false ->
               _iter_polygons (difference (GPolygon p) b) <> []) ->
  generate_preview_data s request buildings roads parks waters
  = Ok (meta, previews) ->
  0 < park_shrink ->
  (forall feature polygon,
     In feature parks ->
     In polygon
        (_iter_polygons
           (_to_local_scaled (park_polygon_projected feature)
              (fst o) (snd o) k)) ->
     is_empty (buffer (GPolygon polygon) (- park_shrink)) = true) ->
  park_polygons_of s (fst o) (snd o) k parks = []
  /\ is_ok (generate_preview_data s request buildings roads parks waters)
     = is_ok (generate_preview_data s request buildings roads [] waters)
  /\ exists water green rest,
       previews = water :: green :: rest
       /\ preview_name green = "green_layer"%string
       /\ feature_paths green = []
       /\ base_paths green <> [].
Proof.
  cbv zeta. intros Hbuf Hpoly Hgen Hpos Hall.
  pose proof (park_polygons_collapse s _ _ _ parks Hpos Hall) as Hnone.
  split; [exact Hnone |]. split.
  { rewrite !generate_preview_data_is_ok, !build_scene_context_is_ok.
    reflexivity. }
  apply generate_preview_data_ok in Hgen.
  destruct Hgen as (ctx & Hctx & Hprev & _).
  destruct (create_layer_previews_head (prepared ctx) (print_radius_of s) s)
    as (water & green & rest & Heq & _ & _ & _ & Hname & Hbase & Hfeat).
  exists water, green, rest. rewrite Hprev.
  split; [exact Heq |]. split; [exact Hname |].
  destruct (scene_base_circle _ _ _ _ _ _ Hctx) as (Hbc & Hland & _).
  apply build_scene_context_ok in Hctx.
  destruct Hctx as (_ & Ho & Hk & _ & Hprep).
  apply prepare_geometries_ok in Hprep. cbv zeta in Hprep.
  destruct Hprep as (_ & _ & _ & _ & Hpu & _).
  split.
  - rewrite Hfeat, Hpu, Hk.
    rewrite <- Ho in Hnone. simpl in Hnone. now rewrite Hnone.
  - rewrite Hbase. intro Habs. apply geometry_to_paths_nil in Habs.
    assert (Hbase_ne : polygon_is_empty (base_circle (prepared ctx)) = false).
    { rewrite Hbc. apply Hbuf. apply print_radius_pos. }
    assert (Hcircle : _iter_polygons (GPolygon (base_circle (prepared ctx)))
                      <> []).
    { unfold _iter_polygons. simpl. rewrite Hbase_ne. discriminate. }
    rewrite Hland in Habs. unfold land_of in Habs.
    destruct (is_empty (water_union (prepared ctx))); simpl in Habs.
    + rewrite Hbase_ne in Habs. now apply Hcircle.
    + destruct (is_empty (difference (GPolygon (base_circle (prepared ctx)))
                            (water_union (prepared ctx)))) eqn:Ed.
      * now apply Hcircle.
      * now apply (Hpoly _ _ Ed).
Qed.

End Previews.

Lemma box_difference_polygonal (p : Polygon) (b : Geometry) :
  is_empty (Reference.box_difference (GPolygon p) b) = false ->
  _iter_polygons (Reference.box_difference (GPolygon p) b) <> [].
Proof.
  unfold Reference.box_difference. destruct (is_empty b).
  - intro H. unfold _iter_polygons. rewrite H. discriminate.
  - rewrite iter_polygons_shape. unfold Reference.shape.
    destruct (filter (fun q => negb (polygon_is_empty q))
                (filter
                   (fun q => negb (existsb (Reference.inside q)
                                     (_iter_polygons b)))
                   (_iter_polygons (GPolygon p)))) as [| q qs];
      simpl; [discriminate | intros _; discriminate].
Qed.

(** A scene whose only park is the verge, one metre wide, under the
    default shrink margin of one metre. *)
Lemma collapsed_parks_preview_witness :
  exists meta water green rest,
    @generate_preview_data Reference.geometry Reference.projector
      default_settings Reference.request_100
      [Reference.house; Reference.neighbour] [Reference.street]
      [Reference.verge] [Reference.pond]
    = Ok (meta, water :: green :: rest)
    /\ feature_paths green = []
    /\ base_paths green <> [].
Proof.
  destruct (@generate_preview_data Reference.geometry Reference.projector
              default_settings Reference.request_100
              [Reference.house; Reference.neighbour] [Reference.street]
              [Reference.verge] [Reference.pond])
    as [[meta previews] | e] eqn:E; [| vm_compute in E; discriminate E].
  destruct (@collapsed_parks_preview Reference.geometry Reference.projector
              default_settings Reference.request_100
              [Reference.house; Reference.neighbour] [Reference.street]
              [Reference.verge] [Reference.pond] meta previews)
    as (_ & _ & water & green & rest & Hp & _ & Hf & Hb).
  - exact box_point_buffer_nonempty.
  - exact box_difference_polygonal.
  - exact E.
  - vm_compute. reflexivity.
  - intros feature polygon [<- | []] Hin.
    vm_compute in Hin. destruct Hin as [<- | []]. vm_compute. reflexivity.
  - exists meta, water, green, rest. rewrite Hp. now repeat split.
Defined.

(** ** The archive *)

Section ArchiveFacts.

Context {GA : GeometryAlgebra} {CP : CoordinateProjector} {MK : MeshKernel}.

Lemma build_model_archive_ok (s : Settings) (request : ModelRequest)
    (buildings : list BuildingFootprint) (roads : list RoadFeature)
    (parks : list ParkFeature) (waters : list WaterFeature)
    (out : ArchiveResult) :
  build_model_archive s request buildings roads parks waters = Ok out ->
  exists ctx water_mesh green_mesh building_mesh highlight_mesh,
    _build_scene_context s request buildings roads parks waters = Ok ctx
    /\ _build_building_layer (building_base (prepared ctx))
         (road_union (prepared ctx)) (building_mesh_data (prepared ctx))
         (home_polygons_for_building_layer request (prepared ctx)) s
       = Ok building_mesh
    /\ (highlight_mesh <> None <->
        highlight_wanted s request (prepared ctx) = true)
    /\ layer_meshes_of out
       = [("water_layer"%string, water_mesh);
          ("green_layer"%string, green_mesh);
          ("building_layer"%string, building_mesh)]
         ++ highlight_entry highlight_mesh
    /\ archive out
       = archive_entries (formats request) (layer_meshes_of out)
         ++ [("metadata.json"%string, MetadataPayload (metadata out))]
    /\ highlighted (metadata out)
       = match highlight_mesh with Some _ => true | None => false end.
Proof.
  unfold build_model_archive.
  destruct (truthy_list buildings); simpl; [| discriminate].
  destruct (_build_scene_context s request buildings roads parks waters)
    as [ctx | e] eqn:Ectx; simpl; [| discriminate].
  pose proof (build_scene_context_ok _ _ _ _ _ _ Ectx) as Hs.
  destruct Hs as (Hs & _). rewrite Hs.
  destruct (_build_water_layer (base_circle (prepared ctx))
              (water_union (prepared ctx)) s) as [wm | e]; simpl;
    [| discriminate].
  destruct (_build_green_layer (land_no_water (prepared ctx))
              (park_union (prepared ctx)) s) as [gm | e]; simpl;
    [| discriminate].
  destruct (_build_building_layer (building_base (prepared ctx))
              (road_union (prepared ctx)) (building_mesh_data (prepared ctx))
              (home_polygons_for_building_layer request (prepared ctx)) s)
    as [bm | e] eqn:Eb; simpl; [| discriminate].
  destruct (highlight_wanted s request (prepared ctx)) eqn:Ew.
  - destruct (home_height (prepared ctx)) as [h |] eqn:Eh.
    + destruct (_build_highlight_layer (home_polygons (prepared ctx)) h s)
        as [hm | e]; simpl; [| discriminate].
      intro H. inversion H; subst; clear H. simpl.
      exists ctx, wm, gm, bm, (Some hm).
      repeat split; try reflexivity; try discriminate; auto.
    + exfalso. unfold highlight_wanted in Ew. rewrite Eh in Ew.
      simpl in Ew. now rewrite andb_false_r in Ew.
  - simpl. intro H. inversion H; subst; clear H. simpl.
    exists ctx, wm, gm, bm, None.
    repeat split; try reflexivity; auto; intuition congruence.
Qed.

Lemma highlight_wanted_true (s : Settings) (request : ModelRequest)
    (prep : PreparedGeometries) :
  highlight_wanted s request prep = true
  <-> highlight_home request = true /\ highlight_enabled s = true
      /\ home_polygons prep <> [] /\ truthy_float (home_height prep) = true.
Proof.
  unfold highlight_wanted. rewrite !andb_true_iff.
  assert (Hl : truthy_list (home_polygons prep) = true
               <-> home_polygons prep <> [])
    by (destruct (home_polygons prep); simpl; split; congruence).
  rewrite Hl. tauto.
Qed.

Lemma no_highlight_path (request_formats : list string)
    (wm gm bm : Trimesh) (meta : ModelMetadata) (fmt : string)
    (payload : Payload) :
  ~ In (("layers/" ++ "highlight_layer" ++ "." ++ fmt)%string, payload)
       (archive_entries request_formats
          [("water_layer"%string, wm); ("green_layer"%string, gm);
           ("building_layer"%string, bm)]
        ++ [("metadata.json"%string, MetadataPayload meta)]).
Proof.
  intro H. apply in_app_or in H. destruct H as [H | [H | []]].
  - unfold archive_entries in H. apply in_flat_map in H.
    destruct H as [f [_ H]]. simpl in H.
    destruct H as [H | [H | [H | []]]]; inversion H.
  - inversion H.
Qed.

(** C10: the home polygons are cut out of the building base whenever the
    request asks for the highlight and there are home polygons, with no
    look at [highlight_enabled]; the highlight layer is among the layers
    exactly when, on top of that, [highlight_enabled] is set and the home
    height is a non-zero number.  So with the flag set, home polygons
    present and [highlight_enabled] off, the building layer is put
    together over the base less the home polygons, the layers are the
    water, green and building layers only, no path of the archive names a
    highlight layer, and the metadata says nothing is highlighted. *)
Theorem highlight_void_without_layer (s : Settings) (request : ModelRequest)
    (buildings : list BuildingFootprint) (roads : list RoadFeature)
    (parks : list ParkFeature) (waters : list WaterFeature)
    (out : ArchiveResult) :
  build_model_archive s request buildings roads parks waters = Ok out ->
  exists ctx building_mesh,
    _build_scene_context s request buildings roads parks waters = Ok ctx
    /\ let prep := prepared ctx in
       let void_geom :=
         difference (building_base prep)
           (_union_geometries (home_polygons prep)) in
       In ("building_layer"%string, building_mesh) (layer_meshes_of out)
       /\ (highlight_home request = true -> home_polygons prep <> [] ->
           _combine_meshes
             (slab_meshes void_geom s
              ++ groove_meshes void_geom (road_union prep) s
              ++ building_meshes (building_mesh_data prep) s)
           = Ok building_mesh)
       /\ ((exists m, In ("highlight_layer"%string, m) (layer_meshes_of out))
           <-> highlight_home request = true /\ highlight_enabled s = true
               /\ home_polygons prep <> []
               /\ truthy_float (home_height prep) = true)
       /\ (highlight_home request = true -> home_polygons prep <> [] ->
           highlight_enabled s = false ->
           (exists water_mesh green_mesh,
              layer_meshes_of out
              = [("water_layer"%string, water_mesh);
                 ("green_layer"%string, green_mesh);
                 ("building_layer"%string, building_mesh)])
           /\ (forall fmt payload,
                 ~ In (("layers/" ++ "highlight_layer" ++ "." ++ fmt)%string,
                       payload) (archive out))
           /\ highlighted (metadata out) = false).
Proof.
  intro Hout. apply build_model_archive_ok in Hout.
  destruct Hout as (ctx & wm & gm & bm & hm & Hctx & Hb & Hw & Hl & Ha & Hh).
  exists ctx, bm. split; [exact Hctx |]. cbv zeta.
  split; [| split; [| split]].
  - rewrite Hl. simpl. right. right. now left.
  - intros Hflag Hne. unfold _build_building_layer in Hb.
    destruct (is_empty (building_base (prepared ctx))); [discriminate |].
    unfold home_polygons_for_building_layer in Hb. rewrite Hflag in Hb.
    unfold building_base_geom in Hb.
    destruct (home_polygons (prepared ctx)) as [| q qs] eqn:E;
      [congruence |]. simpl in Hb. exact Hb.
  - rewrite <- highlight_wanted_true, <- Hw. rewrite Hl. split.
    + intros [m Hm]. destruct hm; [discriminate |].
      simpl in Hm. destruct Hm as [Hm | [Hm | [Hm | []]]]; inversion Hm.
    + intro Hsome. destruct hm as [m |]; [| congruence].
      exists m. simpl. do 3 right. now left.
  - intros Hflag Hne Hoff.
    assert (Hnone : hm = None).
    { destruct hm as [m |]; [| reflexivity].
      assert (Hwant : highlight_wanted s request (prepared ctx) = true)
        by (apply Hw; discriminate).
      apply highlight_wanted_true in Hwant. destruct Hwant as (_ & Hon & _).
      congruence. }
    subst hm. simpl in Hl. split; [| split].
    + now exists wm, gm.
    + intros fmt payload. rewrite Ha, Hl. apply no_highlight_path.
    + exact Hh.
Qed.

End ArchiveFacts.

Lemma highlight_void_without_layer_witness :
  exists out ctx,
    @build_model_archive Reference.geometry Reference.projector
      Reference.kernel no_highlight_settings Reference.request_100
      [Reference.house; Reference.neighbour] [Reference.street]
      [Reference.lawn] [Reference.pond] = Ok out
    /\ @_build_scene_context Reference.geometry Reference.projector
         no_highlight_settings Reference.request_100
         [Reference.house; Reference.neighbour] [Reference.street]
         [Reference.lawn] [Reference.pond] = Ok ctx
    /\ home_polygons (prepared ctx) <> []
    /\ List.length (layer_meshes_of out) = 3%nat
    /\ highlighted (metadata out) = false.
Proof.
  destruct (@build_model_archive Reference.geometry Reference.projector
              Reference.kernel no_highlight_settings Reference.request_100
              [Reference.house; Reference.neighbour] [Reference.street]
              [Reference.lawn] [Reference.pond])
    as [out | e] eqn:E; [| vm_compute in E; discriminate E].
  destruct (@highlight_void_without_layer Reference.geometry
              Reference.projector Reference.kernel no_highlight_settings
              Reference.request_100
              [Reference.house; Reference.neighbour] [Reference.street]
              [Reference.lawn] [Reference.pond] out E)
    as (ctx & bm & Hctx & _ & _ & _ & Hcons).
  assert (Hhome : home_polygons (prepared ctx) <> []).
  { vm_compute in Hctx. inversion Hctx; subst; clear Hctx. discriminate. }
  destruct (Hcons eq_refl Hhome eq_refl) as ((wm & gm & Hl) & _ & Hh).
  exists out, ctx. rewrite Hl. now repeat split.
Defined.

(** ** Preview coordinates *)

Lemma iter_polygons_all (g : Geometry) (p : Polygon) :
  In p (_iter_polygons g) -> In p (all_polygons g).
Proof.
  unfold _iter_polygons. destruct (is_empty g); [intros [] |].
  destruct g as [c | cs | q | ps | gs]; simpl; try tauto.
  - intro H. now apply filter_In in H.
  - intro H. apply in_flat_map in H. destruct H as [y [Hy Hp]].
    apply in_flat_map. exists y. split; [exact Hy |].
    destruct y as [c | cs | q | ps | gs']; simpl in *; try contradiction.
    destruct (polygon_is_empty q); simpl in Hp; [contradiction | exact Hp].
Qed.

Lemma normalize_point_in_unit_square (r : Q) (v : Coord) :
  0 < r -> coord_within (0, 0) r v ->
  in_unit_square (_normalize_point (fst v) (snd v) r).
Proof.
  intros Hr (Hx0 & Hx1 & Hy0 & Hy1). simpl in *.
  unfold _normalize_point.
  destruct (Qeq_bool r 0) eqn:E;
    [apply Qeq_bool_iff in E; exfalso; lra |].
  assert (H2r : 0 < 2 * r) by lra.
  assert (Hxa : 0 <= (fst v + r) / (2 * r))
    by (apply Qle_shift_div_l; [exact H2r | lra]).
  assert (Hxb : (fst v + r) / (2 * r) <= 1)
    by (apply Qle_shift_div_r; [exact H2r | lra]).
  assert (Hya : 0 <= (snd v + r) / (2 * r))
    by (apply Qle_shift_div_l; [exact H2r | lra]).
  assert (Hyb : (snd v + r) / (2 * r) <= 1)
    by (apply Qle_shift_div_r; [exact H2r | lra]).
  unfold in_unit_square. simpl. repeat split; lra.
Qed.

Lemma geometry_to_paths_in_unit_square (g : Geometry) (r : Q)
    (path : PolygonPath) :
  0 < r -> geometry_within (0, 0) r g ->
  In path (_geometry_to_paths g r) -> path_in_unit_square path.
Proof.
  intros Hr Hg Hin. unfold _geometry_to_paths in Hin.
  destruct (is_empty g); [contradiction |].
  apply in_map_iff in Hin. destruct Hin as [p [<- Hp]].
  apply iter_polygons_all in Hp. specialize (Hg p Hp).
  split; simpl.
  - intros v Hv. apply in_map_iff in Hv. destruct Hv as [c [<- Hc]].
    apply normalize_point_in_unit_square; [exact Hr |].
    apply (Hg (exterior p)); [now left | exact Hc].
  - intros hole Hh v Hv. apply in_map_iff in Hh.
    destruct Hh as [ring [<- Hring]].
    apply in_map_iff in Hv. destruct Hv as [c [<- Hc]].
    apply normalize_point_in_unit_square; [exact Hr |].
    apply (Hg ring); [now right | exact Hc].
Qed.

Lemma polygon_within_weaken (c : Coord) (r r' : Q) (p : Polygon) :
  r <= r' -> polygon_within c r p -> polygon_within c r' p.
Proof.
  intros Hle Hp ring Hring v Hv.
  destruct (Hp ring Hring v Hv) as (H1 & H2 & H3 & H4).
  unfold coord_within. repeat split; lra.
Qed.

Lemma Qmult_le_compat_l_nonneg (k x y : Q) :
  0 <= k -> x <= y -> k * x <= k * y.
Proof.
  intros Hk Hxy. rewrite (Qmult_comm k x), (Qmult_comm k y).
  now apply Qmult_le_compat_r.
Qed.

(** A polygon within [r] of the origin of the local frame, moved there and
    scaled by [k >= 0], is within [k * r] of [(0, 0)]. *)
Lemma polygon_within_local (ox oy k r : Q) (p : Polygon) :
  0 <= k -> polygon_within (ox, oy) r p ->
  polygon_within (0, 0) (k * r) (polygon_map (local_coord ox oy k) p).
Proof.
  intros Hk Hp ring Hring v Hv.
  assert (Hsrc : exists ring0 v0,
             In ring0 (rings p) /\ In v0 ring0
             /\ v = local_coord ox oy k v0).
  { unfold rings, polygon_map in Hring. simpl in Hring.
    destruct Hring as [<- | Hring].
    - apply in_map_iff in Hv. destruct Hv as [v0 [<- Hv0]].
      exists (exterior p), v0. repeat split; [now left | exact Hv0].
    - apply in_map_iff in Hring. destruct Hring as [ring0 [<- Hr0]].
      apply in_map_iff in Hv. destruct Hv as [v0 [<- Hv0]].
      exists ring0, v0. repeat split; [now right | exact Hv0]. }
  destruct Hsrc as (ring0 & v0 & Hr0 & Hv0 & ->).
  destruct (Hp ring0 Hr0 v0 Hv0) as (H1 & H2 & H3 & H4). simpl in *.
  unfold coord_within, local_coord. simpl.
  assert (Ha : k * (ox - r - ox) <= k * (fst v0 + - ox))
    by (apply Qmult_le_compat_l_nonneg; [exact Hk | lra]).
  assert (Hb : k * (fst v0 + - ox) <= k * (ox + r - ox))
    by (apply Qmult_le_compat_l_nonneg; [exact Hk | lra]).
  assert (Hc : k * (oy - r - oy) <= k * (snd v0 + - oy))
    by (apply Qmult_le_compat_l_nonneg; [exact Hk | lra]).
  assert (Hd : k * (snd v0 + - oy) <= k * (oy + r - oy))
    by (apply Qmult_le_compat_l_nonneg; [exact Hk | lra]).
  repeat split; lra.
Qed.

Section PreviewBounds.

Context {GA : GeometryAlgebra} {CP : CoordinateProjector}.

(** What the bounds rest on: the vertices of a point buffer stay within
    its radius on each axis; an intersection stays within any square
    around its second operand, a difference within any square around its
    first; a union stays within any square around all its inputs. *)
Hypothesis point_buffer_within :
  forall c r n, polygon_within c r (point_buffer c r n).
Hypothesis intersection_within :
  forall a b c r, geometry_within c r b ->
                  geometry_within c r (intersection a b).
Hypothesis difference_within :
  forall a b c r, geometry_within c r a ->
                  geometry_within c r (difference a b).
Hypothesis unary_union_within :
  forall ps c r, (forall p, In p ps -> polygon_within c r p) ->
                 geometry_within c r (unary_union ps).

Lemma empty_collection_within (c : Coord) (r : Q) :
  geometry_within c r GeometryCollection_empty.
Proof. intros p []. Qed.

Lemma polygon_geometry_within (c : Coord) (r : Q) (p : Polygon) :
  polygon_within c r p -> geometry_within c r (GPolygon p).
Proof. intros H q [<- | []]. exact H. Qed.

Lemma clip_to_circle_within (c : Coord) (r : Q) (g circle : Geometry) :
  geometry_within c r circle -> geometry_within c r (_clip_to_circle g circle).
Proof.
  intro H. unfold _clip_to_circle. destruct (is_empty g).
  - apply empty_collection_within.
  - now apply intersection_within.
Qed.

Lemma union_geometries_within (c : Coord) (r : Q) (ps : list Polygon) :
  (forall p, In p ps -> polygon_within c r p) ->
  geometry_within c r (_union_geometries ps).
Proof.
  intro H. unfold _union_geometries.
  destruct (filter (fun geom => negb (polygon_is_empty geom)) ps)
    as [| q qs] eqn:E.
  - apply empty_collection_within.
  - apply unary_union_within. intros p Hp. apply H.
    rewrite <- E in Hp. now apply filter_In in Hp.
Qed.

Lemma land_of_within (r : Q) (bc : Polygon) (wu : Geometry) :
  polygon_within (0, 0) r bc -> geometry_within (0, 0) r (land_of bc wu).
Proof.
  intro H. apply polygon_geometry_within in H. unfold land_of.
  destruct (negb (is_empty wu)).
  - destruct (is_empty (difference (GPolygon bc) wu)); [exact H |].
    now apply difference_within.
  - now destruct (is_empty (GPolygon bc)).
Qed.

Lemma building_base_of_within (r : Q) (land pu : Geometry) :
  geometry_within (0, 0) r land ->
  geometry_within (0, 0) r (building_base_of land pu).
Proof.
  intro H. unfold building_base_of.
  destruct (negb (is_empty pu)).
  - destruct (is_empty (difference land pu)); [exact H |].
    now apply difference_within.
  - now destruct (is_empty land).
Qed.

Lemma footprint_polygons_within (ox oy k radius : Q) (n : nat)
    (fp : BuildingFootprint) (p : Polygon) :
  0 <= k ->
  In p (footprint_polygons (point_buffer (ox, oy) radius n) ox oy k fp) ->
  polygon_within (0, 0) (k * radius) p.
Proof.
  intros Hk Hp. unfold footprint_polygons in Hp.
  set (clipped := intersection (polygon_projected fp)
                    (GPolygon (point_buffer (ox, oy) radius n))) in *.
  assert (Hclip : geometry_within (ox, oy) radius clipped).
  { apply intersection_within. apply polygon_geometry_within.
    apply point_buffer_within. }
  destruct (is_empty clipped); [contradiction |].
  apply filter_In in Hp. destruct Hp as [Hp _].
  rewrite to_local_scaled_coords, iter_polygons_map in Hp.
  apply in_map_iff in Hp. destruct Hp as [p0 [<- Hp0]].
  apply polygon_within_local; [exact Hk |].
  apply Hclip. now apply iter_polygons_all.
Qed.

Lemma scale_factor_bound (s : Settings) (request : ModelRequest) :
  (0 < radius_meters request)%Z -> 0 <= base_padding_m s ->
  0 <= scale_factor_of s request
  /\ scale_factor_of s request * inject_Z (radius_meters request)
     <= print_radius_of s.
Proof.
  intros Hr Hpad.
  assert (HR : 0 < inject_Z (radius_meters request)).
  { unfold Qlt. simpl. lia. }
  pose proof (print_radius_pos s) as Hpr.
  unfold scale_factor_of, base_radius_world_of.
  set (R := inject_Z (radius_meters request)) in *.
  set (pr := print_radius_of s) in *.
  assert (Hd : 0 < R + base_padding_m s) by lra.
  pose proof Hd as Hd'. apply Qltb_true in Hd'. rewrite Hd'.
  assert (Hk : 0 <= pr / (R + base_padding_m s))
    by (apply Qle_shift_div_l; [exact Hd | lra]).
  split; [exact Hk |].
  assert (Hmul : pr / (R + base_padding_m s) * R
                 <= pr / (R + base_padding_m s) * (R + base_padding_m s))
    by (apply Qmult_le_compat_l_nonneg; [exact Hk | lra]).
  assert (Heq : pr / (R + base_padding_m s) * (R + base_padding_m s) == pr)
    by (field; lra).
  lra.
Qed.

Lemma create_layer_previews_in_unit_square (prep : PreparedGeometries)
    (r : Q) (s : Settings) :
  0 < r ->
  polygon_within (0, 0) r (base_circle prep) ->
  geometry_within (0, 0) r (water_union prep) ->
  geometry_within (0, 0) r (land_no_water prep) ->
  geometry_within (0, 0) r (park_union prep) ->
  geometry_within (0, 0) r (building_base prep) ->
  geometry_within (0, 0) r (road_union prep) ->
  (forall polys h, In (polys, h) (building_mesh_data prep) ->
     forall p, In p polys -> polygon_within (0, 0) r p) ->
  (forall p, In p (home_polygons prep) -> polygon_within (0, 0) r p) ->
  forall preview, In preview (_create_layer_previews prep r s) ->
                  preview_in_unit_square preview.
Proof.
  intros Hr Hbc Hwu Hland Hpu Hbb Hru Hdata Hhome preview Hin.
  assert (Hpaths : forall g path,
             geometry_within (0, 0) r g ->
             In path (_geometry_to_paths g r) -> path_in_unit_square path)
    by (intros g path Hg; now apply geometry_to_paths_in_unit_square).
  assert (Hpolys : geometry_within (0, 0) r
                     (_union_geometries
                        (flat_map (fun entry => fst entry)
                           (building_mesh_data prep)))).
  { apply union_geometries_within. intros p Hp.
    apply in_flat_map in Hp. destruct Hp as [[polys h] [He Hp]].
    now apply (Hdata polys h). }
  assert (Hhome_union : geometry_within (0, 0) r
                          (_union_geometries (home_polygons prep)))
    by now apply union_geometries_within.
  apply polygon_geometry_within in Hbc.
  assert (Hcases :
    preview_in_unit_square preview
    \/ In preview []).
  { unfold _create_layer_previews in Hin.
    destruct (truthy_list (home_polygons prep)); simpl in Hin;
      repeat (destruct Hin as [<- | Hin];
              [left; intros path Hp; simpl in Hp;
               repeat (apply in_app_or in Hp; destruct Hp as [Hp | Hp]);
               eauto; contradiction |]);
      now right. }
  destruct Hcases as [H | []]. exact H.
Qed.

(** C7, amended: for a request within the bounds of [ModelRequest] and a
    base padding that is not negative, every coordinate of every path
    (outer rings and holes; base, feature and overlay channels) of every
    layer preview returned by [generate_preview_data] lies in
    [[0,1] x [0,1]]. *)
Theorem preview_coordinates_in_unit_square (s : Settings)
    (request : ModelRequest)
    (buildings : list BuildingFootprint) (roads : list RoadFeature)
    (parks : list ParkFeature) (waters : list WaterFeature)
    (meta : ModelMetadata) (previews : list LayerPreview) :
  valid_request request ->
  0 <= base_padding_m s ->
  generate_preview_data s request buildings roads parks waters
  = Ok (meta, previews) ->
  forall preview, In preview previews -> preview_in_unit_square preview.
Proof.
  intros (_ & _ & _ & _ & Hradius) Hpad Hgen.
  apply generate_preview_data_ok in Hgen.
  destruct Hgen as (ctx & Hctx & -> & _).
  pose proof (print_radius_pos s) as Hpr.
  destruct (scale_factor_bound s request) as [Hk HkR]; [lia | exact Hpad |].
  destruct (scene_base_circle _ _ _ _ _ _ Hctx) as (Hbc & Hland & Hbb).
  apply build_scene_context_ok in Hctx.
  destruct Hctx as (_ & _ & Hsf & _ & Hprep).
  apply prepare_geometries_ok in Hprep. cbv zeta in Hprep.
  destruct Hprep as (_ & _ & Hwu & _ & Hpu & Hru & _ & Hdata & _ & Hhome & _).
  pose proof (building_loop_sources
                (point_buffer (origin_x ctx, origin_y ctx)
                   (inject_Z (radius_meters request)) 96)
                (origin_x ctx) (origin_y ctx) (scale_factor ctx)
                (_identify_home_building buildings
                   (longitude request, latitude request))
                buildings) as [Hsrc Hsrc_home].
  rewrite <- Hsf in Hk, HkR.
  assert (Hbase : polygon_within (0, 0) (print_radius_of s)
                    (base_circle (prepared ctx)))
    by (rewrite Hbc; apply point_buffer_within).
  assert (Hl : geometry_within (0, 0) (print_radius_of s)
                 (land_no_water (prepared ctx)))
    by (rewrite Hland; now apply land_of_within).
  apply create_layer_previews_in_unit_square.
  - exact Hpr.
  - exact Hbase.
  - rewrite Hwu. apply clip_to_circle_within.
    apply polygon_geometry_within. apply point_buffer_within.
  - exact Hl.
  - rewrite Hpu. now apply clip_to_circle_within.
  - rewrite Hbb. now apply building_base_of_within.
  - rewrite Hru. apply clip_to_circle_within.
    apply polygon_geometry_within. apply point_buffer_within.
  - intros polys h Hin p Hp. rewrite Hdata in Hin.
    destruct (Hsrc polys h Hin) as (fp & _ & -> & _).
    apply polygon_within_weaken
      with (2 := @footprint_polygons_within _ _ _ _ _ _ _ Hk Hp).
    exact HkR.
  - intros p Hp. rewrite Hhome in Hp.
    destruct Hsrc_home as (fp & _ & Heq & _).
    { intro Habs. rewrite Habs in Hp. contradiction. }
    rewrite Heq in Hp.
    apply polygon_within_weaken
      with (2 := @footprint_polygons_within _ _ _ _ _ _ _ Hk Hp).
    exact HkR.
Qed.

End PreviewBounds.

(** The reference reading meets the four laws of [PreviewBounds]. *)

Lemma all_polygons_shape (ps : list Polygon) (p : Polygon) :
  In p (all_polygons (Reference.shape ps)) -> In p ps.
Proof.
  unfold Reference.shape.
  destruct (filter (fun q => negb (polygon_is_empty q)) ps)
    as [| p1 [| p2 rest]] eqn:E.
  - intros [].
  - intros [<- | []].
    assert (H : In p1 (filter (fun q => negb (polygon_is_empty q)) ps))
      by (rewrite E; now left).
    now apply filter_In in H.
  - intro H. change (In p (p1 :: p2 :: rest)) in H.
    rewrite <- E in H. now apply filter_In in H.
Qed.

Lemma in_polygon_coords (p : Polygon) (ring : list Coord) (v : Coord) :
  In ring (rings p) -> In v ring -> In v (Reference.polygon_coords p).
Proof.
  intros Hring Hv. unfold Reference.polygon_coords.
  apply in_concat. now exists ring.
Qed.

Lemma polygon_coords_within (c : Coord) (r : Q) (p : Polygon) (a : Coord) :
  polygon_within c r p -> In a (Reference.polygon_coords p) ->
  coord_within c r a.
Proof.
  intros Hp Ha. unfold Reference.polygon_coords in Ha.
  apply in_concat in Ha. destruct Ha as [ring [Hring Ha]].
  now apply (Hp ring).
Qed.

Lemma inside_within (c : Coord) (r : Q) (p q : Polygon) :
  Reference.inside p q = true -> polygon_within c r q -> polygon_within c r p.
Proof.
  intros Hin Hq ring Hring v Hv.
  unfold Reference.inside in Hin. rewrite forallb_forall in Hin.
  specialize (Hin v (@in_polygon_coords p ring v Hring Hv)).
  unfold Reference.spans in Hin.
  apply andb_true_iff in Hin. destruct Hin as [Hin H4].
  apply andb_true_iff in Hin. destruct Hin as [Hin H3].
  apply andb_true_iff in Hin. destruct Hin as [H1 H2].
  apply existsb_exists in H1. destruct H1 as [a1 [Ha1 L1]].
  apply existsb_exists in H2. destruct H2 as [a2 [Ha2 L2]].
  apply existsb_exists in H3. destruct H3 as [a3 [Ha3 L3]].
  apply existsb_exists in H4. destruct H4 as [a4 [Ha4 L4]].
  apply Qle_bool_iff in L1. apply Qle_bool_iff in L2.
  apply Qle_bool_iff in L3. apply Qle_bool_iff in L4.
  destruct (@polygon_coords_within c r q a1 Hq Ha1) as (B1 & _ & _ & _).
  destruct (@polygon_coords_within c r q a2 Hq Ha2) as (_ & B2 & _ & _).
  destruct (@polygon_coords_within c r q a3 Hq Ha3) as (_ & _ & B3 & _).
  destruct (@polygon_coords_within c r q a4 Hq Ha4) as (_ & _ & _ & B4).
  unfold coord_within. repeat split; lra.
Qed.

Lemma box_point_buffer_within (c : Coord) (r : Q) (n : nat) :
  polygon_within c r (Reference.box_point_buffer c r n).
Proof.
  unfold Reference.box_point_buffer. destruct (Qltb 0 r) eqn:E.
  - apply Qltb_true in E. intros ring [<- | []] v Hv. simpl in Hv.
    unfold coord_within.
    destruct Hv as [<- | [<- | [<- | [<- | [<- | []]]]]]; simpl;
      repeat split; lra.
  - intros ring [<- | []] v [].
Qed.

Lemma box_intersection_within (a b : Geometry) (c : Coord) (r : Q) :
  geometry_within c r b ->
  geometry_within c r (Reference.box_intersection a b).
Proof.
  intros Hb p Hp. unfold Reference.box_intersection in Hp.
  apply all_polygons_shape in Hp. apply filter_In in Hp.
  destruct Hp as [_ Hex]. apply existsb_exists in Hex.
  destruct Hex as [q [Hq Hin]].
  apply (@inside_within c r p q Hin). apply Hb. now apply iter_polygons_all.
Qed.

Lemma box_difference_within (a b : Geometry) (c : Coord) (r : Q) :
  geometry_within c r a ->
  geometry_within c r (Reference.box_difference a b).
Proof.
  intros Ha p Hp. unfold Reference.box_difference in Hp.
  destruct (is_empty b); [now apply Ha |].
  apply all_polygons_shape in Hp. apply filter_In in Hp.
  destruct Hp as [Hp _]. apply Ha. now apply iter_polygons_all.
Qed.

Lemma box_unary_union_within (ps : list Polygon) (c : Coord) (r : Q) :
  (forall p, In p ps -> polygon_within c r p) ->
  geometry_within c r (Reference.box_unary_union ps).
Proof.
  intros H p Hp. apply H. now apply all_polygons_shape.
Qed.

Lemma request_100_valid : valid_request Reference.request_100.
Proof.
  unfold valid_request. simpl.
  repeat split; try (unfold Qle; simpl; lia); lia.
Qed.

(** C7 as stated fails: with a base padding of -5 m and a radius of
    100 m the scale factor is [0.1 / 95]; a building between 98 m and
    99 m east of the query point lies inside the world circle and is
    drawn, in the feature channel of the building layer, at horizontal
    coordinates above 1. *)
Lemma preview_coordinates_counterexample :
  exists meta previews,
    @generate_preview_data Reference.geometry Reference.projector
      negative_padding_settings Reference.request_100
      [Reference.house; Reference.rim_building] [] [] []
    = Ok (meta, previews)
    /\ valid_request Reference.request_100
    /\ (exists preview path v,
          In preview previews /\ In path (feature_paths preview)
          /\ In v (outer path) /\ 1 < fst v)
    /\ ~ (forall preview, In preview previews ->
            preview_in_unit_square preview).
Proof.
  do 2 eexists. split; [vm_compute; reflexivity |].
  split; [exact request_100_valid |].
  split.
  - do 3 eexists.
    split; [right; right; left; reflexivity |].
    split; [left; reflexivity |].
    split; [left; reflexivity |]. vm_compute. reflexivity.
  - intro Hall.
    pose proof (Hall _ (or_intror (or_intror (or_introl eq_refl)))) as Hunit.
    unfold preview_in_unit_square in Hunit.
    cbn [base_paths feature_paths overlay_paths app] in Hunit.
    destruct (Hunit _ (or_intror (or_introl eq_refl))) as [Hout _].
    cbn [outer] in Hout.
    destruct (Hout _ (or_introl eq_refl)) as (_ & Hle & _).
    vm_compute in Hle. now apply Hle.
Qed.

Lemma preview_coordinates_in_unit_square_witness :
  exists meta previews,
    @generate_preview_data Reference.geometry Reference.projector
      default_settings Reference.request_100
      [Reference.house; Reference.neighbour] [Reference.street]
      [Reference.lawn] [Reference.pond]
    = Ok (meta, previews)
    /\ List.length previews = 4%nat
    /\ forall preview, In preview previews -> preview_in_unit_square preview.
Proof.
  destruct (@generate_preview_data Reference.geometry Reference.projector
              default_settings Reference.request_100
              [Reference.house; Reference.neighbour] [Reference.street]
              [Reference.lawn] [Reference.pond])
    as [[meta previews] | e] eqn:E; [| vm_compute in E; discriminate E].
  exists meta, previews. split; [reflexivity |]. split.
  - vm_compute in E. inversion E. reflexivity.
  - apply (@preview_coordinates_in_unit_square Reference.geometry
             Reference.projector box_point_buffer_within
             box_intersection_within box_difference_within
             box_unary_union_within default_settings Reference.request_100
             [Reference.house; Reference.neighbour] [Reference.street]
             [Reference.lawn] [Reference.pond] meta previews).
    + exact request_100_valid.
    + vm_compute. discriminate.
    + exact E.
Defined.

(* ================================================================== *)
(** * Further properties of the mesher *)

(** ** Polygons of a geometry and the local frame *)

Section LocalFrameFacts.

Context {GA : GeometryAlgebra}.

(** X1: [_iter_polygons] hands out polygon parts of the geometry and
    never an empty one, and nothing at all for an empty geometry, a point
    or a line; so the two [continue] guards and the emptiness filter of
    the building loop change nothing: a footprint contributes exactly the
    polygons of its clipped, locally scaled geometry. *)
Theorem iter_polygons_gives_nonempty_polygons (g : Geometry) :
  (forall p, In p (_iter_polygons g) ->
     polygon_is_empty p = false /\ In p (all_polygons g))
  /\ (is_empty g = true -> _iter_polygons g = [])
  /\ (forall c, _iter_polygons (GPoint c) = [])
  /\ (forall cs, _iter_polygons (GLineString cs) = [])
  /\ (forall circle_world ox oy k fp,
        footprint_polygons circle_world ox oy k fp
        = _iter_polygons
            (_to_local_scaled
               (intersection (polygon_projected fp) (GPolygon circle_world))
               ox oy k)).
Proof.
  split; [| split; [| split; [| split]]].
  - intros p Hp. split; [now apply (iter_polygons_nonempty g)
                        | now apply iter_polygons_all].
  - apply iter_polygons_empty.
  - reflexivity.
  - intro cs. unfold _iter_polygons. simpl. now destruct cs.
  - intros cw ox oy k fp. unfold footprint_polygons.
    set (clipped := intersection (polygon_projected fp) (GPolygon cw)).
    destruct (is_empty clipped) eqn:E.
    + symmetry. apply iter_polygons_empty.
      rewrite to_local_scaled_coords, is_empty_map. exact E.
    + set (l := _iter_polygons (_to_local_scaled clipped ox oy k)).
      assert (H : forall p, In p l -> negb (polygon_is_empty p) = true).
      { intros p Hp. apply negb_true_iff.
        now apply (iter_polygons_nonempty
                     (_to_local_scaled clipped ox oy k)). }
      clearbody l. induction l as [| q l IH]; simpl; [reflexivity |].
      rewrite (H q) by now left. f_equal. apply IH.
      intros p Hp. apply H. now right.
Qed.

End LocalFrameFacts.

(** X2: the move to the local frame changes coordinates only: a geometry
    is empty after it exactly when it was before, its polygons are the
    images of its polygons, in order, and every polygon keeps the number
    of its holes and of the points of its outer ring. *)
Theorem to_local_scaled_keeps_structure (g : Geometry) (ox oy k : Q) :
  is_empty (_to_local_scaled g ox oy k) = is_empty g
  /\ _iter_polygons (_to_local_scaled g ox oy k)
     = map (polygon_map (local_coord ox oy k)) (_iter_polygons g)
  /\ List.length (_iter_polygons (_to_local_scaled g ox oy k))
     = List.length (_iter_polygons g)
  /\ (forall p, List.length (exterior (polygon_map (local_coord ox oy k) p))
                = List.length (exterior p)
                /\ List.length (interiors (polygon_map (local_coord ox oy k) p))
                   = List.length (interiors p)).
Proof.
  rewrite to_local_scaled_coords.
  split; [apply is_empty_map |].
  split; [apply iter_polygons_map |].
  split.
  - rewrite iter_polygons_map. apply length_map.
  - intro p. unfold polygon_map. simpl. now rewrite !length_map.
Qed.

(** ** Scale factor and print radius *)

(** X3: whatever the configuration and the request, the print radius is
    at least one millimetre and the scale factor is strictly positive:
    nothing is divided by zero and no geometry is collapsed or mirrored
    by the move to local space. *)
Theorem scale_factor_positive (s : Settings) (request : ModelRequest) :
  1 # 1000 <= print_radius_of s
  /\ target_print_diameter_m s / 2 <= print_radius_of s
  /\ 0 < scale_factor_of s request.
Proof.
  split; [apply print_radius_floor |].
  split; [apply py_max_ge_l |].
  pose proof (print_radius_pos s) as Hpr.
  unfold scale_factor_of.
  destruct (Qltb 0 (base_radius_world_of s request)) eqn:E; [| reflexivity].
  apply Qltb_true in E.
  apply Qlt_shift_div_l; [exact E | lra].
Qed.

(** X4: with the default configuration every request within the bounds
    of [ModelRequest] gets the print radius 0.1 and the scale factor
    [0.1 / (radius_meters + 5)], which lies between [0.1 / 2004] and
    [0.1 / 16]. *)
Theorem default_settings_scale_factor (request : ModelRequest) :
  valid_request request ->
  print_radius_of default_settings == 1 # 10
  /\ scale_factor_of default_settings request
     == (1 # 10) / (inject_Z (radius_meters request) + 5)
  /\ (1 # 10) / 2004 <= scale_factor_of default_settings request
  /\ scale_factor_of default_settings request <= (1 # 10) / 16.
Proof.
  intros (_ & _ & _ & _ & Hr).
  assert (Hlo : 11 <= inject_Z (radius_meters request))
    by (unfold Qle; simpl; lia).
  assert (Hhi : inject_Z (radius_meters request) <= 1999)
    by (unfold Qle; simpl; lia).
  assert (Hpr : print_radius_of default_settings == 1 # 10) by reflexivity.
  assert (Hk : scale_factor_of default_settings request
               == (1 # 10) / (inject_Z (radius_meters request) + 5)).
  { unfold scale_factor_of, base_radius_world_of.
    assert (Hpos : 0 < inject_Z (radius_meters request)
                       + base_padding_m default_settings)
      by (simpl; lra).
    apply Qltb_true in Hpos. rewrite Hpos. simpl base_padding_m.
    now rewrite Hpr. }
  split; [exact Hpr |]. split; [exact Hk |].
  rewrite Hk. split.
  - apply Qle_shift_div_l; [lra |].
    assert (H : (1 # 10) / 2004 * (inject_Z (radius_meters request) + 5)
                <= (1 # 10) / 2004 * 2004)
      by (apply Qmult_le_compat_l_nonneg; [discriminate | lra]).
    assert (H' : (1 # 10) / 2004 * 2004 == 1 # 10) by reflexivity.
    lra.
  - apply Qle_shift_div_r; [lra |].
    assert (H : (1 # 10) / 16 * 16
                <= (1 # 10) / 16 * (inject_Z (radius_meters request) + 5))
      by (apply Qmult_le_compat_l_nonneg; [discriminate | lra]).
    assert (H' : (1 # 10) / 16 * 16 == 1 # 10) by reflexivity.
    lra.
Qed.

Lemma default_settings_scale_factor_witness :
  valid_request Reference.request_100
  /\ scale_factor_of default_settings Reference.request_100
     == (1 # 10) / (inject_Z 100 + 5).
Proof.
  split; [exact request_100_valid |].
  exact (proj1 (proj2 (default_settings_scale_factor request_100_valid))).
Defined.

(** ** Preview normalisation, both ways *)

Lemma Qdiv_bounds (a b : Q) :
  0 < b -> (0 <= a / b <-> 0 <= a) /\ (a / b <= 1 <-> a <= b).
Proof.
  intro Hb.
  assert (Heq : a / b * b == a) by (field; lra).
  repeat split; intro H.
  - assert (H' : 0 <= a / b * b)
      by (apply Qmult_le_0_compat; [exact H | lra]).
    lra.
  - apply Qle_shift_div_l; [exact Hb | lra].
  - assert (H' : a / b * b <= 1 * b)
      by (apply Qmult_le_compat_r; [exact H | lra]).
    lra.
  - apply Qle_shift_div_r; [exact Hb | lra].
Qed.

(** X5: for a positive print radius a point is drawn inside the unit
    square exactly when it lies within the radius of the origin on both
    axes: nothing outside the print square is pulled in, nothing inside
    is pushed out. *)
Theorem normalize_point_in_unit_square_iff (x y r : Q) :
  0 < r ->
  (in_unit_square (_normalize_point x y r)
   <-> coord_within (0, 0) r (x, y)).
Proof.
  intro Hr. unfold _normalize_point.
  destruct (Qeq_bool r 0) eqn:E;
    [apply Qeq_bool_iff in E; exfalso; lra |].
  assert (H2r : 0 < 2 * r) by lra.
  destruct (Qdiv_bounds (x + r) H2r) as [Hx0 Hx1].
  destruct (Qdiv_bounds (y + r) H2r) as [Hy0 Hy1].
  unfold in_unit_square, coord_within. simpl. split.
  - intros (A & B & C & D).
    assert (0 <= x + r) by (apply Hx0; exact A).
    assert (x + r <= 2 * r) by (apply Hx1; exact B).
    assert (0 <= y + r) by (apply Hy0; lra).
    assert (y + r <= 2 * r) by (apply Hy1; lra).
    repeat split; lra.
  - intros (A & B & C & D).
    assert (0 <= (x + r) / (2 * r)) by (apply Hx0; lra).
    assert ((x + r) / (2 * r) <= 1) by (apply Hx1; lra).
    assert (0 <= (y + r) / (2 * r)) by (apply Hy0; lra).
    assert ((y + r) / (2 * r) <= 1) by (apply Hy1; lra).
    repeat split; lra.
Qed.

Lemma normalize_point_in_unit_square_iff_witness :
  0 < 1 # 10
  /\ (in_unit_square (_normalize_point (1 # 20) (-1 # 10) (1 # 10))
      <-> coord_within (0, 0) (1 # 10) (1 # 20, -1 # 10)).
Proof.
  split; [reflexivity |].
  apply normalize_point_in_unit_square_iff. reflexivity.
Defined.

Lemma Qdiv_le_compat_pos (a a' b : Q) : 0 < b -> a <= a' -> a / b <= a' / b.
Proof.
  intros Hb Ha. apply Qle_shift_div_l; [exact Hb |].
  assert (Heq : a / b * b == a) by (field; lra). lra.
Qed.

(** X6: for a positive print radius the horizontal coordinate grows with
    [x] and the vertical one falls as [y] grows (the axis is flipped);
    the centre goes to the middle of the square, the upper left corner of
    the print square to [(0, 0)] and the lower right one to [(1, 1)]. *)
Theorem normalize_point_orientation (r : Q) :
  0 < r ->
  (forall x x' y, x <= x' ->
     fst (_normalize_point x y r) <= fst (_normalize_point x' y r))
  /\ (forall x y y', y <= y' ->
        snd (_normalize_point x y' r) <= snd (_normalize_point x y r))
  /\ fst (_normalize_point 0 0 r) == 1 # 2
  /\ snd (_normalize_point 0 0 r) == 1 # 2
  /\ fst (_normalize_point (- r) r r) == 0
  /\ snd (_normalize_point (- r) r r) == 0
  /\ fst (_normalize_point r (- r) r) == 1
  /\ snd (_normalize_point r (- r) r) == 1.
Proof.
  intro Hr. unfold _normalize_point.
  destruct (Qeq_bool r 0) eqn:E;
    [apply Qeq_bool_iff in E; exfalso; lra |].
  assert (H2r : 0 < 2 * r) by lra.
  simpl. repeat split.
  - intros x x' y Hx. apply Qdiv_le_compat_pos; [exact H2r | lra].
  - intros x y y' Hy.
    assert ((y + r) / (2 * r) <= (y' + r) / (2 * r))
      by (apply Qdiv_le_compat_pos; [exact H2r | lra]).
    lra.
  - field. lra.
  - field. lra.
  - field. lra.
  - field. lra.
  - field. lra.
  - field. lra.
Qed.

Lemma normalize_point_orientation_witness :
  0 < 1 # 10 /\ fst (_normalize_point 0 0 (1 # 10)) == 1 # 2.
Proof.
  assert (H : 0 < 1 # 10) by reflexivity.
  split; [exact H |].
  exact (proj1 (proj2 (proj2 (normalize_point_orientation H)))).
Defined.

(** X7: [_geometry_to_paths] loses nothing and invents nothing: an empty
    geometry gives no path; otherwise there is one path per polygon of
    the geometry, in order, each with as many outer points as the
    exterior ring has coordinates and one hole per interior ring, of the
    same length. *)
Theorem geometry_to_paths_keeps_rings (g : Geometry) (r : Q) :
  List.length (_geometry_to_paths g r) = List.length (_iter_polygons g)
  /\ map (fun path => List.length (outer path)) (_geometry_to_paths g r)
     = map (fun p => List.length (exterior p)) (_iter_polygons g)
  /\ map (fun path => map (@List.length Coord) (holes path))
         (_geometry_to_paths g r)
     = map (fun p => map (@List.length Coord) (interiors p))
           (_iter_polygons g)
  /\ (is_empty g = true -> _geometry_to_paths g r = []).
Proof.
  unfold _geometry_to_paths. destruct (is_empty g) eqn:E.
  - rewrite (iter_polygons_empty g E). now repeat split.
  - split; [apply length_map |]. split; [| split; [| discriminate]].
    + rewrite map_map. apply map_ext. intro p. simpl. apply length_map.
    + rewrite map_map. apply map_ext. intro p. simpl.
      rewrite map_map. apply map_ext. intro ring. apply length_map.
Qed.

(** ** Layer meshes *)

Section LayerMeshFacts.

Context {GA : GeometryAlgebra} {MK : MeshKernel}.

Lemma len_vertices_app (m1 m2 : Trimesh) :
  len_vertices (m1 ++ m2) = (len_vertices m1 + len_vertices m2)%nat.
Proof. unfold len_vertices. now rewrite map_app, list_sum_app. Qed.

Lemma len_vertices_concat (meshes : list Trimesh) :
  len_vertices (List.concat meshes) = list_sum (map len_vertices meshes).
Proof.
  induction meshes as [| m rest IH]; simpl; [reflexivity |].
  now rewrite len_vertices_app, IH.
Qed.

Lemma len_vertices_translation (mesh : Trimesh) (dz : Q) :
  len_vertices (apply_translation_z mesh dz) = len_vertices mesh.
Proof.
  unfold len_vertices, apply_translation_z. rewrite map_map. reflexivity.
Qed.

Lemma list_sum_filter_nonzero (meshes : list Trimesh) :
  list_sum
    (map len_vertices
       (filter (fun mesh => negb (Nat.eqb (len_vertices mesh) 0)) meshes))
  = list_sum (map len_vertices meshes).
Proof.
  induction meshes as [| m rest IH]; simpl; [reflexivity |].
  destruct (Nat.eqb (len_vertices m) 0) eqn:E; simpl.
  - apply Nat.eqb_eq in E. now rewrite E, IH.
  - now rewrite IH.
Qed.

Lemma filter_nil_iff {A} (f : A -> bool) (l : list A) :
  filter f l = [] <-> forall x, In x l -> f x = false.
Proof.
  induction l as [| a l IH]; simpl.
  - split; [intros _ ? [] | reflexivity].
  - destruct (f a) eqn:E; split.
    + discriminate.
    + intro H. rewrite (H a) in E by now left. discriminate.
    + intros H x [<- | Hx]; [exact E | now apply IH].
    + intro H. apply IH. intros x Hx. apply H. now right.
Qed.

(** X8: [_combine_meshes] raises exactly when no mesh it is given has a
    vertex; otherwise the mesh it returns has exactly the vertices of its
    inputs, at least one, and is made of the solids of the inputs that
    have vertices. *)
Theorem combine_meshes_spec (meshes : list Trimesh) :
  ((exists e, _combine_meshes meshes = Raise e)
   <-> forall mesh, In mesh meshes -> len_vertices mesh = 0%nat)
  /\ (forall result, _combine_meshes meshes = Ok result ->
        len_vertices result = list_sum (map len_vertices meshes)
        /\ (0 < len_vertices result)%nat
        /\ forall sd, In sd result <->
             exists mesh, In mesh meshes /\ len_vertices mesh <> 0%nat
                          /\ In sd mesh).
Proof.
  unfold _combine_meshes.
  set (keep := fun mesh : Trimesh => negb (Nat.eqb (len_vertices mesh) 0)).
  assert (Hkeep : forall m, keep m = true <-> len_vertices m <> 0%nat).
  { intro m. unfold keep. rewrite negb_true_iff. apply Nat.eqb_neq. }
  assert (Hsum := list_sum_filter_nonzero meshes). fold keep in Hsum.
  assert (Hmem : forall m, In m (filter keep meshes)
                           <-> In m meshes /\ len_vertices m <> 0%nat).
  { intro m. rewrite filter_In, Hkeep. tauto. }
  assert (Hnil := filter_nil_iff keep meshes).
  destruct (filter keep meshes) as [| m1 [| m2 rest]] eqn:E.
  - split.
    + split; [intros _ | intros _; eexists; reflexivity].
      intros m Hm. specialize (proj1 Hnil eq_refl m Hm) as Hf.
      unfold keep in Hf. apply negb_false_iff in Hf. now apply Nat.eqb_eq.
    + intros result H. discriminate.
  - assert (H1 : len_vertices m1 <> 0%nat)
      by (apply (Hmem m1); now left).
    split.
    + split; [intros [e He]; discriminate |].
      intro Hall. exfalso. apply H1. apply Hall. apply (Hmem m1). now left.
    + intros result H. inversion H; subst; clear H.
      simpl in Hsum. rewrite Nat.add_0_r in Hsum.
      split; [exact Hsum |]. split; [lia |].
      intro sd. split.
      * intro Hsd. exists result. destruct (proj1 (Hmem result)); [now left |].
        now repeat split.
      * intros (m & Hm & Hne & Hsd).
        destruct (proj2 (Hmem m) (conj Hm Hne)) as [<- | []]. exact Hsd.
  - assert (H1 : len_vertices m1 <> 0%nat)
      by (apply (Hmem m1); now left).
    split.
    + split; [intros [e He]; discriminate |].
      intro Hall. exfalso. apply H1. apply Hall. apply (Hmem m1). now left.
    + intros result H.
      assert (Hres : result = List.concat (m1 :: m2 :: rest))
        by (inversion H; reflexivity).
      clear H. rewrite Hres. rewrite len_vertices_concat, Hsum.
      split; [reflexivity |]. split.
      * rewrite <- Hsum. simpl. lia.
      * intro sd. rewrite in_concat. split.
        -- intros (m & Hm & Hsd). exists m.
           destruct (proj1 (Hmem m) Hm). now repeat split.
        -- intros (m & Hm & Hne & Hsd). exists m.
           split; [apply Hmem; now split | exact Hsd].
Qed.

Lemma combine_meshes_raises_iff (meshes : list Trimesh) :
  (exists e, _combine_meshes meshes = Raise e)
  <-> forall mesh, In mesh meshes -> len_vertices mesh = 0%nat.
Proof.
  unfold _combine_meshes.
  pose proof (filter_nil_iff
                (fun mesh : Trimesh => negb (Nat.eqb (len_vertices mesh) 0))
                meshes) as Hnil.
  destruct (filter (fun mesh : Trimesh =>
                      negb (Nat.eqb (len_vertices mesh) 0)) meshes)
    as [| m1 [| m2 rest]] eqn:E.
  - split; [intros _ | intros _; eexists; reflexivity].
    intros m Hm. specialize (proj1 Hnil eq_refl m Hm) as Hf.
    apply negb_false_iff in Hf. now apply Nat.eqb_eq.
  - split; [intros [e He]; discriminate |].
    intro Hall. assert (Habs : [m1] = []); [| discriminate].
    apply Hnil. intros m Hm. rewrite (Hall m Hm). reflexivity.
  - split; [intros [e He]; discriminate |].
    intro Hall. assert (Habs : m1 :: m2 :: rest = []); [| discriminate].
    apply Hnil. intros m Hm. rewrite (Hall m Hm). reflexivity.
Qed.

Lemma len_vertices_extrusion (polygon : Polygon) (height : Q) :
  len_vertices (_extrude_polygon polygon height)
  = extruded_vertices polygon height.
Proof. unfold len_vertices. simpl. lia. Qed.

(** X9: the water layer is the base disk of the configured base
    thickness standing on the ground with, on top of it, one column of
    twice that thickness for every polygon of the water union, so that
    the columns end at three times the base thickness; it fails only when
    neither the disk nor any column has a vertex. *)
Theorem water_layer_spec (bc : Polygon) (wu : Geometry) (s : Settings) :
  ((exists e, _build_water_layer bc wu s = Raise e)
   <-> extruded_vertices bc (base_thickness_m s) = 0%nat
       /\ forall p, In p (_iter_polygons wu) ->
            extruded_vertices p (base_thickness_m s * 2) = 0%nat)
  /\ (forall result sd,
        _build_water_layer bc wu s = Ok result -> In sd result ->
        (footprint sd = bc /\ solid_height sd = base_thickness_m s
         /\ z_offset sd = 0)
        \/ (In (footprint sd) (_iter_polygons wu)
            /\ solid_height sd = base_thickness_m s * 2
            /\ z_offset sd = 0 + base_thickness_m s
            /\ z_offset sd + solid_height sd == 3 * base_thickness_m s)).
Proof.
  unfold _build_water_layer.
  set (columns :=
         map (fun polygon =>
                apply_translation_z
                  (_extrude_polygon polygon (base_thickness_m s * 2))
                  (base_thickness_m s))
             (_iter_polygons wu)).
  assert (Hmeshes :
    (if negb (is_empty wu)
     then [_extrude_polygon bc (base_thickness_m s)] ++ columns
     else [_extrude_polygon bc (base_thickness_m s)])
    = _extrude_polygon bc (base_thickness_m s) :: columns).
  { destruct (is_empty wu) eqn:E; simpl; [| reflexivity].
    unfold columns. now rewrite (iter_polygons_empty wu E). }
  rewrite Hmeshes. split.
  - rewrite combine_meshes_raises_iff. split.
    + intro Hall. split.
      * rewrite <- len_vertices_extrusion. apply Hall. now left.
      * intros p Hp.
        rewrite <- len_vertices_extrusion,
          <- (len_vertices_translation _ (base_thickness_m s)).
        apply Hall. right. unfold columns. apply in_map_iff. now exists p.
    + intros [Hb Hc] mesh [<- | Hm].
      * now rewrite len_vertices_extrusion.
      * unfold columns in Hm. apply in_map_iff in Hm.
        destruct Hm as [p [<- Hp]].
        rewrite len_vertices_translation, len_vertices_extrusion.
        now apply Hc.
  - intros result sd Hres Hsd.
    destruct (@combine_meshes_solids _ _ _ _ Hres Hsd) as [mesh [[<- | Hm] Hin]].
    + left. destruct Hin as [<- | []]. now repeat split.
    + right. unfold columns in Hm. apply in_map_iff in Hm.
      destruct Hm as [p [<- Hp]].
      apply apply_translation_z_offset in Hin.
      destruct Hin as [sd0 [[<- | []] (Hf & Hh & Hz)]]. simpl in *.
      rewrite Hf, Hh, Hz. repeat split; try assumption. ring.
Qed.

(** X10: the green layer is refused when the land region is empty or when
    no land or park solid has a vertex, and in no other case; every land
    polygon lies on the ground with the green thickness and every polygon
    of the park union stands on top of that, with the same thickness. *)
Theorem green_layer_spec (land park : Geometry) (s : Settings) :
  ((exists e, _build_green_layer land park s = Raise e)
   <-> is_empty land = true
       \/ ((forall p, In p (_iter_polygons land) ->
              extruded_vertices p (green_layer_thickness_m s) = 0%nat)
           /\ (forall p, In p (_iter_polygons park) ->
                 extruded_vertices p (green_layer_thickness_m s) = 0%nat)))
  /\ (forall result sd,
        _build_green_layer land park s = Ok result -> In sd result ->
        solid_height sd = green_layer_thickness_m s
        /\ ((In (footprint sd) (_iter_polygons land) /\ z_offset sd = 0)
            \/ (In (footprint sd) (_iter_polygons park)
                /\ z_offset sd = 0 + green_layer_thickness_m s))).
Proof.
  unfold _build_green_layer.
  set (t := green_layer_thickness_m s).
  set (slabs := map (fun polygon => _extrude_polygon polygon t)
                    (_iter_polygons land)).
  set (raised :=
         map (fun polygon =>
                apply_translation_z (_extrude_polygon polygon t) t)
             (_iter_polygons park)).
  assert (Hmeshes :
    (if negb (is_empty park) then slabs ++ raised else slabs)
    = slabs ++ raised).
  { destruct (is_empty park) eqn:E; simpl; [| reflexivity].
    unfold raised. rewrite (iter_polygons_empty park E). simpl.
    now rewrite app_nil_r. }
  rewrite Hmeshes.
  destruct (is_empty land) eqn:El.
  - split.
    + split; [now left | intros _; eexists; reflexivity].
    + intros result sd H. discriminate.
  - split.
    + rewrite combine_meshes_raises_iff. split.
      * intro Hall. right. split; intros p Hp.
        -- rewrite <- len_vertices_extrusion. apply Hall.
           apply in_or_app. left. unfold slabs. apply in_map_iff.
           now exists p.
        -- rewrite <- len_vertices_extrusion,
             <- (len_vertices_translation _ t).
           apply Hall. apply in_or_app. right. unfold raised.
           apply in_map_iff. now exists p.
      * intros [Habs | [Hl Hp]]; [discriminate |].
        intros mesh Hm. apply in_app_or in Hm. destruct Hm as [Hm | Hm].
        -- unfold slabs in Hm. apply in_map_iff in Hm.
           destruct Hm as [p [<- Hin]].
           rewrite len_vertices_extrusion. now apply Hl.
        -- unfold raised in Hm. apply in_map_iff in Hm.
           destruct Hm as [p [<- Hin]].
           rewrite len_vertices_translation, len_vertices_extrusion.
           now apply Hp.
    + intros result sd Hres Hsd.
      destruct (@combine_meshes_solids _ _ _ _ Hres Hsd) as [mesh [Hm Hin]].
      apply in_app_or in Hm. destruct Hm as [Hm | Hm].
      * unfold slabs in Hm. apply in_map_iff in Hm.
        destruct Hm as [p [<- Hp]]. destruct Hin as [<- | []]. simpl.
        split; [reflexivity |]. left. now split.
      * unfold raised in Hm. apply in_map_iff in Hm.
        destruct Hm as [p [<- Hp]].
        apply apply_translation_z_offset in Hin.
        destruct Hin as [sd0 [[<- | []] (Hf & Hh & Hz)]]. simpl in *.
        rewrite Hf, Hh, Hz. split; [reflexivity |]. right. now split.
Qed.

End LayerMeshFacts.

Section HighlightLayerFacts.

Context {GA : GeometryAlgebra} {MK : MeshKernel}.

(** X11: the highlight piece is refused for an empty polygon list; its
    peg depth is the smaller of the configured peg depth and the building
    layer thickness; every solid of the piece stands on a non-empty home
    polygon and is either a peg, from the ground up to the peg depth and
    present only for a positive depth, or a body of the building height
    that starts exactly at the peg depth. *)
Theorem highlight_layer_spec (polygons : list Polygon) (building_height : Q)
    (s : Settings) :
  let peg_depth :=
    py_min (highlight_peg_depth_m s) (building_layer_thickness_m s) in
  peg_depth == Qmin (highlight_peg_depth_m s) (building_layer_thickness_m s)
  /\ peg_depth <= building_layer_thickness_m s
  /\ (polygons = [] ->
      _build_highlight_layer polygons building_height s
      = Raise (BuildError "Highlight geometry is missing."))
  /\ (forall result sd,
        _build_highlight_layer polygons building_height s = Ok result ->
        In sd result ->
        In (footprint sd) polygons
        /\ polygon_is_empty (footprint sd) = false
        /\ ((0 < peg_depth /\ z_offset sd = 0 /\ solid_height sd = peg_depth)
            \/ (z_offset sd = 0 + peg_depth
                /\ solid_height sd = building_height))).
Proof.
  cbv zeta. split; [apply py_min_Qmin |]. split; [apply py_min_le_r |].
  split; [intros ->; reflexivity |].
  intros result sd Hres Hsd. unfold _build_highlight_layer in Hres.
  destruct (negb (truthy_list polygons)); [discriminate |].
  destruct (@combine_meshes_solids _ _ _ _ Hres Hsd) as [mesh [Hm Hin]].
  apply in_flat_map in Hm. destruct Hm as [p [Hp Hm]].
  destruct (polygon_is_empty p) eqn:Ep; [contradiction |].
  apply in_app_or in Hm. destruct Hm as [Hm | [<- | []]].
  - destruct (Qltb 0 (py_min (highlight_peg_depth_m s)
                        (building_layer_thickness_m s))) eqn:Epeg;
      [| contradiction].
    destruct Hm as [<- | []]. destruct Hin as [<- | []]. simpl.
    split; [exact Hp |]. split; [exact Ep |]. left.
    apply Qltb_true in Epeg. now repeat split.
  - apply apply_translation_z_offset in Hin.
    destruct Hin as [sd0 [[<- | []] (Hf & Hh & Hz)]]. simpl in *.
    rewrite Hf, Hh, Hz. split; [exact Hp |]. split; [exact Ep |].
    right. now split.
Qed.

End HighlightLayerFacts.

(** ** What the building loop records *)

Section LoopRecords.

Context {GA : GeometryAlgebra}.

Variables (circle_world : Polygon) (origin_x origin_y k : Q).
Variable home_building : option BuildingFootprint.

Local Abbreviation loop_polygons :=
  (footprint_polygons circle_world origin_x origin_y k).

Lemma building_loop_records_from (buildings : list BuildingFootprint)
    (st : BuildingLoop) :
  let final :=
    fold_left
      (building_loop_body circle_world origin_x origin_y k home_building)
      buildings st in
  loop_summaries final
  = loop_summaries st
    ++ map (fun fp =>
              {| summary_osm_id := osm_id fp;
                 summary_height_m := height_m fp;
                 footprint_area_m2 := area (polygon_projected fp);
                 summary_name := name fp |})
           (filter (fun fp => truthy_list (loop_polygons fp)) buildings)
  /\ loop_mesh_data final
     = loop_mesh_data st
       ++ map (fun fp =>
                 (loop_polygons fp, py_max (height_m fp * k) (5 # 10000)))
              (filter (fun fp => truthy_list (loop_polygons fp)
                                 && negb (is_home home_building fp))
                      buildings).
Proof.
  revert st. induction buildings as [| fp rest IH]; intro st; cbv zeta.
  - simpl. now rewrite !app_nil_r.
  - simpl fold_left. destruct (IH (building_loop_body circle_world origin_x
                                     origin_y k home_building st fp))
      as [Hs Hd].
    cbv zeta in Hs, Hd. rewrite Hs, Hd. clear Hs Hd IH.
    unfold building_loop_body. simpl filter.
    destruct (loop_polygons fp) as [| q qs] eqn:E; simpl truthy_list.
    + simpl. now split.
    + destruct (is_home home_building fp) eqn:Eh; simpl;
        rewrite <- ?app_assoc, ?E; split; reflexivity.
Qed.

(** X12: a summary is recorded for exactly the footprints that yield a
    polygon inside the world circle, in the order of the list and with
    their unscaled heights, the home building included; the mesh data
    holds the same footprints without the home building, each with its
    polygons and a scaled height of at least half a millimetre. *)
Theorem building_loop_records (buildings : list BuildingFootprint) :
  let st :=
    building_loop circle_world origin_x origin_y k home_building buildings in
  loop_summaries st
  = map (fun fp =>
           {| summary_osm_id := osm_id fp;
              summary_height_m := height_m fp;
              footprint_area_m2 := area (polygon_projected fp);
              summary_name := name fp |})
        (filter (fun fp => truthy_list (loop_polygons fp)) buildings)
  /\ loop_mesh_data st
     = map (fun fp =>
              (loop_polygons fp, py_max (height_m fp * k) (5 # 10000)))
           (filter (fun fp => truthy_list (loop_polygons fp)
                              && negb (is_home home_building fp))
                   buildings)
  /\ (List.length (loop_mesh_data st) <= List.length (loop_summaries st)
      <= List.length buildings)%nat
  /\ (forall polys h, In (polys, h) (loop_mesh_data st) -> 5 # 10000 <= h)
  /\ (forall h, loop_home_height st = Some h ->
        5 # 10000 <= h
        /\ truthy_float (loop_home_height st) = true).
Proof.
  cbv zeta. unfold building_loop.
  destruct (building_loop_records_from buildings building_loop_init)
    as [Hs Hd].
  cbv zeta in Hs, Hd. simpl in Hs, Hd.
  split; [exact Hs |]. split; [exact Hd |]. split; [| split].
  - rewrite Hs, Hd, !length_map. split.
    + clear Hs Hd. induction buildings as [| fp rest IH]; simpl; [lia |].
      destruct (truthy_list (loop_polygons fp)); simpl; [| exact IH].
      destruct (negb (is_home home_building fp)); simpl; lia.
    + apply filter_length_le.
  - intros polys h Hin. rewrite Hd in Hin. apply in_map_iff in Hin.
    destruct Hin as [fp [Heq _]]. inversion Heq; subst.
    apply py_max_ge_r.
  - intros h Hh.
    assert (Hinv : forall v,
              loop_home_height
                (fold_left
                   (building_loop_body circle_world origin_x origin_y k
                      home_building) buildings building_loop_init)
              = Some v -> 5 # 10000 <= v).
    { apply (building_loop_invariant circle_world origin_x origin_y k
               home_building
               (fun st => forall v, loop_home_height st = Some v ->
                                    5 # 10000 <= v)).
      - intros v Hv. discriminate.
      - intros st fp _ IH v. unfold building_loop_body.
        destruct (loop_polygons fp); [apply IH |].
        destruct (is_home home_building fp); simpl; [| apply IH].
        intro Hv. inversion Hv; subst. apply py_max_ge_r. }
    specialize (Hinv h Hh). split; [exact Hinv |].
    rewrite Hh. simpl. apply negb_true_iff.
    destruct (Qeq_bool h 0) eqn:E; [| reflexivity].
    apply Qeq_bool_iff in E. exfalso. lra.
Qed.

End LoopRecords.

(** ** Archive, previews and their metadata *)

Section EntryPointFacts.

Context {GA : GeometryAlgebra} {CP : CoordinateProjector} {MK : MeshKernel}.

Lemma build_model_archive_parts (s : Settings) (request : ModelRequest)
    (buildings : list BuildingFootprint) (roads : list RoadFeature)
    (parks : list ParkFeature) (waters : list WaterFeature)
    (out : ArchiveResult) :
  build_model_archive s request buildings roads parks waters = Ok out ->
  exists ctx water_mesh green_mesh building_mesh highlight_mesh,
    _build_scene_context s request buildings roads parks waters = Ok ctx
    /\ (highlight_mesh <> None <->
        highlight_wanted s request (prepared ctx) = true)
    /\ layer_meshes_of out
       = [("water_layer"%string, water_mesh);
          ("green_layer"%string, green_mesh);
          ("building_layer"%string, building_mesh)]
         ++ highlight_entry highlight_mesh
    /\ archive out
       = archive_entries (formats request) (layer_meshes_of out)
         ++ [("metadata.json"%string, MetadataPayload (metadata out))]
    /\ metadata out
       = {| building_count :=
              List.length (building_summaries (prepared ctx));
            meta_radius_meters := radius_meters request;
            highlighted :=
              match highlight_mesh with Some _ => true | None => false end;
            meta_formats := formats request;
            origin := (origin_x ctx, origin_y ctx);
            scale_ratio := scale_factor ctx;
            layers :=
              _build_layer_info s
                match highlight_mesh with Some _ => true | None => false end;
            buildings_meta := building_summaries (prepared ctx) |}.
Proof.
  unfold build_model_archive.
  destruct (truthy_list buildings); simpl; [| discriminate].
  destruct (_build_scene_context s request buildings roads parks waters)
    as [ctx | e] eqn:Ectx; simpl; [| discriminate].
  pose proof (build_scene_context_ok _ _ _ _ _ _ Ectx) as Hs.
  destruct Hs as (Hs & _). rewrite Hs.
  destruct (_build_water_layer (base_circle (prepared ctx))
              (water_union (prepared ctx)) s) as [wm | e]; simpl;
    [| discriminate].
  destruct (_build_green_layer (land_no_water (prepared ctx))
              (park_union (prepared ctx)) s) as [gm | e]; simpl;
    [| discriminate].
  destruct (_build_building_layer (building_base (prepared ctx))
              (road_union (prepared ctx)) (building_mesh_data (prepared ctx))
              (home_polygons_for_building_layer request (prepared ctx)) s)
    as [bm | e] eqn:Eb; simpl; [| discriminate].
  destruct (highlight_wanted s request (prepared ctx)) eqn:Ew.
  - destruct (home_height (prepared ctx)) as [h |] eqn:Eh.
    + destruct (_build_highlight_layer (home_polygons (prepared ctx)) h s)
        as [hm | e]; simpl; [| discriminate].
      intro H. inversion H; subst; clear H. simpl.
      exists ctx, wm, gm, bm, (Some hm).
      repeat split; try reflexivity; try discriminate; auto.
    + exfalso. unfold highlight_wanted in Ew. rewrite Eh in Ew.
      simpl in Ew. now rewrite andb_false_r in Ew.
  - simpl. intro H. inversion H; subst; clear H. simpl.
    exists ctx, wm, gm, bm, None.
    repeat split; try reflexivity; auto; intuition congruence.
Qed.

Lemma generate_preview_data_parts (s : Settings) (request : ModelRequest)
    (buildings : list BuildingFootprint) (roads : list RoadFeature)
    (parks : list ParkFeature) (waters : list WaterFeature)
    (meta : ModelMetadata) (previews : list LayerPreview) :
  generate_preview_data s request buildings roads parks waters
  = Ok (meta, previews) ->
  exists ctx,
    _build_scene_context s request buildings roads parks waters = Ok ctx
    /\ previews = _create_layer_previews (prepared ctx) (print_radius_of s) s
    /\ meta
       = {| building_count :=
              List.length (building_summaries (prepared ctx));
            meta_radius_meters := radius_meters request;
            highlighted := truthy_list (home_polygons (prepared ctx));
            meta_formats := ["stl"%string];
            origin := (origin_x ctx, origin_y ctx);
            scale_ratio := scale_factor ctx;
            layers :=
              _build_layer_info s
                (truthy_list (home_polygons (prepared ctx)));
            buildings_meta := building_summaries (prepared ctx) |}.
Proof.
  unfold generate_preview_data.
  destruct (truthy_list buildings); simpl; [| discriminate].
  destruct (_build_scene_context s request buildings roads parks waters)
    as [ctx | e] eqn:E; simpl; [| discriminate].
  intro H. inversion H; subst; clear H.
  exists ctx. split; [reflexivity |].
  apply build_scene_context_ok in E.
  destruct E as (Hs & _ & _ & Hr & _). rewrite Hs, Hr. now split.
Qed.

Lemma archive_entries_length (request_formats : list string)
    (layer_meshes : list (string * Trimesh)) :
  List.length (archive_entries request_formats layer_meshes)
  = (List.length request_formats * List.length layer_meshes)%nat.
Proof.
  induction request_formats as [| fmt rest IH]; [reflexivity |].
  change (archive_entries (fmt :: rest) layer_meshes)
    with (map (fun entry : string * Trimesh =>
                 let '(layer_name, mesh) := entry in
                 (("layers/" ++ layer_name ++ "." ++ fmt)%string,
                  MeshPayload mesh fmt))
              layer_meshes
          ++ archive_entries rest layer_meshes).
  rewrite length_app, length_map, IH. simpl. lia.
Qed.

(** X13: an archive that is built holds, for every requested format and
    every layer produced, the entry [layers/<layer>.<format>] with that
    layer's mesh, then [metadata.json] as its last entry, and nothing
    else; the layer names are distinct, and the layer list of the
    metadata names exactly the layers written, in the same order. *)
Theorem archive_layout (s : Settings) (request : ModelRequest)
    (buildings : list BuildingFootprint) (roads : list RoadFeature)
    (parks : list ParkFeature) (waters : list WaterFeature)
    (out : ArchiveResult) :
  build_model_archive s request buildings roads parks waters = Ok out ->
  map info_name (layers (metadata out)) = map fst (layer_meshes_of out)
  /\ NoDup (map fst (layer_meshes_of out))
  /\ archive out
     = archive_entries (formats request) (layer_meshes_of out)
       ++ [("metadata.json"%string, MetadataPayload (metadata out))]
  /\ List.length (archive out)
     = (List.length (formats request) * List.length (layer_meshes_of out)
        + 1)%nat
  /\ (forall path payload,
        In (path, payload)
           (archive_entries (formats request) (layer_meshes_of out))
        <-> exists fmt layer_name mesh,
              In fmt (formats request)
              /\ In (layer_name, mesh) (layer_meshes_of out)
              /\ path = ("layers/" ++ layer_name ++ "." ++ fmt)%string
              /\ payload = MeshPayload mesh fmt)
  /\ meta_formats (metadata out) = formats request
  /\ meta_radius_meters (metadata out) = radius_meters request
  /\ building_count (metadata out)
     = List.length (buildings_meta (metadata out)).
Proof.
  intro Hout. apply build_model_archive_parts in Hout.
  destruct Hout as (ctx & wm & gm & bm & hm & _ & _ & Hl & Ha & Hm).
  split; [| split; [| split; [| split; [| split]]]].
  - rewrite Hm, Hl. simpl. now destruct hm.
  - rewrite Hl. destruct hm; simpl;
      repeat (constructor; [simpl; intuition discriminate |]);
      constructor.
  - exact Ha.
  - rewrite Ha, length_app, archive_entries_length. reflexivity.
  - intros path payload. unfold archive_entries. rewrite in_flat_map. split.
    + intros (fmt & Hfmt & Hin). apply in_map_iff in Hin.
      destruct Hin as ([layer_name mesh] & Heq & Hlm).
      inversion Heq; subst. exists fmt, layer_name, mesh. now repeat split.
    + intros (fmt & layer_name & mesh & Hfmt & Hlm & -> & ->).
      exists fmt. split; [exact Hfmt |]. apply in_map_iff.
      now exists (layer_name, mesh).
  - rewrite Hm. now repeat split.
Qed.

(** X14: a preview that is returned has three records, or four when a
    home building was found, named water, green, building and highlight
    layer in this order; the layer list of its metadata agrees with the
    records in names, thicknesses and descriptions; the metadata reports
    the single format [stl] whatever the request asks for, and it is
    marked highlighted exactly when the fourth record is there, whatever
    the highlight flag of the request and the configuration say. *)
Theorem preview_layout (s : Settings) (request : ModelRequest)
    (buildings : list BuildingFootprint) (roads : list RoadFeature)
    (parks : list ParkFeature) (waters : list WaterFeature)
    (meta : ModelMetadata) (previews : list LayerPreview) :
  generate_preview_data s request buildings roads parks waters
  = Ok (meta, previews) ->
  map preview_name previews
  = ["water_layer"%string; "green_layer"%string; "building_layer"%string]
    ++ (if highlighted meta then ["highlight_layer"%string] else [])
  /\ map info_name (layers meta) = map preview_name previews
  /\ map info_thickness_m (layers meta) = map preview_thickness_m previews
  /\ map info_description (layers meta) = map preview_description previews
  /\ meta_formats meta = ["stl"%string]
  /\ (highlighted meta = true <-> List.length previews = 4%nat)
  /\ (highlighted meta = false <-> List.length previews = 3%nat).
Proof.
  intro Hgen. apply generate_preview_data_parts in Hgen.
  destruct Hgen as (ctx & _ & -> & ->). simpl.
  unfold _create_layer_previews, _build_layer_info.
  destruct (truthy_list (home_polygons (prepared ctx))); simpl;
    repeat split; try reflexivity; try discriminate.
Qed.

(** X15: for the same configuration, request and features, when both the
    archive and the preview are produced their metadata agree on the
    building count, the radius, the origin, the scale ratio and the
    building summaries; an archive marked highlighted implies a preview
    marked highlighted, and the layer list of the archive is the layer
    list of the preview or that list without the highlight layer. *)
Theorem archive_and_preview_metadata_agree (s : Settings)
    (request : ModelRequest)
    (buildings : list BuildingFootprint) (roads : list RoadFeature)
    (parks : list ParkFeature) (waters : list WaterFeature)
    (out : ArchiveResult) (meta : ModelMetadata)
    (previews : list LayerPreview) :
  build_model_archive s request buildings roads parks waters = Ok out ->
  generate_preview_data s request buildings roads parks waters
  = Ok (meta, previews) ->
  building_count (metadata out) = building_count meta
  /\ meta_radius_meters (metadata out) = meta_radius_meters meta
  /\ origin (metadata out) = origin meta
  /\ scale_ratio (metadata out) = scale_ratio meta
  /\ buildings_meta (metadata out) = buildings_meta meta
  /\ (highlighted (metadata out) = true -> highlighted meta = true)
  /\ (layers (metadata out) = layers meta
      \/ layers (metadata out) = firstn 3 (layers meta)).
Proof.
  intros Hout Hgen.
  apply build_model_archive_parts in Hout.
  destruct Hout as (ctx & wm & gm & bm & hm & Hctx & Hw & _ & _ & Hm).
  apply generate_preview_data_parts in Hgen.
  destruct Hgen as (ctx' & Hctx' & _ & ->).
  rewrite Hctx in Hctx'. inversion Hctx'; subst ctx'. rewrite Hm. simpl.
  repeat split.
  - destruct hm as [m |]; [intros _ | discriminate].
    assert (Hwant : highlight_wanted s request (prepared ctx) = true)
      by (apply Hw; discriminate).
    unfold highlight_wanted in Hwant.
    apply andb_true_iff in Hwant. destruct Hwant as [Hwant _].
    apply andb_true_iff in Hwant. now destruct Hwant as [_ Hwant].
  - destruct hm as [m |].
    + left. assert (Hwant : highlight_wanted s request (prepared ctx) = true)
        by (apply Hw; discriminate).
      unfold highlight_wanted in Hwant.
      apply andb_true_iff in Hwant. destruct Hwant as [Hwant _].
      apply andb_true_iff in Hwant. destruct Hwant as [_ Hwant].
      now rewrite Hwant.
    + right. unfold _build_layer_info.
      now destruct (truthy_list (home_polygons (prepared ctx))).
Qed.

End EntryPointFacts.

Lemma archive_layout_witness :
  exists out,
    @build_model_archive Reference.geometry Reference.projector
      Reference.kernel default_settings Reference.request_100
      [Reference.house; Reference.neighbour] [Reference.street]
      [Reference.lawn] [Reference.pond] = Ok out
    /\ List.length (archive out) = 5%nat
    /\ map info_name (layers (metadata out)) = map fst (layer_meshes_of out).
Proof.
  destruct (@build_model_archive Reference.geometry Reference.projector
              Reference.kernel default_settings Reference.request_100
              [Reference.house; Reference.neighbour] [Reference.street]
              [Reference.lawn] [Reference.pond])
    as [out | e] eqn:E; [| vm_compute in E; discriminate E].
  exists out. split; [reflexivity |].
  destruct (@archive_layout Reference.geometry Reference.projector
              Reference.kernel default_settings Reference.request_100
              [Reference.house; Reference.neighbour] [Reference.street]
              [Reference.lawn] [Reference.pond] out E)
    as (Hnames & _ & _ & Hlen & _).
  split; [| exact Hnames].
  rewrite Hlen. vm_compute in E. inversion E. reflexivity.
Defined.

Lemma preview_layout_witness :
  exists meta previews,
    @generate_preview_data Reference.geometry Reference.projector
      default_settings Reference.request_100
      [Reference.house; Reference.neighbour] [Reference.street]
      [Reference.lawn] [Reference.pond] = Ok (meta, previews)
    /\ map info_name (layers meta) = map preview_name previews.
Proof.
  destruct (@generate_preview_data Reference.geometry Reference.projector
              default_settings Reference.request_100
              [Reference.house; Reference.neighbour] [Reference.street]
              [Reference.lawn] [Reference.pond])
    as [[meta previews] | e] eqn:E; [| vm_compute in E; discriminate E].
  exists meta, previews. split; [reflexivity |].
  exact (proj1 (proj2 (@preview_layout Reference.geometry
                         Reference.projector default_settings
                         Reference.request_100
                         [Reference.house; Reference.neighbour]
                         [Reference.street] [Reference.lawn]
                         [Reference.pond] meta previews E))).
Defined.

Lemma archive_and_preview_metadata_agree_witness :
  exists out meta previews,
    @build_model_archive Reference.geometry Reference.projector
      Reference.kernel no_highlight_settings Reference.request_100
      [Reference.house; Reference.neighbour] [Reference.street]
      [Reference.lawn] [Reference.pond] = Ok out
    /\ @generate_preview_data Reference.geometry Reference.projector
         no_highlight_settings Reference.request_100
         [Reference.house; Reference.neighbour] [Reference.street]
         [Reference.lawn] [Reference.pond] = Ok (meta, previews)
    /\ scale_ratio (metadata out) = scale_ratio meta
    /\ highlighted (metadata out) = false
    /\ highlighted meta = true.
Proof.
  destruct (@build_model_archive Reference.geometry Reference.projector
              Reference.kernel no_highlight_settings Reference.request_100
              [Reference.house; Reference.neighbour] [Reference.street]
              [Reference.lawn] [Reference.pond])
    as [out | e] eqn:E; [| vm_compute in E; discriminate E].
  destruct (@generate_preview_data Reference.geometry Reference.projector
              no_highlight_settings Reference.request_100
              [Reference.house; Reference.neighbour] [Reference.street]
              [Reference.lawn] [Reference.pond])
    as [[meta previews] | e] eqn:E'; [| vm_compute in E'; discriminate E'].
  exists out, meta, previews. split; [reflexivity |]. split; [reflexivity |].
  destruct (@archive_and_preview_metadata_agree Reference.geometry
              Reference.projector Reference.kernel no_highlight_settings
              Reference.request_100
              [Reference.house; Reference.neighbour] [Reference.street]
              [Reference.lawn] [Reference.pond] out meta previews E E')
    as (_ & _ & _ & Hscale & _).
  split; [exact Hscale |].
  vm_compute in E, E'. inversion E. inversion E'. now split.
Defined.

(** ** A scene with buildings only *)

Section BuildingsOnly.

Context {GA : GeometryAlgebra} {CP : CoordinateProjector}.

(** X16: when there is no park, no water and no road, the three unions
    are the empty collection and no difference is taken: the land and
    the building base are the base circle itself, so the water, green
    and building previews share one base path list, and the water and
    green features and the road overlay are empty. *)
Theorem buildings_only_scene (s : Settings) (request : ModelRequest)
    (buildings : list BuildingFootprint)
    (meta : ModelMetadata) (previews : list LayerPreview) :
  generate_preview_data s request buildings [] [] [] = Ok (meta, previews) ->
  exists ctx water green building rest,
    _build_scene_context s request buildings [] [] [] = Ok ctx
    /\ water_union (prepared ctx) = GeometryCollection_empty
    /\ park_union (prepared ctx) = GeometryCollection_empty
    /\ road_union (prepared ctx) = GeometryCollection_empty
    /\ land_no_water (prepared ctx) = GPolygon (base_circle (prepared ctx))
    /\ building_base (prepared ctx) = GPolygon (base_circle (prepared ctx))
    /\ previews = water :: green :: building :: rest
    /\ base_paths green = base_paths water
    /\ base_paths building = base_paths water
    /\ feature_paths water = []
    /\ feature_paths green = []
    /\ overlay_paths building = [].
Proof.
  intro Hgen. apply generate_preview_data_ok in Hgen.
  destruct Hgen as (ctx & Hctx & -> & _).
  pose proof (build_scene_context_ok _ _ _ _ _ _ Hctx)
    as (_ & _ & _ & _ & Hprep).
  apply prepare_geometries_ok in Hprep. cbv zeta in Hprep.
  destruct Hprep as (_ & Hbc & Hwu & Hland & Hpu & Hru & Hbb & _).
  simpl in Hwu, Hpu, Hru.
  assert (Hwu' : water_union (prepared ctx) = GeometryCollection_empty)
    by exact Hwu.
  assert (Hpu' : park_union (prepared ctx) = GeometryCollection_empty)
    by exact Hpu.
  assert (Hru' : road_union (prepared ctx) = GeometryCollection_empty)
    by exact Hru.
  assert (Hl : land_no_water (prepared ctx)
               = GPolygon (base_circle (prepared ctx))).
  { rewrite Hland, Hwu', Hbc. unfold land_of. simpl.
    now destruct (polygon_is_empty
                    (point_buffer (0, 0) (print_radius_of s) 128)). }
  assert (Hb : building_base (prepared ctx)
               = GPolygon (base_circle (prepared ctx))).
  { rewrite Hbb, Hpu', Hl. unfold building_base_of. simpl.
    now destruct (polygon_is_empty (base_circle (prepared ctx))). }
  unfold _create_layer_previews. rewrite Hwu', Hpu', Hru', Hl, Hb.
  destruct (truthy_list (home_polygons (prepared ctx))); simpl;
    do 5 eexists; (split; [exact Hctx |]);
    repeat (split; [reflexivity || assumption |]); reflexivity.
Qed.

End BuildingsOnly.

Lemma buildings_only_scene_witness :
  exists meta water green building rest,
    @generate_preview_data Reference.geometry Reference.projector
      default_settings Reference.request_100
      [Reference.house; Reference.neighbour] [] [] []
    = Ok (meta, water :: green :: building :: rest)
    /\ base_paths green = base_paths water
    /\ feature_paths green = [].
Proof.
  destruct (@generate_preview_data Reference.geometry Reference.projector
              default_settings Reference.request_100
              [Reference.house; Reference.neighbour] [] [] [])
    as [[meta previews] | e] eqn:E; [| vm_compute in E; discriminate E].
  destruct (@buildings_only_scene Reference.geometry Reference.projector
              default_settings Reference.request_100
              [Reference.house; Reference.neighbour] meta previews E)
    as (ctx & water & green & building & rest & _ & _ & _ & _ & _ & _
        & Hp & Hg & _ & _ & Hf & _).
  exists meta, water, green, building, rest. rewrite Hp. now repeat split.
Defined.

(* ================================================================== *)
(** * Properties of the other modules *)

(** ** Request formats *)

Lemma str_in_In (x : string) (l : list string) :
  str_in x l = true <-> In x l.
Proof.
  unfold str_in. rewrite existsb_exists. split.
  - intros [y [Hy Heq]]. apply String.eqb_eq in Heq. now subst.
  - intro H. exists x. split; [exact H | apply String.eqb_refl].
Qed.

Section FormatFacts.

Variable lower : string -> string.
Variable allowed_formats : list string.
Variable max_formats : Z.

Lemma normalize_formats_valid (value acc normalized : list string) :
  normalize_formats lower allowed_formats value acc = Valid normalized ->
  NoDup acc ->
  NoDup normalized
  /\ (forall f, In f normalized <-> In f acc \/ In f (map lower value))
  /\ (forall v, In v value -> In (lower v) allowed_formats).
Proof.
  revert acc. induction value as [| fmt rest IH]; intros acc H Hnd; simpl in H.
  - inversion H; subst. split; [exact Hnd |]. split; [| intros ? []].
    intro f. simpl. tauto.
  - destruct (str_in (lower fmt) allowed_formats) eqn:Ea; simpl in H;
      [| discriminate].
    apply str_in_In in Ea.
    destruct (str_in (lower fmt) acc) eqn:Ei; simpl in H.
    + apply str_in_In in Ei. destruct (IH _ H Hnd) as (Hn & Hm & Ha).
      split; [exact Hn |]. split.
      * intro f. rewrite Hm. simpl. split; [tauto |].
        intros [Hf | [<- | Hf]]; tauto.
      * intros v [<- | Hv]; [exact Ea | now apply Ha].
    + assert (Hnot : ~ In (lower fmt) acc).
      { intro Hin. apply str_in_In in Hin. congruence. }
      assert (Hnd' : NoDup (acc ++ [lower fmt])).
      { apply NoDup_app; [exact Hnd | repeat constructor; intros [] |].
        intros x Hx [<- | []]. contradiction. }
      destruct (IH _ H Hnd') as (Hn & Hm & Ha).
      split; [exact Hn |]. split.
      * intro f. rewrite Hm, in_app_iff. simpl. tauto.
      * intros v [<- | Hv]; [exact Ea | now apply Ha].
Qed.

Lemma validate_formats_accepted (value normalized : list string) :
  validate_formats lower allowed_formats max_formats value = Valid normalized ->
  normalized <> []
  /\ NoDup normalized
  /\ (forall f, In f normalized -> In f allowed_formats)
  /\ (Z.of_nat (List.length normalized) <= max_formats)%Z
  /\ (value <> [] ->
      forall f, In f normalized <-> In f (map lower value))
  /\ (value = [] ->
      exists first rest,
        allowed_formats = first :: rest /\ normalized = [first]).
Proof.
  unfold validate_formats.
  destruct (normalize_formats lower allowed_formats value []) as [acc | e]
    eqn:E; [| discriminate].
  destruct (@normalize_formats_valid _ _ _ E (NoDup_nil _)) as (Hnd & Hm & Ha).
  destruct acc as [| a acc'].
  - simpl. destruct allowed_formats as [| first rest] eqn:Eal;
      [discriminate |].
    simpl. destruct (1 >? max_formats)%Z eqn:Em; [discriminate |].
    intro H. inversion H; subst normalized.
    split; [discriminate |]. split; [repeat constructor; intros [] |].
    split; [intros f [<- | []]; now left |]. split; [simpl; lia |].
    split.
    + intros Hne. destruct value as [| v rest']; [congruence |].
      exfalso. apply (proj2 (Hm (lower v))). right. now left.
    + intros _. now exists first, rest.
  - simpl truthy_list. simpl negb. cbv iota.
    destruct (Z.of_nat (List.length (a :: acc')) >? max_formats)%Z eqn:Em;
      [discriminate |].
    intro H. inversion H; subst normalized.
    split; [discriminate |]. split; [exact Hnd |]. split.
    + intros f Hf. apply Hm in Hf. destruct Hf as [[] | Hf].
      apply in_map_iff in Hf. destruct Hf as [v [<- Hv]]. now apply Ha.
    + split; [lia |]. split.
      * intros _ f. rewrite Hm. simpl. tauto.
      * intros ->. simpl in E. discriminate.
Qed.

(** X17: a format list that [validate_formats] accepts is never empty,
    has no duplicate, holds allowed formats only and at most
    [max_formats] of them; for a non-empty input its members are exactly
    the lower-cased inputs, for an empty input it is the first allowed
    format alone. *)
Theorem validate_formats_valid (value normalized : list string) :
  validate_formats lower allowed_formats max_formats value = Valid normalized ->
  normalized <> []
  /\ NoDup normalized
  /\ (forall f, In f normalized -> In f allowed_formats)
  /\ (Z.of_nat (List.length normalized) <= max_formats)%Z
  /\ (value <> [] ->
      forall f, In f normalized <-> In f (map lower value))
  /\ (value = [] ->
      exists first rest,
        allowed_formats = first :: rest /\ normalized = [first]).
Proof. apply validate_formats_accepted. Qed.

(** X18: [validate_formats] refuses a list with [UnsupportedFormat]
    exactly when some format, lower-cased, is not allowed, and then
    names the first such format; an accepted list is a fixed point when
    lower-casing leaves the allowed formats as they are; and where a
    single format is allowed every accepted list is that format alone. *)
Theorem validate_formats_refusals (value : list string) :
  ((exists fmt,
      validate_formats lower allowed_formats max_formats value
      = Invalid (UnsupportedFormat fmt))
   <-> exists v, In v value /\ ~ In (lower v) allowed_formats)
  /\ (forall fmt,
        validate_formats lower allowed_formats max_formats value
        = Invalid (UnsupportedFormat fmt) ->
        exists before after,
          value = before ++ fmt :: after
          /\ ~ In (lower fmt) allowed_formats
          /\ forall v, In v before -> In (lower v) allowed_formats)
  /\ (forall normalized,
        (forall a, In a allowed_formats -> lower a = a) ->
        validate_formats lower allowed_formats max_formats value
        = Valid normalized ->
        validate_formats lower allowed_formats max_formats normalized
        = Valid normalized)
  /\ (forall normalized only,
        allowed_formats = [only] ->
        validate_formats lower allowed_formats max_formats value
        = Valid normalized ->
        normalized = [only]).
Proof.
  assert (Hfirst : forall value acc fmt,
            normalize_formats lower allowed_formats value acc
            = Invalid (UnsupportedFormat fmt) ->
            exists before after,
              value = before ++ fmt :: after
              /\ ~ In (lower fmt) allowed_formats
              /\ forall v, In v before -> In (lower v) allowed_formats).
  { clear value. induction value as [| v rest IH]; intros acc fmt H;
      simpl in H; [discriminate |].
    destruct (str_in (lower v) allowed_formats) eqn:Ea; simpl in H.
    - apply str_in_In in Ea. destruct (IH _ _ H) as (b & a & -> & Hn & Hb).
      exists (v :: b), a. split; [reflexivity |]. split; [exact Hn |].
      intros w [<- | Hw]; [exact Ea | now apply Hb].
    - inversion H; subst. exists [], rest. split; [reflexivity |].
      split; [| intros ? []].
      intro Hin. apply str_in_In in Hin. congruence. }
  assert (Hother : forall value acc e,
            normalize_formats lower allowed_formats value acc = Invalid e ->
            exists fmt, e = UnsupportedFormat fmt).
  { clear value. induction value as [| v rest IH]; intros acc e H;
      simpl in H; [discriminate |].
    destruct (str_in (lower v) allowed_formats); simpl in H.
    - now apply (IH _ _ H).
    - inversion H. now eexists. }
  assert (Hinv : forall fmt,
            validate_formats lower allowed_formats max_formats value
            = Invalid (UnsupportedFormat fmt) ->
            normalize_formats lower allowed_formats value []
            = Invalid (UnsupportedFormat fmt)).
  { intros fmt H. unfold validate_formats in H.
    destruct (normalize_formats lower allowed_formats value [])
      as [acc | e]; [| exact H].
    destruct (negb (truthy_list acc)).
    - destruct allowed_formats; [discriminate |].
      destruct (Z.of_nat (List.length (acc ++ [s])) >? max_formats)%Z;
        discriminate.
    - destruct (Z.of_nat (List.length acc) >? max_formats)%Z; discriminate. }
  split; [| split; [| split]].
  - split.
    + intros [fmt H]. apply Hinv in H.
      destruct (Hfirst _ _ _ H) as (b & a & -> & Hn & _).
      exists fmt. split; [| exact Hn]. apply in_or_app. right. now left.
    + intros [v [Hv Hn]].
      destruct (normalize_formats lower allowed_formats value [])
        as [acc | e] eqn:E.
      * exfalso. apply Hn.
        now apply (@normalize_formats_valid _ _ _ E (NoDup_nil _)).
      * destruct (Hother _ _ _ E) as [fmt ->]. exists fmt.
        unfold validate_formats. now rewrite E.
  - intros fmt H. apply Hinv in H. now apply (Hfirst _ _ _ H).
  - intros normalized Hfix H.
    destruct (@validate_formats_accepted _ _ H) as (Hne & Hnd & Hal & Hlen & _).
    assert (Hnorm : forall l acc,
              (forall f, In f l -> In f allowed_formats) ->
              NoDup (acc ++ l) ->
              normalize_formats lower allowed_formats l acc
              = Valid (acc ++ l)).
    { induction l as [| f l IH]; intros acc Hall Hnd'; simpl.
      - now rewrite app_nil_r.
      - rewrite (Hfix f) by (apply Hall; now left).
        assert (Ha : str_in f allowed_formats = true)
          by (apply str_in_In, Hall; now left).
        rewrite Ha. simpl.
        assert (Hi : str_in f acc = false).
        { destruct (str_in f acc) eqn:Ei; [| reflexivity].
          apply str_in_In in Ei. exfalso.
          apply NoDup_remove_2 in Hnd'. apply Hnd'.
          apply in_or_app. now left. }
        rewrite Hi. simpl.
        rewrite IH.
        + now rewrite <- app_assoc.
        + intros g Hg. apply Hall. now right.
        + now rewrite <- app_assoc. }
    unfold validate_formats.
    rewrite (Hnorm normalized [] Hal Hnd). simpl app.
    destruct normalized as [| n ns]; [congruence |]. simpl truthy_list.
    simpl negb. cbv iota.
    destruct (Z.of_nat (List.length (n :: ns)) >? max_formats)%Z eqn:Em;
      [lia | reflexivity].
  - intros normalized only Hal H.
    destruct (@validate_formats_accepted _ _ H) as (Hne & Hnd & Hin & _).
    rewrite Hal in Hin.
    destruct normalized as [| a [| b rest]]; [congruence | |].
    + destruct (Hin a) as [<- | []]; [now left | reflexivity].
    + exfalso.
      destruct (Hin a) as [<- | []]; [now left |].
      destruct (Hin b) as [<- | []]; [right; now left |].
      inversion Hnd; subst. apply H2. now left.
Qed.

End FormatFacts.

(** ** Tag values and heights *)

Lemma take_digits_run (ds tail : string) :
  (forall c, In c (list_ascii_of_string ds) -> is_digit c = true) ->
  (forall c rest, tail = String c rest -> is_digit c = false) ->
  take_digits (ds ++ tail) = (ds, tail).
Proof.
  intros Hds Htail. induction ds as [| c ds IH]; simpl.
  - destruct tail as [| c rest]; [reflexivity |].
    simpl. now rewrite (Htail c rest eq_refl).
  - rewrite (Hds c) by now left.
    rewrite IH; [reflexivity |]. intros d Hd. apply Hds. now right.
Qed.

Lemma first_digit_run_found (prefix ds tail : string) :
  (forall c, In c (list_ascii_of_string prefix) -> is_digit c = false) ->
  ds <> EmptyString ->
  (forall c, In c (list_ascii_of_string ds) -> is_digit c = true) ->
  (forall c rest, tail = String c rest -> is_digit c = false) ->
  first_digit_run (prefix ++ ds ++ tail) = Some (ds, tail).
Proof.
  intros Hp Hne Hds Htail. induction prefix as [| c prefix IH]; simpl.
  - destruct ds as [| d ds']; [congruence |].
    change (String d ds' ++ tail)%string with (String d (ds' ++ tail)).
    cbn [first_digit_run]. rewrite (Hds d) by now left.
    change (String d (ds' ++ tail)) with (String d ds' ++ tail)%string.
    now rewrite take_digits_run.
  - rewrite (Hp c) by now left. apply IH.
    intros d Hd. apply Hp. now right.
Qed.

Lemma decimal_value_from_app (acc : N) (ds : string) (c : ascii) :
  decimal_value_from acc (ds ++ String c EmptyString)
  = (decimal_value_from acc ds * 10 + digit_value c)%N.
Proof.
  revert acc. induction ds as [| d ds IH]; intro acc; simpl; [reflexivity |].
  apply IH.
Qed.

(** X19: on a string, [_parse_float] reads the first run of digits as a
    whole number and nothing else: whatever stands before the run (a
    minus sign, say) and whatever follows it (a decimal point and a
    fraction, a unit) is dropped, and the value is the decimal reading of
    the run; when a backslash, one more character and a digit follow the
    run, the result is [None]. *)
Theorem parse_float_reads_first_digit_run (ds : string) :
  ds <> EmptyString ->
  (forall c, In c (list_ascii_of_string ds) -> is_digit c = true) ->
  let value := Some (inject_Z (Z.of_N (decimal_value ds))) in
  (forall prefix tail,
     (forall c, In c (list_ascii_of_string prefix) -> is_digit c = false) ->
     (forall c rest, tail = String c rest -> is_digit c = false) ->
     _parse_float (Some (TagStr (prefix ++ ds ++ tail)))
     = if escaped_group_matches tail then None else value)
  /\ (forall fraction,
        _parse_float (Some (TagStr (ds ++ "." ++ fraction))) = value)
  /\ _parse_float (Some (TagStr ("-" ++ ds))) = value
  /\ (forall c,
        decimal_value (ds ++ String c EmptyString)
        = (decimal_value ds * 10 + digit_value c)%N).
Proof.
  intros Hne Hds. cbv zeta.
  assert (Hgen : forall prefix tail,
     (forall c, In c (list_ascii_of_string prefix) -> is_digit c = false) ->
     (forall c rest, tail = String c rest -> is_digit c = false) ->
     _parse_float (Some (TagStr (prefix ++ ds ++ tail)))
     = if escaped_group_matches tail then None
       else Some (inject_Z (Z.of_N (decimal_value ds)))).
  { intros prefix tail Hp Ht. unfold _parse_float.
    now rewrite first_digit_run_found. }
  split; [exact Hgen |]. split; [| split].
  - intro fraction.
    specialize (Hgen EmptyString ("." ++ fraction)%string).
    change (EmptyString ++ ds ++ "." ++ fraction)%string
      with (ds ++ "." ++ fraction)%string in Hgen.
    rewrite Hgen.
    + destruct fraction as [| a [| b rest]]; reflexivity.
    + intros c [].
    + intros c rest Heq. inversion Heq; subst. reflexivity.
  - specialize (Hgen "-"%string EmptyString).
    assert (Hd : (ds ++ "")%string = ds).
    { clear. induction ds as [| c ds' IH]; simpl; [reflexivity |].
      now rewrite IH. }
    rewrite Hd in Hgen.
    change ("-" ++ ds)%string with (String "-" ds) in *.
    rewrite Hgen; [reflexivity | |].
    + intros c [<- | []]. reflexivity.
    + intros c rest Heq. discriminate.
  - intro c. apply decimal_value_from_app.
Qed.

Lemma parse_float_reads_first_digit_run_witness :
  _parse_float (Some (TagStr "12.5")) = Some (inject_Z 12)
  /\ _parse_float (Some (TagStr "-12")) = Some (inject_Z 12).
Proof.
  assert (Hne : "12"%string <> EmptyString) by discriminate.
  assert (Hds : forall c, In c (list_ascii_of_string "12") ->
                          is_digit c = true)
    by (intros c [<- | [<- | []]]; reflexivity).
  destruct (parse_float_reads_first_digit_run Hne Hds) as (_ & Hf & Hm & _).
  split; [exact (Hf "5"%string) | exact Hm].
Defined.

Lemma truthy_float_value (value : option Q) :
  truthy_float value = true -> exists v, value = Some v /\ ~ v == 0.
Proof.
  destruct value as [v |]; simpl; [| discriminate].
  intro H. exists v. split; [reflexivity |].
  apply negb_true_iff in H. intro Heq. apply Qeq_bool_iff in Heq. congruence.
Qed.

(** X20: [_resolve_height] never returns less than the minimum height
    when the default height is not below it; a height tag that parses to
    a non-zero number decides the result alone, whatever the levels tag
    says; a missing, unreadable or zero height tag leaves the decision to
    the levels tag, and with the two of them unusable the default height
    is returned. *)
Theorem resolve_height_spec (hs : HeightSettings)
    (tags : list (string * TagValue)) :
  let height := _parse_float (dict_get tags "height") in
  let levels := _parse_float (dict_get tags "building:levels") in
  (min_height_m hs <= default_height_m hs ->
   min_height_m hs <= _resolve_height hs tags)
  /\ (forall h, height = Some h -> ~ h == 0 ->
        _resolve_height hs tags = py_max (min_height_m hs) h
        /\ h <= _resolve_height hs tags)
  /\ (forall l, (height = None \/ exists h, height = Some h /\ h == 0) ->
        levels = Some l -> ~ l == 0 ->
        _resolve_height hs tags
        = py_max (min_height_m hs) (l * level_height_m hs))
  /\ ((height = None \/ exists h, height = Some h /\ h == 0) ->
      (levels = None \/ exists l, levels = Some l /\ l == 0) ->
      _resolve_height hs tags = default_height_m hs).
Proof.
  cbv zeta. unfold _resolve_height.
  assert (Hfalse : forall value,
            (value = None \/ exists v, value = Some v /\ v == 0) ->
            truthy_float value = false).
  { intros value [-> | [v [-> Hv]]]; [reflexivity |]. simpl.
    apply Qeq_bool_iff in Hv. now rewrite Hv. }
  assert (Htrue : forall value v, value = Some v -> ~ v == 0 ->
                                  truthy_float value = true).
  { intros value v -> Hv. simpl. apply negb_true_iff.
    destruct (Qeq_bool v 0) eqn:E; [| reflexivity].
    apply Qeq_bool_iff in E. contradiction. }
  split; [| split; [| split]].
  - intro Hmin.
    destruct (truthy_float (_parse_float (dict_get tags "height")));
      [apply py_max_ge_l |].
    destruct (truthy_float (_parse_float (dict_get tags "building:levels")));
      [apply py_max_ge_l | exact Hmin].
  - intros h Hh Hnz. rewrite (Htrue _ h Hh Hnz), Hh. simpl.
    split; [reflexivity | apply py_max_ge_r].
  - intros l Hh Hl Hnz. rewrite (Hfalse _ Hh), (Htrue _ l Hl Hnz), Hl.
    reflexivity.
  - intros Hh Hl. now rewrite (Hfalse _ Hh), (Hfalse _ Hl).
Qed.

Lemma resolve_height_spec_witness :
  min_height_m default_height_settings
    <= default_height_m default_height_settings
  /\ min_height_m default_height_settings
     <= _resolve_height default_height_settings
          [("height"%string, TagStr "0");
           ("building:levels"%string, TagStr "2")].
Proof.
  assert (H : min_height_m default_height_settings
              <= default_height_m default_height_settings)
    by (vm_compute; discriminate).
  split; [exact H |].
  exact (proj1 (resolve_height_spec default_height_settings
                  [("height"%string, TagStr "0");
                   ("building:levels"%string, TagStr "2")]) H).
Defined.

(** ** Tiles *)

Lemma axis_steps_enough_fuel (step : Q) (fuel : nat) :
  0 < step ->
  forall x max_x,
    max_x - x <= inject_Z (Z.of_nat fuel) * step ->
    exists steps, axis_steps fuel x max_x step = Some steps.
Proof.
  intro Hstep. induction fuel as [| fuel IH]; intros x max_x Hfuel.
  - simpl. destruct (Qltb x max_x) eqn:E; [| now eexists].
    apply Qltb_true in E. exfalso.
    change (inject_Z (Z.of_nat 0)) with 0 in Hfuel. lra.
  - simpl. destruct (Qltb x max_x) eqn:E; [| now eexists].
    destruct (IH (py_min (x + step) max_x) max_x) as [steps Hsteps].
    + rewrite Nat2Z.inj_succ in Hfuel. unfold Z.succ in Hfuel.
      rewrite inject_Z_plus in Hfuel.
      change (inject_Z 1) with 1 in Hfuel.
      assert (Hnn : 0 <= inject_Z (Z.of_nat fuel) * step).
      { apply Qmult_le_0_compat; [| lra].
        unfold Qle. simpl. lia. }
      unfold py_min. destruct (Qltb max_x (x + step)); lra.
    + rewrite Hsteps. now eexists.
Qed.

Lemma axis_steps_more_fuel (step : Q) (fuel : nat) :
  forall x max_x steps,
    axis_steps fuel x max_x step = Some steps ->
    forall fuel', (fuel <= fuel')%nat ->
                  axis_steps fuel' x max_x step = Some steps.
Proof.
  induction fuel as [| fuel IH]; intros x max_x steps H fuel' Hle.
  - simpl in H. destruct (Qltb x max_x) eqn:E; [discriminate |].
    destruct fuel'; simpl; now rewrite E.
  - simpl in H. destruct (Qltb x max_x) eqn:E.
    + destruct fuel' as [| fuel']; [lia |]. simpl. rewrite E.
      destruct (axis_steps fuel (py_min (x + step) max_x) max_x step)
        as [rest |] eqn:Er; [| discriminate].
      rewrite (IH _ _ _ Er fuel') by lia. exact H.
    + destruct fuel'; simpl; now rewrite E.
Qed.

Lemma axis_steps_chain (step : Q) (fuel : nat) :
  0 < step ->
  forall x max_x steps,
    axis_steps fuel x max_x step = Some steps ->
    chains_from x steps
    /\ (x <= max_x -> chain_end x steps == max_x)
    /\ (forall a b, In (a, b) steps ->
          x <= a /\ a < b /\ b <= a + step /\ b <= max_x)
    /\ (steps = [] <-> max_x <= x).
Proof.
  intro Hstep. induction fuel as [| fuel IH]; intros x max_x steps H.
  - simpl in H. destruct (Qltb x max_x) eqn:E; [discriminate |].
    apply Qltb_false in E. inversion H; subst. simpl.
    repeat split; try tauto; try (intros; lra); try (intros a b []).
  - simpl in H. destruct (Qltb x max_x) eqn:E.
    + apply Qltb_true in E.
      destruct (axis_steps fuel (py_min (x + step) max_x) max_x step)
        as [rest |] eqn:Er; [| discriminate].
      inversion H; subst; clear H.
      destruct (IH _ _ _ Er) as (Hc & He & Hin & Hnil).
      assert (Hnext : x < py_min (x + step) max_x
                      /\ py_min (x + step) max_x <= x + step
                      /\ py_min (x + step) max_x <= max_x).
      { unfold py_min. destruct (Qltb max_x (x + step)) eqn:Em.
        - apply Qltb_true in Em. repeat split; lra.
        - apply Qltb_false in Em. repeat split; lra. }
      destruct Hnext as (N1 & N2 & N3).
      simpl. split; [now split |]. split; [intros _; now apply He |].
      split.
      * intros a b [Heq | Hab].
        -- inversion Heq; subst. repeat split; lra.
        -- destruct (Hin a b Hab) as (A & B & C & D).
           repeat split; lra.
      * split; [discriminate | intro Habs; exfalso; lra].
    + apply Qltb_false in E. inversion H; subst. simpl.
      repeat split; try tauto; try (intros; lra); try (intros a b []).
Qed.

Lemma axis_steps_length (step : Q) (fuel : nat) :
  forall x max_x x' max_x' steps steps',
    max_x - x == max_x' - x' ->
    axis_steps fuel x max_x step = Some steps ->
    axis_steps fuel x' max_x' step = Some steps' ->
    List.length steps = List.length steps'.
Proof.
  induction fuel as [| fuel IH]; intros x m x' m' steps steps' Hw H H'.
  - simpl in H, H'.
    destruct (Qltb x m); [discriminate |].
    destruct (Qltb x' m'); [discriminate |].
    inversion H; inversion H'; reflexivity.
  - simpl in H, H'.
    destruct (Qltb x m) eqn:E; destruct (Qltb x' m') eqn:E'.
    + destruct (axis_steps fuel (py_min (x + step) m) m step)
        as [rest |] eqn:Er; [| discriminate].
      destruct (axis_steps fuel (py_min (x' + step) m') m' step)
        as [rest' |] eqn:Er'; [| discriminate].
      inversion H; inversion H'; subst. simpl. f_equal.
      refine (IH _ _ _ _ _ _ _ Er Er').
      unfold py_min.
      destruct (Qltb m (x + step)) eqn:A;
        destruct (Qltb m' (x' + step)) eqn:A';
        try apply Qltb_true in A; try apply Qltb_false in A;
        try apply Qltb_true in A'; try apply Qltb_false in A'; lra.
    + apply Qltb_true in E. apply Qltb_false in E'. exfalso. lra.
    + apply Qltb_false in E. apply Qltb_true in E'. exfalso. lra.
    + inversion H; inversion H'; reflexivity.
Qed.

Section TileFacts.

Context {CP : CoordinateProjector} {IP : InverseProjector}.

Lemma tile_row_steps (fuel : nat) (y next_y step : Q) :
  forall x max_x,
    tile_row fuel x max_x y next_y step
    = match axis_steps fuel x max_x step with
      | Some xs =>
          Some (map (fun xstep =>
                       make_tile (fst xstep) y (snd xstep) next_y) xs)
      | None => None
      end.
Proof.
  induction fuel as [| fuel IH]; intros x max_x; simpl.
  - now destruct (Qltb x max_x).
  - destruct (Qltb x max_x); [| reflexivity].
    rewrite IH.
    now destruct (axis_steps fuel (py_min (x + step) max_x) max_x step).
Qed.

Lemma tile_rows_grid (row_fuel : nat) (min_x max_x step : Q)
    (xs : list (Q * Q)) (fuel : nat) :
  axis_steps row_fuel min_x max_x step = Some xs ->
  forall y max_y,
    tile_rows fuel row_fuel min_x max_x y max_y step
    = match axis_steps fuel y max_y step with
      | Some ys => Some (grid_tiles xs ys)
      | None => None
      end.
Proof.
  intro Hxs. induction fuel as [| fuel IH]; intros y max_y; simpl.
  - now destruct (Qltb y max_y).
  - destruct (Qltb y max_y); [| reflexivity].
    rewrite tile_row_steps, Hxs, IH.
    now destruct (axis_steps fuel (py_min (y + step) max_y) max_y step).
Qed.

Lemma make_tile_ordered (x y next_x next_y : Q) :
  let '(south, west, north, east) := make_tile x y next_x next_y in
  south <= north /\ west <= east.
Proof.
  unfold make_tile.
  destruct (inverse_project x y) as [west south].
  destruct (inverse_project next_x next_y) as [east north].
  split.
  - unfold py_min, py_max.
    destruct (Qltb north south) eqn:A; destruct (Qltb south north) eqn:B;
      try apply Qltb_true in A; try apply Qltb_false in A;
      try apply Qltb_true in B; try apply Qltb_false in B; lra.
  - unfold py_min, py_max.
    destruct (Qltb east west) eqn:A; destruct (Qltb west east) eqn:B;
      try apply Qltb_true in A; try apply Qltb_false in A;
      try apply Qltb_true in B; try apply Qltb_false in B; lra.
Qed.

(** X21: for a positive tile size the two loops of [_build_tiles] end,
    whatever the radius, as soon as the fuel covers the width
    ([2 * radius <= fuel * tile_size]), and more fuel changes nothing.
    The tiles are the grid of the steps of the two axes, row after row:
    along each axis the steps follow one another from [centre - radius]
    to [centre + radius], each of positive width at most the tile size;
    there are as many rows as columns; and every tile has
    [south <= north] and [west <= east]. *)
Theorem build_tiles_grid (fuel : nat) (longitude latitude : Q)
    (radius_m tile_size_m : Z) :
  (0 < tile_size_m)%Z ->
  (2 * radius_m <= Z.of_nat fuel * tile_size_m)%Z ->
  let centre := project_point longitude latitude in
  let min_x := fst centre - inject_Z radius_m in
  let max_x := fst centre + inject_Z radius_m in
  let min_y := snd centre - inject_Z radius_m in
  let max_y := snd centre + inject_Z radius_m in
  let step := inject_Z tile_size_m in
  exists xs ys,
    _build_tiles fuel longitude latitude radius_m tile_size_m
    = Some (grid_tiles xs ys)
    /\ (forall fuel', (fuel <= fuel')%nat ->
          _build_tiles fuel' longitude latitude radius_m tile_size_m
          = Some (grid_tiles xs ys))
    /\ List.length (grid_tiles xs ys)
       = (List.length ys * List.length xs)%nat
    /\ List.length xs = List.length ys
    /\ chains_from min_x xs /\ chains_from min_y ys
    /\ ((0 <= radius_m)%Z ->
        chain_end min_x xs == max_x /\ chain_end min_y ys == max_y)
    /\ (forall a b, In (a, b) xs ->
          min_x <= a /\ a < b /\ b <= a + step /\ b <= max_x)
    /\ (forall a b, In (a, b) ys ->
          min_y <= a /\ a < b /\ b <= a + step /\ b <= max_y)
    /\ ((radius_m <= 0)%Z -> grid_tiles xs ys = [])
    /\ (forall south west north east,
          In (south, west, north, east) (grid_tiles xs ys) ->
          south <= north /\ west <= east).
Proof.
  intros Htile Hfuel. cbv zeta.
  destruct (project_point longitude latitude) as [cx cy] eqn:Ec.
  simpl fst. simpl snd.
  assert (Hstep : 0 < inject_Z tile_size_m) by (unfold Qlt; simpl; lia).
  assert (Hwidth : inject_Z (2 * radius_m)
                   <= inject_Z (Z.of_nat fuel) * inject_Z tile_size_m).
  { rewrite <- inject_Z_mult, <- Zle_Qle. exact Hfuel. }
  rewrite inject_Z_mult in Hwidth. change (inject_Z 2) with 2 in Hwidth.
  destruct (@axis_steps_enough_fuel (inject_Z tile_size_m) fuel Hstep
              (cx - inject_Z radius_m) (cx + inject_Z radius_m))
    as [xs Hxs]; [lra |].
  destruct (@axis_steps_enough_fuel (inject_Z tile_size_m) fuel Hstep
              (cy - inject_Z radius_m) (cy + inject_Z radius_m))
    as [ys Hys]; [lra |].
  exists xs, ys.
  destruct (@axis_steps_chain _ fuel Hstep _ _ _ Hxs) as (Cx & Ex & Ix & Nx).
  destruct (@axis_steps_chain _ fuel Hstep _ _ _ Hys) as (Cy & Ey & Iy & Ny).
  assert (Hbuild : forall fuel', (fuel <= fuel')%nat ->
            _build_tiles fuel' longitude latitude radius_m tile_size_m
            = Some (grid_tiles xs ys)).
  { intros fuel' Hle. unfold _build_tiles. rewrite Ec.
    rewrite (@tile_rows_grid fuel' _ _ _ xs fuel')
      by (now apply (@axis_steps_more_fuel _ fuel _ _ _ Hxs)).
    now rewrite (@axis_steps_more_fuel _ fuel _ _ _ Hys fuel' Hle). }
  split; [apply Hbuild; lia |]. split; [exact Hbuild |].
  assert (Hlen : List.length (grid_tiles xs ys)
                 = (List.length ys * List.length xs)%nat).
  { unfold grid_tiles. clear.
    induction ys as [| ystep ys IH]; simpl; [reflexivity |].
    now rewrite length_app, length_map, IH. }
  split; [exact Hlen |].
  split.
  { refine (@axis_steps_length (inject_Z tile_size_m) fuel _ _ _ _ _ _
              _ Hxs Hys). ring. }
  split; [exact Cx |]. split; [exact Cy |].
  split.
  { intro Hr. assert (0 <= inject_Z radius_m) by (unfold Qle; simpl; lia).
    split; [apply Ex | apply Ey]; lra. }
  split; [exact Ix |]. split; [exact Iy |].
  split.
  { intro Hr. assert (inject_Z radius_m <= 0) by (unfold Qle; simpl; lia).
    assert (Hys0 : ys = []) by (apply Ny; lra).
    now rewrite Hys0. }
  intros south west north east Hin. unfold grid_tiles in Hin.
  apply in_flat_map in Hin. destruct Hin as [ystep [_ Hin]].
  apply in_map_iff in Hin. destruct Hin as [xstep [Heq _]].
  pose proof (make_tile_ordered (fst xstep) (fst ystep) (snd xstep)
                (snd ystep)) as Hord.
  rewrite Heq in Hord. exact Hord.
Qed.

Lemma tile_row_never_ends (step : Q) (fuel : nat) :
  step <= 0 ->
  forall x max_x y next_y,
    x < max_x -> tile_row fuel x max_x y next_y step = None.
Proof.
  intro Hstep. induction fuel as [| fuel IH]; intros x max_x y next_y Hlt;
    simpl.
  - apply Qltb_true in Hlt. now rewrite Hlt.
  - pose proof Hlt as Hlt'. apply Qltb_true in Hlt'. rewrite Hlt'.
    rewrite IH; [reflexivity |].
    unfold py_min. destruct (Qltb max_x (x + step)) eqn:E.
    + apply Qltb_true in E. exfalso. lra.
    + lra.
Qed.

(** X22: with a tile size that is zero or negative and a positive radius
    the loops of [_build_tiles] never end: no amount of fuel yields a
    tile list. *)
Theorem build_tiles_never_ends (longitude latitude : Q)
    (radius_m tile_size_m : Z) :
  (tile_size_m <= 0)%Z -> (0 < radius_m)%Z ->
  forall fuel,
    _build_tiles fuel longitude latitude radius_m tile_size_m = None.
Proof.
  intros Htile Hr fuel. unfold _build_tiles.
  destruct (project_point longitude latitude) as [cx cy].
  assert (Hstep : inject_Z tile_size_m <= 0) by (unfold Qle; simpl; lia).
  assert (HR : 0 < inject_Z radius_m) by (unfold Qlt; simpl; lia).
  assert (Hy : Qltb (cy - inject_Z radius_m) (cy + inject_Z radius_m) = true)
    by (apply Qltb_true; lra).
  destruct fuel as [| fuel]; cbn [tile_rows]; rewrite Hy; [reflexivity |].
  rewrite tile_row_never_ends; [reflexivity | exact Hstep | lra].
Qed.

End TileFacts.

Lemma validate_formats_valid_witness :
  NoDup ["stl"%string]
  /\ (Z.of_nat (List.length ["stl"%string]) <= 3)%Z.
Proof.
  destruct (@validate_formats_valid ReferenceServices.lower
              ["stl"%string] 3 ["STL"%string; "stl"%string] ["stl"%string]
              ltac:(vm_compute; reflexivity))
    as (_ & Hnd & _ & Hlen & _).
  split; assumption.
Defined.

Lemma build_tiles_grid_witness :
  exists xs ys,
    @_build_tiles Reference.projector ReferenceServices.inverse_projector
      3 0 0 350 300
    = Some (@grid_tiles ReferenceServices.inverse_projector xs ys)
    /\ List.length xs = List.length ys.
Proof.
  destruct (@build_tiles_grid Reference.projector
              ReferenceServices.inverse_projector 3 0 0 350 300
              ltac:(lia) ltac:(simpl; lia))
    as (xs & ys & Hb & _ & _ & Hlen & _).
  exists xs, ys. split; assumption.
Defined.

Lemma build_tiles_never_ends_witness :
  @_build_tiles Reference.projector ReferenceServices.inverse_projector
    5 0 0 100 0 = None.
Proof.
  apply (@build_tiles_never_ends Reference.projector
           ReferenceServices.inverse_projector 0 0 100 0); lia.
Defined.

(** ** Features of all tiles *)

Lemma setdefault_tiles {A T} (key : A -> Z) (proj : T -> list A)
    (f : list A -> T -> list A) :
  (forall d tile, f d tile = fold_left (setdefault key) (proj tile) d) ->
  forall parsed d,
    fold_left f parsed d
    = fold_left (setdefault key) (flat_map proj parsed) d.
Proof.
  intro Hf. induction parsed as [| tile rest IH]; intro d; simpl;
    [reflexivity |].
  now rewrite fold_left_app, IH, Hf.
Qed.

Lemma setdefault_fold_spec {A} (key : A -> Z) (items : list A) :
  forall d0,
    NoDup (map key d0) ->
    NoDup (map key (fold_left (setdefault key) items d0))
    /\ forall x,
         In x (fold_left (setdefault key) items d0)
         <-> In x d0
             \/ ((forall y, In y d0 -> key y <> key x)
                 /\ first_with key x items).
Proof.
  induction items as [| a rest IH]; intros d0 Hnd.
  - simpl. split; [exact Hnd |]. intro x. split; [now left |].
    intros [H | [_ (pre & post & Heq & _)]]; [exact H |].
    destruct pre; discriminate.
  - change (fold_left (setdefault key) (a :: rest) d0)
      with (fold_left (setdefault key) rest (setdefault key d0 a)).
    destruct (existsb (fun y => Z.eqb (key y) (key a)) d0) eqn:E.
    + assert (Hs : setdefault key d0 a = d0)
        by (unfold setdefault; now rewrite E).
      rewrite Hs.
      apply existsb_exists in E. destruct E as (y0 & Hy0 & Hk).
      apply Z.eqb_eq in Hk.
      destruct (IH d0 Hnd) as [Hn Hin]. split; [exact Hn |].
      intro x. rewrite Hin. split.
      * intros [H | [Hf (pre & post & -> & Hpre)]]; [now left |].
        right. split; [exact Hf |]. exists (a :: pre), post.
        split; [reflexivity |].
        intros y [<- | Hy]; [| now apply Hpre].
        rewrite <- Hk. now apply Hf.
      * intros [H | [Hf (pre & post & Heq & Hpre)]]; [now left |].
        destruct pre as [| p pre]; simpl in Heq; inversion Heq; subst.
        -- exfalso. now apply (Hf y0 Hy0).
        -- right. split; [exact Hf |]. exists pre, post.
           split; [reflexivity |]. intros y Hy. apply Hpre. now right.
    + assert (Hs : setdefault key d0 a = d0 ++ [a])
        by (unfold setdefault; now rewrite E).
      rewrite Hs.
      assert (Hfresh : forall y, In y d0 -> key y <> key a).
      { intros y Hy Heq. apply not_true_iff_false in E. apply E.
        apply existsb_exists. exists y. split; [exact Hy |].
        now apply Z.eqb_eq. }
      assert (Hnd' : NoDup (map key (d0 ++ [a]))).
      { rewrite map_app. simpl.
        apply NoDup_app; [exact Hnd | repeat constructor; intros [] |].
        intros k Hk [<- | []]. apply in_map_iff in Hk.
        destruct Hk as (y & Hyk & Hy). now apply (Hfresh y Hy). }
      destruct (IH (d0 ++ [a]) Hnd') as [Hn Hin]. split; [exact Hn |].
      intro x. rewrite Hin, in_app_iff. simpl. split.
      * intros [[H | [<- | []]] | [Hf (pre & post & -> & Hpre)]].
        -- now left.
        -- right. split; [exact Hfresh |]. exists [], rest.
           split; [reflexivity | intros ? []].
        -- right. split.
           { intros y Hy. apply Hf. apply in_or_app. now left. }
           exists (a :: pre), post. split; [reflexivity |].
           intros y [<- | Hy]; [| now apply Hpre].
           apply Hf. apply in_or_app. right. now left.
      * intros [H | [Hf (pre & post & Heq & Hpre)]]; [left; now left |].
        destruct pre as [| p pre]; simpl in Heq; inversion Heq; subst.
        -- left. right. now left.
        -- right. split.
           { intros y Hy. apply in_app_or in Hy.
             destruct Hy as [Hy | [<- | []]];
               [now apply Hf | apply Hpre; now left]. }
           exists pre, post. split; [reflexivity |].
           intros y Hy. apply Hpre. now right.
Qed.

Lemma dedupe_spec {A} (key : A -> Z) (items : list A) :
  NoDup (map key (fold_left (setdefault key) items []))
  /\ forall x,
       In x (fold_left (setdefault key) items [])
       <-> first_with key x items.
Proof.
  destruct (@setdefault_fold_spec A key items [] (NoDup_nil _)) as [Hn Hin].
  split; [exact Hn |]. intro x. rewrite Hin. split.
  - intros [[] | [_ H]]. exact H.
  - intro H. right. split; [intros ? [] | exact H].
Qed.

Lemma NoDup_map_filter {A} (key : A -> Z) (f : A -> bool) (l : list A) :
  NoDup (map key l) -> NoDup (map key (filter f l)).
Proof.
  induction l as [| a l IH]; simpl; intro H; [constructor |].
  inversion H; subst. destruct (f a); simpl; [| now apply IH].
  constructor; [| now apply IH].
  intro Hin. apply H2. apply in_map_iff in Hin.
  destruct Hin as (y & Hk & Hy). apply filter_In in Hy.
  apply in_map_iff. exists y. now split.
Qed.

Lemma insert_descending_perm {A} (key : A -> Q) (x : A) (l : list A) :
  Permutation (x :: l) (insert_descending key x l).
Proof.
  induction l as [| y rest IH]; simpl; [apply Permutation_refl |].
  destruct (Qltb (key y) (key x)); [apply Permutation_refl |].
  eapply perm_trans; [apply perm_swap | apply perm_skip, IH].
Qed.

Lemma insert_descending_sorted {A} (key : A -> Q) (x : A) (l : list A) :
  StronglySorted (descending key) l ->
  StronglySorted (descending key) (insert_descending key x l).
Proof.
  induction 1 as [| y rest Hs IH Hall]; simpl.
  - repeat constructor.
  - pose proof Hall as Hrest.
    rewrite Forall_forall in Hall. unfold descending in Hall.
    destruct (Qltb (key y) (key x)) eqn:E.
    + apply Qltb_true in E. constructor; [now constructor |].
      constructor; [unfold descending; lra |].
      apply Forall_forall. intros z Hz. specialize (Hall z Hz).
      unfold descending. lra.
    + apply Qltb_false in E. constructor; [exact IH |].
      apply Forall_forall. intros z Hz.
      apply (Permutation_in _
               (Permutation_sym (insert_descending_perm key x rest))) in Hz.
      destruct Hz as [<- | Hz]; [exact E | now apply Hall].
Qed.

Lemma sort_descending_spec {A} (key : A -> Q) (items : list A) :
  StronglySorted (descending key) (sort_descending key items)
  /\ Permutation items (sort_descending key items).
Proof.
  unfold sort_descending.
  assert (H : forall acc,
            StronglySorted (descending key) acc ->
            StronglySorted (descending key)
              (fold_left (fun sorted x => insert_descending key x sorted)
                         items acc)
            /\ Permutation (acc ++ items)
                 (fold_left (fun sorted x => insert_descending key x sorted)
                            items acc)).
  { induction items as [| x rest IH]; intros acc Hacc; simpl.
    - split; [exact Hacc | rewrite app_nil_r; apply Permutation_refl].
    - destruct (IH (insert_descending key x acc)
                  (@insert_descending_sorted _ key x acc Hacc)) as [Hs Hp].
      split; [exact Hs |].
      eapply perm_trans; [| exact Hp].
      eapply perm_trans; [apply Permutation_sym, Permutation_middle |].
      apply (Permutation_app_tail rest (insert_descending_perm key x acc)). }
  destruct (H [] (SSorted_nil _)) as [Hs Hp]. split; assumption.
Qed.

Lemma sorted_prefix {A} (R : A -> A -> Prop) (l1 l2 : list A) :
  StronglySorted R (l1 ++ l2) ->
  StronglySorted R l1
  /\ forall a b, In a l1 -> In b l2 -> R a b.
Proof.
  induction l1 as [| x l1 IH]; simpl; intro H.
  - split; [constructor | intros a b []].
  - inversion H; subst. destruct (IH H2) as [Hs Hr].
    rewrite Forall_forall in H3. split.
    + constructor; [exact Hs |]. apply Forall_forall. intros z Hz.
      apply H3. apply in_or_app. now left.
    + intros a b [<- | Ha] Hb; [| now apply Hr].
      apply H3. apply in_or_app. now right.
Qed.

Lemma slice_to_split {A} (n : Z) (items : list A) :
  exists dropped,
    items = slice_to n items ++ dropped
    /\ ((0 <= n)%Z ->
        (Z.of_nat (List.length (slice_to n items)) <= n)%Z
        /\ (dropped <> [] ->
            Z.of_nat (List.length (slice_to n items)) = n)).
Proof.
  unfold slice_to. destruct (0 <=? n)%Z eqn:E.
  - exists (skipn (Z.to_nat n) items).
    split; [symmetry; apply firstn_skipn |]. intros Hn.
    pose proof (firstn_le_length (Z.to_nat n) items) as Hle.
    split; [lia |]. intro Hd.
    destruct (Nat.le_gt_cases (List.length items) (Z.to_nat n)) as [Hl | Hl].
    + exfalso. apply Hd. now apply skipn_all2.
    + rewrite length_firstn. lia.
  - exists (skipn (List.length items - Z.to_nat (- n)) items).
    split; [symmetry; apply firstn_skipn | lia].
Qed.

Section FetchFacts.

Context {GA : GeometryAlgebra} {CP : CoordinateProjector}
        {GP : GeometryPredicates}.

(** X23: what [fetch_environment] makes of the parsed tiles.  The
    buildings come largest area first, no OSM id twice, at most
    [max_buildings] of them; together with the buildings the cut drops
    they are exactly the first occurrences of their ids among the tiles
    that intersect the circle, and no dropped building is larger than a
    kept one; roads, parks and water are, when any building was found,
    the first occurrences of their ids that intersect the circle. *)
Theorem fetch_environment_collect_spec (longitude latitude : Q)
    (radius_m max_buildings : Z) (parsed : list ParsedTile) :
  let circle :=
    GPolygon (point_buffer (project_point longitude latitude)
                           (inject_Z radius_m) 16) in
  let found_buildings :=
    flat_map (fun tile : ParsedTile => fst (fst (fst tile))) parsed in
  let found_roads :=
    flat_map (fun tile : ParsedTile => snd (fst (fst tile))) parsed in
  let found_parks :=
    flat_map (fun tile : ParsedTile => snd (fst tile)) parsed in
  let found_waters :=
    flat_map (fun tile : ParsedTile => snd tile) parsed in
  let '(buildings, roads, parks, waters) :=
    fetch_environment_collect longitude latitude radius_m max_buildings
                              parsed in
  StronglySorted (descending area_m2) buildings
  /\ NoDup (map osm_id buildings)
  /\ NoDup (map road_osm_id roads)
  /\ NoDup (map park_osm_id parks)
  /\ NoDup (map water_osm_id waters)
  /\ ((0 <= max_buildings)%Z ->
      (Z.of_nat (List.length buildings) <= max_buildings)%Z)
  /\ (exists dropped,
        (forall b, In b (buildings ++ dropped)
                   <-> first_with osm_id b found_buildings
                       /\ intersects (polygon_projected b) circle = true)
        /\ NoDup (map osm_id (buildings ++ dropped))
        /\ (forall b b', In b buildings -> In b' dropped ->
                         area_m2 b' <= area_m2 b)
        /\ ((0 <= max_buildings)%Z -> dropped <> [] ->
            Z.of_nat (List.length buildings) = max_buildings))
  /\ (found_buildings <> [] ->
      (forall r, In r roads
                 <-> first_with road_osm_id r found_roads
                     /\ intersects (line_projected r) circle = true)
      /\ (forall p, In p parks
                    <-> first_with park_osm_id p found_parks
                        /\ intersects (park_polygon_projected p) circle
                           = true)
      /\ (forall w, In w waters
                    <-> first_with water_osm_id w found_waters
                        /\ intersects (water_polygon_projected w) circle
                           = true)).
Proof.
  cbv zeta. unfold fetch_environment_collect.
  destruct (project_point longitude latitude) as [cx cy].
  rewrite (@setdefault_tiles _ ParsedTile osm_id
             (fun tile => fst (fst (fst tile))))
    by (intros d [[[bs rs] ps] ws]; reflexivity).
  rewrite (@setdefault_tiles _ ParsedTile road_osm_id
             (fun tile => snd (fst (fst tile))))
    by (intros d [[[bs rs] ps] ws]; reflexivity).
  rewrite (@setdefault_tiles _ ParsedTile park_osm_id
             (fun tile => snd (fst tile)))
    by (intros d [[[bs rs] ps] ws]; reflexivity).
  rewrite (@setdefault_tiles _ ParsedTile water_osm_id
             (fun tile => snd tile))
    by (intros d [[[bs rs] ps] ws]; reflexivity).
  set (found_buildings :=
         flat_map (fun tile : ParsedTile => fst (fst (fst tile))) parsed).
  set (found_roads :=
         flat_map (fun tile : ParsedTile => snd (fst (fst tile))) parsed).
  set (found_parks :=
         flat_map (fun tile : ParsedTile => snd (fst tile)) parsed).
  set (found_waters := flat_map (fun tile : ParsedTile => snd tile) parsed).
  set (circle := GPolygon (point_buffer (cx, cy) (inject_Z radius_m) 16)).
  destruct (dedupe_spec osm_id found_buildings) as [Hbn Hbi].
  destruct (dedupe_spec road_osm_id found_roads) as [Hrn Hri].
  destruct (dedupe_spec park_osm_id found_parks) as [Hpn Hpi].
  destruct (dedupe_spec water_osm_id found_waters) as [Hwn Hwi].
  set (footprints := fold_left (setdefault osm_id) found_buildings []) in *.
  destruct (truthy_list footprints) eqn:Et; simpl negb; cbv iota.
  - destruct (sort_descending_spec area_m2
                (filter (fun footprint =>
                           intersects (polygon_projected footprint) circle)
                        footprints)) as [Hs Hp].
    remember (filter (fun footprint =>
                        intersects (polygon_projected footprint) circle)
                     footprints) as filtered eqn:Efiltered.
    remember (sort_descending area_m2 filtered) as sorted eqn:Esorted.
    destruct (slice_to_split max_buildings sorted) as (dropped & Hsplit & Hlen).
    remember (slice_to max_buildings sorted) as kept eqn:Ekept.
    assert (Hnd : NoDup (map osm_id sorted)).
    { apply (Permutation_NoDup (Permutation_map osm_id Hp)).
      rewrite Efiltered. now apply NoDup_map_filter. }
    assert (Hmem : forall b, In b sorted
                     <-> first_with osm_id b found_buildings
                         /\ intersects (polygon_projected b) circle = true).
    { intro b. split.
      - intro Hb. apply (Permutation_in _ (Permutation_sym Hp)) in Hb.
        rewrite Efiltered in Hb. apply filter_In in Hb.
        destruct Hb as [Hb Hi]. split; [now apply Hbi | exact Hi].
      - intros [Hf Hi]. apply (Permutation_in _ Hp). rewrite Efiltered.
        apply filter_In. split; [now apply Hbi | exact Hi]. }
    rewrite Hsplit in Hs, Hnd, Hmem.
    destruct (sorted_prefix _ _ Hs) as [Hks Hkd].
    split; [exact Hks |].
    split.
    { rewrite map_app in Hnd. now apply NoDup_app_remove_r in Hnd. }
    split; [now apply NoDup_map_filter |].
    split; [now apply NoDup_map_filter |].
    split; [now apply NoDup_map_filter |].
    split; [intro H0; now apply Hlen |].
    split.
    + exists dropped. split; [exact Hmem |]. split; [exact Hnd |].
      split; [intros b b' Hb Hb'; exact (Hkd b b' Hb Hb') |].
      intros H0 Hd. now apply Hlen.
    + intros _. split; [| split]; intro x; rewrite filter_In.
      * now rewrite Hri.
      * now rewrite Hpi.
      * now rewrite Hwi.
  - destruct footprints as [| b0 rest] eqn:Ef; [| discriminate].
    split; [constructor |]. repeat (split; [constructor |]).
    split; [intros; simpl; lia |]. split.
    + exists []. simpl. split.
      * intro b. split; [intros [] |]. intros [Hf _]. now apply Hbi in Hf.
      * split; [constructor |]. split; [intros b b' [] | congruence].
    + intro Hne. exfalso. destruct found_buildings as [| a l]; [congruence |].
      apply (proj2 (Hbi a)). exists [], l. split; [reflexivity | intros ? []].
Qed.

(** X24: when no tile holds a building, [fetch_environment] returns four
    empty lists: the roads, parks and water that were found are dropped
    with them, whether or not they intersect the circle. *)
Theorem fetch_environment_collect_without_buildings (longitude latitude : Q)
    (radius_m max_buildings : Z) (parsed : list ParsedTile) :
  (forall tile, In tile parsed -> fst (fst (fst tile)) = []) ->
  fetch_environment_collect longitude latitude radius_m max_buildings parsed
  = ([], [], [], []).
Proof.
  intro Hnone. unfold fetch_environment_collect.
  destruct (project_point longitude latitude) as [cx cy].
  rewrite (@setdefault_tiles _ ParsedTile osm_id
             (fun tile => fst (fst (fst tile))))
    by (intros d [[[bs rs] ps] ws]; reflexivity).
  assert (Hflat : flat_map (fun tile : ParsedTile => fst (fst (fst tile)))
                           parsed = []).
  { induction parsed as [| tile rest IH]; [reflexivity |]. simpl.
    rewrite (Hnone tile) by now left. simpl. apply IH.
    intros t Ht. apply Hnone. now right. }
  rewrite Hflat. reflexivity.
Qed.

End FetchFacts.

Lemma fetch_environment_collect_without_buildings_witness :
  @fetch_environment_collect Reference.geometry Reference.projector
    ReferenceServices.predicates 0 0 100 250
    [([], [Reference.street], [Reference.lawn], [Reference.pond])]
  = ([], [], [], []).
Proof.
  apply (@fetch_environment_collect_without_buildings Reference.geometry
           Reference.projector ReferenceServices.predicates).
  intros tile [<- | []]. reflexivity.
Defined.

(** ** The retry loop *)

Lemma sleeps_upto_S (n : nat) :
  sleeps_upto n ++ [(1 + Z.of_nat n)%Z] = sleeps_upto (S n).
Proof. unfold sleeps_upto. now rewrite seq_S, map_app. Qed.

Section ExecuteFacts.

Variable Payload : Type.
Variable post : Z -> PostOutcome Payload.
Variable overpass_retries : Z.

Lemma execute_attempts_from (remaining : nat) :
  forall a : nat,
    (Z.of_nat a + Z.of_nat remaining = overpass_retries)%Z ->
    (1 <= remaining)%nat ->
    exists last : nat,
      (a <= last)%nat
      /\ (Z.of_nat last < overpass_retries)%Z
      /\ run_posts (execute_attempts post overpass_retries remaining
                      (Z.of_nat a) (sleeps_upto a) a) = S last
      /\ run_sleeps (execute_attempts post overpass_retries remaining
                       (Z.of_nat a) (sleeps_upto a) a) = sleeps_upto last
      /\ (forall k, (a <= k < last)%nat ->
            exists status,
              post (Z.of_nat k) = PostStatusError status
              /\ retried_status status = true)
      /\ run_result (execute_attempts post overpass_retries remaining
                       (Z.of_nat a) (sleeps_upto a) a)
         = match post (Z.of_nat last) with
           | PostJson payload => inr payload
           | PostStatusError status => inl (status_error status)
           | PostRequestError =>
               inl (overpass_error "Unable to reach the Overpass API.")
           end
      /\ (forall status,
            post (Z.of_nat last) = PostStatusError status ->
            retried_status status = true ->
            Z.of_nat last = (overpass_retries - 1)%Z).
Proof.
  induction remaining as [| remaining IH]; intros a Hsum Hpos; [lia |].
  cbn [execute_attempts].
  destruct (post (Z.of_nat a)) as [payload | status |] eqn:Ep.
  - exists a. cbn [run_posts run_sleeps run_result]. rewrite Ep.
    repeat split; try lia; try reflexivity;
      try (intros k Hk; exfalso; lia).
    intros status H. discriminate.
  - destruct (retried_status status
              && (Z.of_nat a <? overpass_retries - 1)%Z) eqn:Ec.
    + apply andb_true_iff in Ec. destruct Ec as [Hr Hlt].
      apply Z.ltb_lt in Hlt.
      rewrite sleeps_upto_S.
      replace (Z.of_nat a + 1)%Z with (Z.of_nat (S a)) by lia.
      destruct (IH (S a) ltac:(lia) ltac:(lia))
        as (last & Hle & Hlast & Hposts & Hsleeps & Hbefore & Hres & Hend).
      exists last.
      split; [lia |]. split; [exact Hlast |]. split; [exact Hposts |].
      split; [exact Hsleeps |]. split; [| split; assumption].
      intros k Hk. destruct (Nat.eq_dec k a) as [-> | Hne].
      * now exists status.
      * apply Hbefore. lia.
    + exists a. cbn [run_posts run_sleeps run_result]. rewrite Ep.
      repeat split; try lia; try reflexivity;
        try (intros k Hk; exfalso; lia).
      intros status' H Hr. inversion H; subst status'.
        rewrite Hr in Ec. simpl in Ec. apply Z.ltb_ge in Ec. lia.
  - exists a. cbn [run_posts run_sleeps run_result]. rewrite Ep.
    repeat split; try lia; try reflexivity;
      try (intros k Hk; exfalso; lia).
    intros status H. discriminate.
Qed.

Lemma status_error_code (status : Z) :
  overpass_status_code (status_error status) = 503%Z.
Proof.
  unfold status_error.
  destruct (status =? 429)%Z; [reflexivity |].
  now destruct (status =? 504)%Z.
Qed.

Lemma status_error_message (status : Z) :
  status_error status
  <> overpass_error "Overpass query failed after multiple retries.".
Proof.
  unfold status_error, overpass_error.
  destruct (status =? 429)%Z; [discriminate |].
  destruct (status =? 504)%Z; [discriminate |].
  cbn. discriminate.
Qed.

(** X25: a run of [_execute_overpass].  With [overpass_retries <= 0]
    nothing is posted and the error is the one of the exhausted loop.
    With a positive [overpass_retries] there is a last post, one of the
    first [overpass_retries]: every post before it was answered with 429
    or 504 and followed by a sleep of as many seconds as posts made, the
    result is what the last post leads to (its payload, the error of its
    status, or the unreachable-server error), a last post answered with
    429 or 504 is post number [overpass_retries], and the error of the
    exhausted loop does not arise.  Every error carries the status
    503. *)
Theorem execute_overpass_spec :
  (forall e,
      run_result (_execute_overpass post overpass_retries) = inl e ->
      overpass_status_code e = 503%Z)
  /\ ((overpass_retries <= 0)%Z ->
      run_posts (_execute_overpass post overpass_retries) = 0%nat
      /\ run_sleeps (_execute_overpass post overpass_retries) = []
      /\ run_result (_execute_overpass post overpass_retries)
         = inl (overpass_error
                  "Overpass query failed after multiple retries."))
  /\ ((0 < overpass_retries)%Z ->
      exists last : nat,
        (Z.of_nat last < overpass_retries)%Z
        /\ run_posts (_execute_overpass post overpass_retries) = S last
        /\ run_sleeps (_execute_overpass post overpass_retries)
           = sleeps_upto last
        /\ (forall k, (k < last)%nat ->
              exists status,
                post (Z.of_nat k) = PostStatusError status
                /\ retried_status status = true)
        /\ run_result (_execute_overpass post overpass_retries)
           = match post (Z.of_nat last) with
             | PostJson payload => inr payload
             | PostStatusError status => inl (status_error status)
             | PostRequestError =>
                 inl (overpass_error "Unable to reach the Overpass API.")
             end
        /\ (forall status,
              post (Z.of_nat last) = PostStatusError status ->
              retried_status status = true ->
              Z.of_nat last = (overpass_retries - 1)%Z)
        /\ run_result (_execute_overpass post overpass_retries)
           <> inl (overpass_error
                     "Overpass query failed after multiple retries.")).
Proof.
  assert (Hpos : (0 < overpass_retries)%Z ->
            exists last : nat,
              (Z.of_nat last < overpass_retries)%Z
              /\ run_posts (_execute_overpass post overpass_retries) = S last
              /\ run_sleeps (_execute_overpass post overpass_retries)
                 = sleeps_upto last
              /\ (forall k, (k < last)%nat ->
                    exists status,
                      post (Z.of_nat k) = PostStatusError status
                      /\ retried_status status = true)
              /\ run_result (_execute_overpass post overpass_retries)
                 = match post (Z.of_nat last) with
                   | PostJson payload => inr payload
                   | PostStatusError status => inl (status_error status)
                   | PostRequestError =>
                       inl (overpass_error
                              "Unable to reach the Overpass API.")
                   end
              /\ (forall status,
                    post (Z.of_nat last) = PostStatusError status ->
                    retried_status status = true ->
                    Z.of_nat last = (overpass_retries - 1)%Z)).
  { intro H. unfold _execute_overpass.
    destruct (@execute_attempts_from (Z.to_nat overpass_retries) 0%nat
                ltac:(lia) ltac:(lia))
      as (last & _ & Hlast & Hposts & Hsleeps & Hbefore & Hres & Hend).
    exists last. split; [exact Hlast |]. split; [exact Hposts |].
    split; [exact Hsleeps |]. split; [| split; assumption].
    intros k Hk. apply Hbefore. lia. }
  assert (Hneg : (overpass_retries <= 0)%Z ->
            _execute_overpass post overpass_retries
            = {| run_result :=
                   inl (overpass_error
                          "Overpass query failed after multiple retries.");
                 run_sleeps := [];
                 run_posts := 0 |}).
  { intro H. unfold _execute_overpass.
    replace (Z.to_nat overpass_retries) with 0%nat by lia. reflexivity. }
  split; [| split].
  - intros e He.
    destruct (Z.le_gt_cases overpass_retries 0) as [Hle | Hgt].
    + rewrite (Hneg Hle) in He. simpl in He. inversion He. reflexivity.
    + destruct (Hpos ltac:(lia)) as (last & _ & _ & _ & _ & Hres & _).
      rewrite Hres in He.
      destruct (post (Z.of_nat last)) as [payload | status |];
        inversion He; subst; [apply status_error_code | reflexivity].
  - intro Hle. rewrite (Hneg Hle). now repeat split.
  - intro Hgt.
    destruct (Hpos Hgt)
      as (last & Hlast & Hposts & Hsleeps & Hbefore & Hres & Hend).
    exists last. repeat (split; [assumption |]).
    rewrite Hres.
    destruct (post (Z.of_nat last)) as [payload | status |];
      [discriminate | | discriminate].
    intro H. inversion H as [Heq].
    now apply (@status_error_message status).
Qed.

End ExecuteFacts.

Example execute_overpass_busy_twice :
  _execute_overpass ReferenceServices.busy_twice 3
  = {| run_result := inr "{}"%string;
       run_sleeps := [1%Z; 2%Z];
       run_posts := 3 |}.
Proof. reflexivity. Qed.

(** ** The endpoints *)

Section EndpointFacts.

Context {GA : GeometryAlgebra} {CP : CoordinateProjector} {MK : MeshKernel}.

Variable fetch : Q -> Q -> Z -> OverpassError + Environment.
Variable max_radius_m : Z.

Lemma clamped_request (request : ModelRequest) :
  (if (radius_meters (with_forced_options request) >? max_radius_m)%Z
   then with_radius (with_forced_options request) max_radius_m
   else with_forced_options request)
  = {| latitude := latitude request;
       longitude := longitude request;
       radius_meters := Z.min (radius_meters request) max_radius_m;
       highlight_home := true;
       formats := ["stl"%string] |}.
Proof.
  unfold with_radius, with_forced_options. simpl.
  rewrite Z.gtb_ltb.
  destruct (Z.ltb_spec max_radius_m (radius_meters request)).
  - now rewrite Z.min_r by lia.
  - now rewrite Z.min_l by lia.
Qed.

(** X26: what of a request reaches the pipeline.  [create_models]
    answers two requests alike when they agree on the latitude, the
    longitude and the radius cut down to [max_radius_m]; [preview_models]
    when they agree on the latitude, the longitude and the radius.  The
    highlight flag and the formats of the request have no part in
    either answer. *)
Theorem endpoints_ignore_request_options (s : Settings)
    (r1 r2 : ModelRequest) :
  latitude r1 = latitude r2 ->
  longitude r1 = longitude r2 ->
  (Z.min (radius_meters r1) max_radius_m
   = Z.min (radius_meters r2) max_radius_m ->
   create_models fetch max_radius_m s r1
   = create_models fetch max_radius_m s r2)
  /\ (radius_meters r1 = radius_meters r2 ->
      preview_models fetch s r1 = preview_models fetch s r2).
Proof.
  intros Hlat Hlon. split; intro Hr.
  - unfold create_models. cbv zeta.
    rewrite !clamped_request, Hlat, Hlon, Hr. reflexivity.
  - unfold preview_models, with_forced_options. cbv zeta.
    rewrite Hlat, Hlon, Hr. reflexivity.
Qed.

Lemma preview_failure_is_archive_failure (s : Settings)
    (request : ModelRequest)
    (buildings : list BuildingFootprint) (roads : list RoadFeature)
    (parks : list ParkFeature) (waters : list WaterFeature)
    (e : ModelBuildError) :
  generate_preview_data s request buildings roads parks waters = Raise e ->
  build_model_archive s request buildings roads parks waters = Raise e.
Proof.
  unfold generate_preview_data, build_model_archive.
  destruct (negb (truthy_list buildings)); [intro H; now inversion H |].
  destruct (_build_scene_context s request buildings roads parks waters)
    as [ctx | e']; unfold bind; [discriminate | intro H; now inversion H].
Qed.

(** X27: the two endpoints on one request whose radius is within
    [max_radius_m].  An error of [preview_models] is an error of
    [create_models] with the same detail, and with the same status
    except that a build error answered 400 by [preview_models] is
    answered 500 by [create_models]; and when [create_models] answers
    with an archive, [preview_models] answers with a preview whose
    building count is the one of the [X-Building-Count] header. *)
Theorem endpoints_agree (s : Settings) (request : ModelRequest) :
  (radius_meters request <= max_radius_m)%Z ->
  (forall code detail,
      preview_models fetch s request = HttpError code detail ->
      create_models fetch max_radius_m s request = HttpError code detail
      \/ (code = 400%Z
          /\ create_models fetch max_radius_m s request
             = HttpError 500 detail))
  /\ (forall body,
        create_models fetch max_radius_m s request = HttpOk body ->
        media_type body = "application/zip"%string
        /\ exists meta previews,
             preview_models fetch s request = HttpOk (meta, previews)
             /\ x_building_count body
                = str_of_int (Z.of_nat (building_count meta))).
Proof.
  intro Hr.
  assert (Hc : create_models fetch max_radius_m s request
               = match fetch (latitude request) (longitude request)
                             (radius_meters request) with
                 | inl exc =>
                     HttpError (overpass_status_code exc)
                               (overpass_message exc)
                 | inr (buildings, roads, parks, waters) =>
                     if negb (truthy_list buildings)
                     then HttpError 404 no_buildings_detail
                     else
                       match build_model_archive s
                               (with_forced_options request)
                               buildings roads parks waters with
                       | Raise (BuildError message) => HttpError 500 message
                       | Ok out =>
                           HttpOk
                             {| content := archive out;
                                media_type := "application/zip";
                                content_disposition :=
                                  ("attachment; filename="
                                     ++ String "034"%char
                                          (filename out
                                             ++ String "034"%char
                                                  EmptyString))%string;
                                x_building_count :=
                                  str_of_int
                                    (Z.of_nat
                                       (building_count (metadata out))) |}
                       end
                 end).
  { unfold create_models. cbv zeta. rewrite !clamped_request.
    rewrite Z.min_l by exact Hr. reflexivity. }
  rewrite Hc. clear Hc. unfold preview_models. cbv zeta.
  change (latitude (with_forced_options request)) with (latitude request).
  change (longitude (with_forced_options request)) with (longitude request).
  change (radius_meters (with_forced_options request))
    with (radius_meters request).
  destruct (fetch (latitude request) (longitude request)
                  (radius_meters request))
    as [exc | [[[buildings roads] parks] waters]].
  - split; [| discriminate].
    intros code detail H. inversion H; subst. now left.
  - destruct (negb (truthy_list buildings)).
    + split; [| discriminate].
      intros code detail H. inversion H; subst. now left.
    + destruct (generate_preview_data s (with_forced_options request)
                  buildings roads parks waters)
        as [[meta previews] | [message]] eqn:Eg.
      * split; [discriminate |].
        destruct (build_model_archive s (with_forced_options request)
                    buildings roads parks waters)
          as [out | [message]] eqn:Eb; [| discriminate].
        intros body H. inversion H; subst body. simpl.
        split; [reflexivity |]. exists meta, previews.
        split; [reflexivity |].
        apply build_model_archive_parts in Eb.
        destruct Eb as (ctx & wm & gm & bm & hm & Hctx & _ & _ & _ & Hm).
        apply generate_preview_data_parts in Eg.
        destruct Eg as (ctx' & Hctx' & _ & ->).
        rewrite Hctx in Hctx'. inversion Hctx'; subst ctx'.
        rewrite Hm. reflexivity.
      * rewrite (preview_failure_is_archive_failure _ _ _ _ _ _ Eg).
        split; [| discriminate].
        intros code detail H. inversion H; subst. right. now split.
Qed.

End EndpointFacts.

Lemma endpoints_ignore_request_options_witness :
  @create_models Reference.geometry Reference.projector Reference.kernel
    ReferenceServices.fetch_street 750 default_settings
    {| latitude := 0; longitude := 0; radius_meters := 800;
       highlight_home := false; formats := ["obj"%string] |}
  = @create_models Reference.geometry Reference.projector Reference.kernel
      ReferenceServices.fetch_street 750 default_settings
      {| latitude := 0; longitude := 0; radius_meters := 1000;
         highlight_home := true; formats := ["stl"%string] |}.
Proof.
  apply (@endpoints_ignore_request_options Reference.geometry
           Reference.projector Reference.kernel
           ReferenceServices.fetch_street 750 default_settings
           {| latitude := 0; longitude := 0; radius_meters := 800;
              highlight_home := false; formats := ["obj"%string] |}
           {| latitude := 0; longitude := 0; radius_meters := 1000;
              highlight_home := true; formats := ["stl"%string] |}
           eq_refl eq_refl).
  reflexivity.
Defined.

Lemma endpoints_agree_witness :
  exists detail,
    @preview_models Reference.geometry Reference.projector
      ReferenceServices.fetch_far_away default_settings Reference.request_100
    = HttpError 400 detail
    /\ @create_models Reference.geometry Reference.projector Reference.kernel
         ReferenceServices.fetch_far_away 750 default_settings
         Reference.request_100
       = HttpError 500 detail.
Proof.
  destruct (@preview_models Reference.geometry Reference.projector
              ReferenceServices.fetch_far_away default_settings
              Reference.request_100) as [body | code detail] eqn:Ep;
    [vm_compute in Ep; discriminate Ep |].
  assert (Hcode : code = 400%Z) by (vm_compute in Ep; congruence).
  subst code. exists detail. split; [reflexivity |].
  destruct (@endpoints_agree Reference.geometry Reference.projector
              Reference.kernel ReferenceServices.fetch_far_away 750
              default_settings Reference.request_100 ltac:(simpl; lia))
    as [Herr _].
  destruct (Herr 400%Z detail Ep) as [H | [_ H]]; [| exact H].
  vm_compute in H. discriminate H.
Defined.
